(** * Breakout game: a shallow embedding of the game-loop core

    The development follows the Python sources of the repository
    ([paddle.py], [ball.py], [brick.py], [particle.py], [power_up.py],
    [star.py], [user_auth.py], [text_input_box.py], [passtext_input_box.py],
    [button.py] and [breakout_game.py]).

    Conventions of the embedding:
    - Python [int] values are [Z]; Python [float] values are exact rationals
      ([Q], kept in lowest terms).  The operations the theorems below rely
      on (negation, multiplication by [1] or [-1], comparison with [0],
      assignment) are exact in IEEE arithmetic as well.  The other float
      operations (the factor 0.7 of a slowed ball, the shrinking and the
      fading of a particle or of a fragment) are computed exactly here,
      where the machine rounds to the nearest binary64 value.
    - a Python [str] is a [string] whose characters are Unicode code points
      below 256 (a character of the model is a code point, not a byte of an
      encoding); text with higher code points is outside the embedding.
    - a [pygame.Rect] is a record of four integers; assigning or passing a
      float to it truncates toward zero, as pygame does.  The only float
      ever assigned to a width is 1.5 times the default width of the
      paddle, which is 100 from [__init__] on, so that the value is the
      integer 150.  The coordinates are unbounded here and C [int]s in
      pygame, whose limits the coordinates of this game stay far from.
    - the global [random] generator is a tape of raw draws; every library
      call ([random], [uniform], [randint], [choice]) consumes one draw and
      maps it into its range.
    - Python exceptions are values of [result].
    - objects held in a list and removed with [list.remove] are compared by
      identity in Python (none of the classes defines [__eq__]); the loops
      over a snapshot therefore drop exactly the visited element. *)

From stdpp Require Import gmap strings pretty.
From Stdlib Require Import ZArith QArith Qabs List Bool Ascii Lia Lqa.
Import ListNotations.

Local Open Scope Z_scope.

(** ** Numbers *)

Definition qadd (a b : Q) : Q := Qred (a + b).
Definition qsub (a b : Q) : Q := Qred (a - b).
Definition qmul (a b : Q) : Q := Qred (a * b).
Definition qneg (a : Q) : Q := Qopp a.
Definition qmax (a b : Q) : Q := if Qle_bool a b then b else a.
Definition qlt (a b : Q) : bool := negb (Qle_bool b a).
Definition qle (a b : Q) : bool := Qle_bool a b.
Definition qgt (a b : Q) : bool := qlt b a.
Definition Zq (z : Z) : Q := inject_Z z.

(** Conversion of a float to the [int] stored in a [pygame.Rect]. *)
Definition int_of_float (q : Q) : Z := Z.quot (Qnum q) (Zpos (Qden q)).

(** ** Exceptions *)

Inductive exn : Type := TypeError | ValueError | SystemExit.

Inductive result (A : Type) : Type :=
| Ok (a : A)
| Raise (e : exn).
Arguments Ok {A} a.
Arguments Raise {A} e.

Global Instance result_ret : MRet result := fun _ a => Ok a.
Global Instance result_bind : MBind result := fun _ _ k m =>
  match m with
  | Ok a => k a
  | Raise e => Raise e
  end.

(** ** The [random] module *)

Definition Rng := list Z.

Definition draw (g : Rng) : Z * Rng :=
  match g with
  | [] => (0, [])
  | r :: g' => (r, g')
  end.

(** [random.random()]: a float in [0, 1). *)
Definition random_random (g : Rng) : Q * Rng :=
  let '(r, g') := draw g in (Qred ((r mod 1000) # 1000), g').

(** [random.uniform(a, b)] is [a + (b - a) * random()]. *)
Definition random_uniform (a b : Q) (g : Rng) : Q * Rng :=
  let '(u, g') := random_random g in (qadd a (qmul (qsub b a) u), g').

(** [random.randint(a, b)]: an integer of the closed interval. *)
Definition random_randint (a b : Z) (g : Rng) : Z * Rng :=
  let '(r, g') := draw g in (a + r mod (b - a + 1), g').

(** ** pygame.Rect *)

Record Rect : Type := mkRect { rx : Z; ry : Z; rw : Z; rh : Z }.

Definition left (r : Rect) : Z := rx r.
Definition top (r : Rect) : Z := ry r.
Definition right (r : Rect) : Z := rx r + rw r.
Definition bottom (r : Rect) : Z := ry r + rh r.
Definition centerx (r : Rect) : Z := rx r + Z.quot (rw r) 2.
Definition centery (r : Rect) : Z := ry r + Z.quot (rh r) 2.

Definition move_ip (dx dy : Z) (r : Rect) : Rect :=
  mkRect (rx r + dx) (ry r + dy) (rw r) (rh r).

Definition set_width (w : Z) (r : Rect) : Rect :=
  mkRect (rx r) (ry r) w (rh r).

Definition set_topleft (x y : Z) (r : Rect) : Rect :=
  mkRect x y (rw r) (rh r).

(** [Rect.colliderect]: rectangles of zero size never collide, touching
    edges do not count as an overlap. *)
Definition colliderect (a b : Rect) : bool :=
  if (rw a =? 0) || (rh a =? 0) || (rw b =? 0) || (rh b =? 0) then false
  else
    (Z.min (rx a) (rx a + rw a) <? Z.max (rx b) (rx b + rw b))
    && (Z.min (ry a) (ry a + rh a) <? Z.max (ry b) (ry b + rh b))
    && (Z.max (rx a) (rx a + rw a) >? Z.min (rx b) (rx b + rw b))
    && (Z.max (ry a) (ry a + rh a) >? Z.min (ry b) (ry b + rh b)).

(** [Rect.collidepoint]: the right and bottom edges are outside. *)
Definition collidepoint (r : Rect) (p : Z * Z) : bool :=
  (rx r <=? fst p) && (fst p <? rx r + rw r)
  && (ry r <=? snd p) && (snd p <? ry r + rh r).

(** ** particle.py *)

Record Particle : Type := mkParticle {
  p_x : Q;
  p_y : Q;
  p_vx : Q;
  p_vy : Q;
  p_size : Q;
  p_lifetime : Z;
  p_color : Z * Z * Z
}.

(** [Particle.__init__] *)
Definition Particle_init (x y : Z) (g : Rng) : Particle * Rng :=
  let '(vx, g1) := random_uniform (-(3#2)) (3#2) g in
  let '(vy, g2) := random_uniform (-(2#1)) 0 g1 in
  let '(size, g3) := random_randint 5 10 g2 in
  let '(red, g4) := random_randint 200 255 g3 in
  let '(green, g5) := random_randint 100 200 g4 in
  (mkParticle (Zq x) (Zq y) vx vy (Zq size) 50 (red, green, 0), g5).

(** [Particle.update] *)
Definition Particle_update (p : Particle) : Particle :=
  let '(r, g, _) := p_color p in
  mkParticle (qadd (p_x p) (p_vx p)) (qadd (p_y p) (p_vy p))
             (p_vx p) (p_vy p)
             (qmax (qsub (p_size p) (1#5)) 0)
             (p_lifetime p - 1)
             (Z.min 255 (r + 5), Z.max 0 (g - 5), 0).

(** [n] particles created one after the other at the same point. *)
Fixpoint spawn_particles (n : nat) (x y : Z) (g : Rng) : list Particle * Rng :=
  match n with
  | O => ([], g)
  | S n' =>
      let '(p, g1) := Particle_init x y g in
      let '(ps, g2) := spawn_particles n' x y g1 in
      (p :: ps, g2)
  end.

(** ** paddle.py *)

Record Paddle : Type := mkPaddle { paddle_rect : Rect }.

(** [Paddle.__init__] *)
Definition Paddle_init : Paddle := mkPaddle (mkRect (400 - 50) 580 100 10).

(** [Paddle.move] *)
Definition Paddle_move (dx : Z) (p : Paddle) : Paddle :=
  if (0 <? left (paddle_rect p) + dx) && (left (paddle_rect p) + dx <? 800 - 100)
  then mkPaddle (move_ip dx 0 (paddle_rect p))
  else p.

(** ** ball.py *)

Record Ball : Type := mkBall {
  ball_rect : Rect;
  ball_dx : Q;
  ball_dy : Q;
  trail : list Particle
}.

(** [Ball.__init__] *)
Definition Ball_init : Ball :=
  mkBall (mkRect (400 - 10) (300 - 10) 20 20) 5 (-(5#1)) [].

(** [Ball.move]: one trail particle, the oldest evicted past 20, then the
    rectangle moves by the (truncated) velocity. *)
Definition Ball_move (b : Ball) (g : Rng) : Ball * Rng :=
  let '(p, g') := Particle_init (centerx (ball_rect b)) (centery (ball_rect b)) g in
  let tr := trail b ++ [p] in
  let tr' := if (20 <? Z.of_nat (length tr)) then tl tr else tr in
  (mkBall (move_ip (int_of_float (ball_dx b)) (int_of_float (ball_dy b)) (ball_rect b))
          (ball_dx b) (ball_dy b) tr', g').

(** [Ball.check_collision_with_walls] *)
Definition Ball_check_collision_with_walls (b : Ball) : Ball :=
  let dx' := if (left (ball_rect b) <=? 0) || (right (ball_rect b) >=? 800)
             then qneg (ball_dx b) else ball_dx b in
  let dy' := if (top (ball_rect b) <=? 0) then qneg (ball_dy b) else ball_dy b in
  mkBall (ball_rect b) dx' dy' (trail b).

(** [Ball.check_collision_with_paddle]: returns the ball, the particle list
    it was handed and the generator. *)
Definition Ball_check_collision_with_paddle
    (b : Ball) (paddle : Paddle) (particles : list Particle) (g : Rng)
  : Ball * list Particle * Rng :=
  if colliderect (ball_rect b) (paddle_rect paddle) then
    let '(ps, g') :=
      spawn_particles 10 (centerx (ball_rect b)) (centery (ball_rect b)) g in
    (mkBall (ball_rect b) (ball_dx b) (qneg (ball_dy b)) (trail b),
     particles ++ ps, g')
  else (b, particles, g).

(** [Ball.draw]: the only state it touches is the trail, whose particles
    are updated before they are drawn. *)
Definition Ball_draw (b : Ball) : Ball :=
  mkBall (ball_rect b) (ball_dx b) (ball_dy b) (map Particle_update (trail b)).

(** ** brick.py *)

Inductive PowerUpType : Type := increase_paddle_size | slow_ball | extra_life.

Global Instance PowerUpType_eq_dec : EqDecision PowerUpType.
Proof. solve_decision. Defined.

(** [special_brick_types] *)
Definition special_brick_types : list PowerUpType :=
  [increase_paddle_size; slow_ball; extra_life].

(** [random.choice] over the power-up types. *)
Definition random_choice (l : list PowerUpType) (g : Rng) : PowerUpType * Rng :=
  let '(r, g') := draw g in
  (nth (Z.to_nat (r mod Z.of_nat (length l))) l increase_paddle_size, g').

Record BrickFragment : Type := mkBrickFragment {
  f_x : Q;
  f_y : Q;
  f_width : Q;
  f_height : Q;
  f_vx : Q;
  f_vy : Q;
  f_color : Z * Z * Z;
  f_fade_speed : Q
}.

(** [BrickFragment.__init__] *)
Definition BrickFragment_init
    (x y : Z) (width height : Q) (color : Z * Z * Z) (fade_speed : Q) (g : Rng)
  : BrickFragment * Rng :=
  let '(vx, g1) := random_uniform (-(1#1)) 1 g in
  let '(vy, g2) := random_uniform 1 3 g1 in
  (mkBrickFragment (Zq x) (Zq y) width height vx vy color fade_speed, g2).

(** [BrickFragment.update] *)
Definition BrickFragment_update (f : BrickFragment) : BrickFragment :=
  mkBrickFragment (qadd (f_x f) (f_vx f)) (qadd (f_y f) (f_vy f))
                  (qmax (qsub (f_width f) (f_fade_speed f)) 0)
                  (qmax (qsub (f_height f) (f_fade_speed f)) 0)
                  (f_vx f) (f_vy f) (f_color f) (f_fade_speed f).

Record Brick : Type := mkBrick {
  brick_rect : Rect;
  frame_counter : Z;
  flicker_offset : Z;
  max_flicker_offset : Z;
  flicker_direction : Z;
  power_up_type : option PowerUpType
}.

(** [Brick.__init__] *)
Definition Brick_init (x y : Z) : Brick :=
  mkBrick (mkRect x y 70 20) 0 0 2 1 None.

Definition set_power_up_type (t : option PowerUpType) (b : Brick) : Brick :=
  mkBrick (brick_rect b) (frame_counter b) (flicker_offset b)
          (max_flicker_offset b) (flicker_direction b) t.

(** [Brick.break_into_fragments] *)
Definition break_into_fragments (b : Brick) (g : Rng) : BrickFragment * Rng :=
  let '(fw, g1) := random_uniform (Zq (rw (brick_rect b) / 4))
                                  (Zq (rw (brick_rect b) / 2)) g in
  let '(fh, g2) := random_uniform (Zq (rh (brick_rect b) / 4))
                                  (Zq (rh (brick_rect b) / 2)) g1 in
  let '(fade, g3) := random_uniform (1#20) (1#10) g2 in
  BrickFragment_init (rx (brick_rect b)) (ry (brick_rect b)) fw fh (255, 0, 0) fade g3.

Fixpoint spawn_fragments (n : nat) (b : Brick) (g : Rng) : list BrickFragment * Rng :=
  match n with
  | O => ([], g)
  | S n' =>
      let '(f, g1) := break_into_fragments b g in
      let '(fs, g2) := spawn_fragments n' b g1 in
      (f :: fs, g2)
  end.

(** [Brick.draw_electric_arcs]: every fifth frame three arcs are drawn, each
    from seven random draws; nothing of the brick changes. *)
Definition draw_electric_arcs (b : Brick) (g : Rng) : Rng :=
  if frame_counter b mod 5 =? 0 then drop (3 * 7) g else g.

(** [Brick.draw]: the animation state advances with every call. *)
Definition Brick_draw (b : Brick) (g : Rng) : Brick * Rng :=
  let fc := frame_counter b + 1 in
  let '(off, dir) :=
    if fc mod 10 =? 0 then
      let off := flicker_offset b + flicker_direction b in
      if Z.abs off >=? max_flicker_offset b
      then (off, flicker_direction b * -1)
      else (off, flicker_direction b)
    else (flicker_offset b, flicker_direction b) in
  let b' := mkBrick (brick_rect b) fc off (max_flicker_offset b) dir (power_up_type b) in
  (b', draw_electric_arcs b' g).

(** ** power_up.py *)

Record PowerUp : Type := mkPowerUp {
  pu_x : Z;
  pu_y : Z;
  pu_type : PowerUpType;
  pu_rect : Rect
}.

(** [PowerUp.__init__] *)
Definition PowerUp_init (x y : Z) (t : PowerUpType) : PowerUp :=
  mkPowerUp x y t (mkRect x y 20 20).

(** [PowerUp.move] *)
Definition PowerUp_move (p : PowerUp) : PowerUp :=
  mkPowerUp (pu_x p) (pu_y p) (pu_type p) (move_ip 0 2 (pu_rect p)).

(** ** star.py *)

Record Star : Type := mkStar {
  star_x : Z;
  star_y : Q;
  star_size : Z;
  star_speed : Q
}.

(** [Star.__init__] *)
Definition Star_init (g : Rng) : Star * Rng :=
  let '(x, g1) := random_randint 0 800 g in
  let '(y, g2) := random_randint 0 600 g1 in
  let '(size, g3) := random_randint 1 3 g2 in
  let '(speed, g4) := random_uniform (1#2) 2 g3 in
  (mkStar x (Zq y) size speed, g4).

(** [Star.update] *)
Definition Star_update (s : Star) (g : Rng) : Star * Rng :=
  let y' := qadd (star_y s) (star_speed s) in
  if qgt y' 600 then
    let '(x, g') := random_randint 0 800 g in
    (mkStar x 0 (star_size s) (star_speed s), g')
  else (mkStar (star_x s) y' (star_size s) (star_speed s), g).

Fixpoint update_stars (l : list Star) (g : Rng) : list Star * Rng :=
  match l with
  | [] => ([], g)
  | s :: l' =>
      let '(s', g1) := Star_update s g in
      let '(l'', g2) := update_stars l' g1 in
      (s' :: l'', g2)
  end.

Fixpoint make_stars (n : nat) (g : Rng) : list Star * Rng :=
  match n with
  | O => ([], g)
  | S n' =>
      let '(s, g1) := Star_init g in
      let '(l, g2) := make_stars n' g1 in
      (s :: l, g2)
  end.

(** ** Strings *)

(** The whitespace characters [str.strip] removes, that is the code points
    below 256 for which [str.isspace] holds: tab to carriage return, the
    four separators U+001C to U+001F, the space, the next-line control
    U+0085 and the no-break space U+00A0. *)
Definition is_space (a : ascii) : bool :=
  let n := N_of_ascii a in
  ((n =? 32) || ((9 <=? n) && (n <=? 13)) || ((28 <=? n) && (n <=? 31))
   || (n =? 133) || (n =? 160))%N.

Fixpoint lstrip (s : string) : string :=
  match s with
  | EmptyString => EmptyString
  | String a s' => if is_space a then lstrip s' else s
  end.

Fixpoint rstrip (s : string) : string :=
  match s with
  | EmptyString => EmptyString
  | String a s' =>
      match rstrip s' with
      | EmptyString => if is_space a then EmptyString else String a EmptyString
      | t => String a t
      end
  end.

(** [str.strip()] *)
Definition strip (s : string) : string := rstrip (lstrip s).

(** The slice [s[:-1]]. *)
Fixpoint drop_last (s : string) : string :=
  match s with
  | EmptyString => EmptyString
  | String a EmptyString => EmptyString
  | String a s' => String a (drop_last s')
  end.

(** Truth value of a Python string. *)
Definition truthy (s : string) : bool :=
  match s with
  | EmptyString => false
  | _ => true
  end.

(** ** Input events *)

Inductive Key : Type := K_RETURN | K_BACKSPACE | K_p | K_r | K_LEFT | K_RIGHT | K_OTHER.

Inductive Event : Type :=
| QUIT
| WINDOWFOCUSLOST
| WINDOWFOCUSGAINED
| KEYDOWN (key : Key) (unicode : string)
| MOUSEBUTTONDOWN (pos : Z * Z)
| MOUSEMOTION (pos : Z * Z)
| OTHER_EVENT.

(** The pressed-key table of [pygame.key.get_pressed]. *)
Record Keys : Type := mkKeys { pressed_LEFT : bool; pressed_RIGHT : bool }.

(** ** text_input_box.py, passtext_input_box.py, button.py *)

Record TextInputBox : Type := mkTextInputBox {
  tb_rect : Rect;
  tb_text : string;
  tb_active : bool
}.

Definition TextInputBox_init (x y w h : Z) : TextInputBox :=
  mkTextInputBox (mkRect x y w h) "" false.

(** [TextInputBox.handle_event]; the second component is what it prints. *)
Definition TextInputBox_handle_event (b : TextInputBox) (e : Event)
  : TextInputBox * list string :=
  match e with
  | MOUSEBUTTONDOWN pos =>
      (mkTextInputBox (tb_rect b) (tb_text b)
         (if collidepoint (tb_rect b) pos then negb (tb_active b) else false), [])
  | KEYDOWN key unicode =>
      if tb_active b then
        match key with
        | K_RETURN => (mkTextInputBox (tb_rect b) "" (tb_active b), [tb_text b])
        | K_BACKSPACE =>
            (mkTextInputBox (tb_rect b) (drop_last (tb_text b)) (tb_active b), [])
        | _ => (mkTextInputBox (tb_rect b) (tb_text b +:+ unicode) (tb_active b), [])
        end
      else (b, [])
  | _ => (b, [])
  end.

(** [TextInputBox.reset] *)
Definition TextInputBox_reset (b : TextInputBox) : TextInputBox :=
  mkTextInputBox (tb_rect b) "" (tb_active b).

Record PassTextInputBox : Type := mkPassTextInputBox {
  pb_rect : Rect;
  pb_text : string;
  pb_masked_text : string;
  pb_active : bool
}.

Definition PassTextInputBox_init (x y w h : Z) : PassTextInputBox :=
  mkPassTextInputBox (mkRect x y w h) "" "" false.

(** [PassTextInputBox.handle_event] *)
Definition PassTextInputBox_handle_event (b : PassTextInputBox) (e : Event)
  : PassTextInputBox * list string :=
  match e with
  | MOUSEBUTTONDOWN pos =>
      (mkPassTextInputBox (pb_rect b) (pb_text b) (pb_masked_text b)
         (if collidepoint (pb_rect b) pos then negb (pb_active b) else false), [])
  | KEYDOWN key unicode =>
      if pb_active b then
        match key with
        | K_RETURN =>
            (mkPassTextInputBox (pb_rect b) "" "" (pb_active b), [pb_text b])
        | K_BACKSPACE =>
            (mkPassTextInputBox (pb_rect b) (drop_last (pb_text b))
               (drop_last (pb_masked_text b)) (pb_active b), [])
        | _ =>
            (mkPassTextInputBox (pb_rect b) (pb_text b +:+ unicode)
               (pb_masked_text b +:+ "*") (pb_active b), [])
        end
      else (b, [])
  | _ => (b, [])
  end.

(** [PassTextInputBox.reset] *)
Definition PassTextInputBox_reset (b : PassTextInputBox) : PassTextInputBox :=
  mkPassTextInputBox (pb_rect b) "" "" (pb_active b).

Record Button : Type := mkButton {
  btn_rect : Rect;
  btn_text : string;
  btn_hovered : bool
}.

Definition Button_init (x y w h : Z) (text : string) : Button :=
  mkButton (mkRect x y w h) text false.

(** [Button.handle_event]: the button and whether it was clicked. *)
Definition Button_handle_event (b : Button) (e : Event) : Button * bool :=
  match e with
  | MOUSEMOTION pos =>
      (mkButton (btn_rect b) (btn_text b) (collidepoint (btn_rect b) pos), false)
  | MOUSEBUTTONDOWN pos => (b, collidepoint (btn_rect b) pos)
  | _ => (b, false)
  end.

(** ** user_auth.py *)

Record User : Type := mkUser { password : string; high_score : Z }.

(** The module-level dictionary [users]. *)
Abbreviation Users := (gmap string User).

(** [hashlib.sha256(...).hexdigest()], a function of the standard library
    the gateway is parametric in. *)
Class Hashlib : Type := { sha256_hexdigest : string -> string }.

(** [user_auth.register_user]; writing the file is outside the model. *)
Definition auth_register_user `{Hashlib} (username pw : string) (users : Users)
  : Users * list string :=
  let hashed_password := sha256_hexdigest pw in
  match users !! username with
  | Some _ => (users, ["Username " +:+ username +:+ " is already taken."])
  | None =>
      (<[username := mkUser hashed_password 0]> users,
       ["User " +:+ username +:+ " registered!"])
  end.

(** [user_auth.login_user] *)
Definition auth_login_user `{Hashlib} (username pw : string) (users : Users) : bool :=
  let hashed_password := sha256_hexdigest pw in
  match users !! username with
  | Some u => if decide (password u = hashed_password) then true else false
  | None => false
  end.

(** The argument of the two high-score functions is [self.current_user],
    which is [None] until somebody has logged in; [None] is never a key. *)
Definition lookup_user (username : option string) (users : Users) : option User :=
  match username with
  | Some name => users !! name
  | None => None
  end.

Definition show_user (username : option string) : string :=
  match username with
  | Some name => name
  | None => "None"
  end.

(** [user_auth.update_high_score] *)
Definition auth_update_high_score (username : option string) (score : Z) (users : Users)
  : Users * list string :=
  match username, lookup_user username users with
  | Some name, Some u =>
      if score >? high_score u
      then (<[name := mkUser (password u) score]> users,
            ["High score updated for " +:+ name +:+ "!"])
      else (users, [])
  | _, _ => (users, ["User " +:+ show_user username +:+ " not found."])
  end.

(** [user_auth.get_high_score]: [None] for an unknown user. *)
Definition auth_get_high_score (username : option string) (users : Users)
  : option Z * list string :=
  match lookup_user username users with
  | Some u => (Some (high_score u), [])
  | None => (None, ["User " +:+ show_user username +:+ " not found."])
  end.

(** ** breakout_game.py: the game object *)

Inductive GameState : Type :=
  MAIN_MENU | GAME_RUNNING | PAUSED | GAME_OVER | POST_LOGIN_MENU.

Global Instance GameState_eq_dec : EqDecision GameState.
Proof. solve_decision. Defined.

(** [POWER_UP_DURATION], in milliseconds. *)
Definition POWER_UP_DURATION : Z := 5000.

(** The attributes of [BreakoutGame] that carry state (screen, clock, font
    and sounds are rendering and audio resources). *)
Record BreakoutGame : Type := mkBreakoutGame {
  paddle : Paddle;
  ball : Ball;
  default_ball_dx : Q;
  default_ball_dy : Q;
  row_range : Z;
  bricks : list Brick;
  particles : list Particle;
  fragments : list BrickFragment;
  stars : list Star;
  level : Z;
  score : Z;
  current_high_score : option Z;
  lives : Z;
  stage_bricks : Z;
  active_power_up : option PowerUpType;
  power_ups : list PowerUp;
  power_up_start_time : Z;
  paddle_width_default : Z;
  game_state : GameState;
  logged_in : bool;
  current_user : option string;
  focused : bool;
  username_input : TextInputBox;
  password_input : PassTextInputBox;
  login_button : Button;
  register_button : Button
}.

(** Attribute assignment, one function per attribute that is ever written. *)

Definition set_paddle (v : Paddle) (s : BreakoutGame) : BreakoutGame :=
  mkBreakoutGame v (ball s) (default_ball_dx s) (default_ball_dy s)
    (row_range s) (bricks s) (particles s) (fragments s) (stars s) (level s)
    (score s) (current_high_score s) (lives s) (stage_bricks s)
    (active_power_up s) (power_ups s) (power_up_start_time s)
    (paddle_width_default s) (game_state s) (logged_in s) (current_user s)
    (focused s) (username_input s) (password_input s) (login_button s)
    (register_button s).

Definition set_ball (v : Ball) (s : BreakoutGame) : BreakoutGame :=
  mkBreakoutGame (paddle s) v (default_ball_dx s) (default_ball_dy s)
    (row_range s) (bricks s) (particles s) (fragments s) (stars s) (level s)
    (score s) (current_high_score s) (lives s) (stage_bricks s)
    (active_power_up s) (power_ups s) (power_up_start_time s)
    (paddle_width_default s) (game_state s) (logged_in s) (current_user s)
    (focused s) (username_input s) (password_input s) (login_button s)
    (register_button s).

Definition set_default_ball_dx (v : Q) (s : BreakoutGame) : BreakoutGame :=
  mkBreakoutGame (paddle s) (ball s) v (default_ball_dy s) (row_range s)
    (bricks s) (particles s) (fragments s) (stars s) (level s) (score s)
    (current_high_score s) (lives s) (stage_bricks s) (active_power_up s)
    (power_ups s) (power_up_start_time s) (paddle_width_default s)
    (game_state s) (logged_in s) (current_user s) (focused s)
    (username_input s) (password_input s) (login_button s) (register_button s).

Definition set_default_ball_dy (v : Q) (s : BreakoutGame) : BreakoutGame :=
  mkBreakoutGame (paddle s) (ball s) (default_ball_dx s) v (row_range s)
    (bricks s) (particles s) (fragments s) (stars s) (level s) (score s)
    (current_high_score s) (lives s) (stage_bricks s) (active_power_up s)
    (power_ups s) (power_up_start_time s) (paddle_width_default s)
    (game_state s) (logged_in s) (current_user s) (focused s)
    (username_input s) (password_input s) (login_button s) (register_button s).

Definition set_row_range (v : Z) (s : BreakoutGame) : BreakoutGame :=
  mkBreakoutGame (paddle s) (ball s) (default_ball_dx s) (default_ball_dy s) v
    (bricks s) (particles s) (fragments s) (stars s) (level s) (score s)
    (current_high_score s) (lives s) (stage_bricks s) (active_power_up s)
    (power_ups s) (power_up_start_time s) (paddle_width_default s)
    (game_state s) (logged_in s) (current_user s) (focused s)
    (username_input s) (password_input s) (login_button s) (register_button s).

Definition set_bricks (v : list Brick) (s : BreakoutGame) : BreakoutGame :=
  mkBreakoutGame (paddle s) (ball s) (default_ball_dx s) (default_ball_dy s)
    (row_range s) v (particles s) (fragments s) (stars s) (level s) (score s)
    (current_high_score s) (lives s) (stage_bricks s) (active_power_up s)
    (power_ups s) (power_up_start_time s) (paddle_width_default s)
    (game_state s) (logged_in s) (current_user s) (focused s)
    (username_input s) (password_input s) (login_button s) (register_button s).

Definition set_particles (v : list Particle) (s : BreakoutGame) : BreakoutGame :=
  mkBreakoutGame (paddle s) (ball s) (default_ball_dx s) (default_ball_dy s)
    (row_range s) (bricks s) v (fragments s) (stars s) (level s) (score s)
    (current_high_score s) (lives s) (stage_bricks s) (active_power_up s)
    (power_ups s) (power_up_start_time s) (paddle_width_default s)
    (game_state s) (logged_in s) (current_user s) (focused s)
    (username_input s) (password_input s) (login_button s) (register_button s).

Definition set_fragments (v : list BrickFragment) (s : BreakoutGame) : BreakoutGame :=
  mkBreakoutGame (paddle s) (ball s) (default_ball_dx s) (default_ball_dy s)
    (row_range s) (bricks s) (particles s) v (stars s) (level s) (score s)
    (current_high_score s) (lives s) (stage_bricks s) (active_power_up s)
    (power_ups s) (power_up_start_time s) (paddle_width_default s)
    (game_state s) (logged_in s) (current_user s) (focused s)
    (username_input s) (password_input s) (login_button s) (register_button s).

Definition set_stars (v : list Star) (s : BreakoutGame) : BreakoutGame :=
  mkBreakoutGame (paddle s) (ball s) (default_ball_dx s) (default_ball_dy s)
    (row_range s) (bricks s) (particles s) (fragments s) v (level s) (score s)
    (current_high_score s) (lives s) (stage_bricks s) (active_power_up s)
    (power_ups s) (power_up_start_time s) (paddle_width_default s)
    (game_state s) (logged_in s) (current_user s) (focused s)
    (username_input s) (password_input s) (login_button s) (register_button s).

Definition set_level (v : Z) (s : BreakoutGame) : BreakoutGame :=
  mkBreakoutGame (paddle s) (ball s) (default_ball_dx s) (default_ball_dy s)
    (row_range s) (bricks s) (particles s) (fragments s) (stars s) v (score s)
    (current_high_score s) (lives s) (stage_bricks s) (active_power_up s)
    (power_ups s) (power_up_start_time s) (paddle_width_default s)
    (game_state s) (logged_in s) (current_user s) (focused s)
    (username_input s) (password_input s) (login_button s) (register_button s).

Definition set_score (v : Z) (s : BreakoutGame) : BreakoutGame :=
  mkBreakoutGame (paddle s) (ball s) (default_ball_dx s) (default_ball_dy s)
    (row_range s) (bricks s) (particles s) (fragments s) (stars s) (level s) v
    (current_high_score s) (lives s) (stage_bricks s) (active_power_up s)
    (power_ups s) (power_up_start_time s) (paddle_width_default s)
    (game_state s) (logged_in s) (current_user s) (focused s)
    (username_input s) (password_input s) (login_button s) (register_button s).

Definition set_current_high_score (v : option Z) (s : BreakoutGame) : BreakoutGame :=
  mkBreakoutGame (paddle s) (ball s) (default_ball_dx s) (default_ball_dy s)
    (row_range s) (bricks s) (particles s) (fragments s) (stars s) (level s)
    (score s) v (lives s) (stage_bricks s) (active_power_up s) (power_ups s)
    (power_up_start_time s) (paddle_width_default s) (game_state s)
    (logged_in s) (current_user s) (focused s) (username_input s)
    (password_input s) (login_button s) (register_button s).

Definition set_lives (v : Z) (s : BreakoutGame) : BreakoutGame :=
  mkBreakoutGame (paddle s) (ball s) (default_ball_dx s) (default_ball_dy s)
    (row_range s) (bricks s) (particles s) (fragments s) (stars s) (level s)
    (score s) (current_high_score s) v (stage_bricks s) (active_power_up s)
    (power_ups s) (power_up_start_time s) (paddle_width_default s)
    (game_state s) (logged_in s) (current_user s) (focused s)
    (username_input s) (password_input s) (login_button s) (register_button s).

Definition set_stage_bricks (v : Z) (s : BreakoutGame) : BreakoutGame :=
  mkBreakoutGame (paddle s) (ball s) (default_ball_dx s) (default_ball_dy s)
    (row_range s) (bricks s) (particles s) (fragments s) (stars s) (level s)
    (score s) (current_high_score s) (lives s) v (active_power_up s)
    (power_ups s) (power_up_start_time s) (paddle_width_default s)
    (game_state s) (logged_in s) (current_user s) (focused s)
    (username_input s) (password_input s) (login_button s) (register_button s).

Definition set_active_power_up (v : option PowerUpType) (s : BreakoutGame) : BreakoutGame :=
  mkBreakoutGame (paddle s) (ball s) (default_ball_dx s) (default_ball_dy s)
    (row_range s) (bricks s) (particles s) (fragments s) (stars s) (level s)
    (score s) (current_high_score s) (lives s) (stage_bricks s) v
    (power_ups s) (power_up_start_time s) (paddle_width_default s)
    (game_state s) (logged_in s) (current_user s) (focused s)
    (username_input s) (password_input s) (login_button s) (register_button s).

Definition set_power_ups (v : list PowerUp) (s : BreakoutGame) : BreakoutGame :=
  mkBreakoutGame (paddle s) (ball s) (default_ball_dx s) (default_ball_dy s)
    (row_range s) (bricks s) (particles s) (fragments s) (stars s) (level s)
    (score s) (current_high_score s) (lives s) (stage_bricks s)
    (active_power_up s) v (power_up_start_time s) (paddle_width_default s)
    (game_state s) (logged_in s) (current_user s) (focused s)
    (username_input s) (password_input s) (login_button s) (register_button s).

Definition set_power_up_start_time (v : Z) (s : BreakoutGame) : BreakoutGame :=
  mkBreakoutGame (paddle s) (ball s) (default_ball_dx s) (default_ball_dy s)
    (row_range s) (bricks s) (particles s) (fragments s) (stars s) (level s)
    (score s) (current_high_score s) (lives s) (stage_bricks s)
    (active_power_up s) (power_ups s) v (paddle_width_default s)
    (game_state s) (logged_in s) (current_user s) (focused s)
    (username_input s) (password_input s) (login_button s) (register_button s).

Definition set_game_state (v : GameState) (s : BreakoutGame) : BreakoutGame :=
  mkBreakoutGame (paddle s) (ball s) (default_ball_dx s) (default_ball_dy s)
    (row_range s) (bricks s) (particles s) (fragments s) (stars s) (level s)
    (score s) (current_high_score s) (lives s) (stage_bricks s)
    (active_power_up s) (power_ups s) (power_up_start_time s)
    (paddle_width_default s) v (logged_in s) (current_user s) (focused s)
    (username_input s) (password_input s) (login_button s) (register_button s).

Definition set_logged_in (v : bool) (s : BreakoutGame) : BreakoutGame :=
  mkBreakoutGame (paddle s) (ball s) (default_ball_dx s) (default_ball_dy s)
    (row_range s) (bricks s) (particles s) (fragments s) (stars s) (level s)
    (score s) (current_high_score s) (lives s) (stage_bricks s)
    (active_power_up s) (power_ups s) (power_up_start_time s)
    (paddle_width_default s) (game_state s) v (current_user s) (focused s)
    (username_input s) (password_input s) (login_button s) (register_button s).

Definition set_current_user (v : option string) (s : BreakoutGame) : BreakoutGame :=
  mkBreakoutGame (paddle s) (ball s) (default_ball_dx s) (default_ball_dy s)
    (row_range s) (bricks s) (particles s) (fragments s) (stars s) (level s)
    (score s) (current_high_score s) (lives s) (stage_bricks s)
    (active_power_up s) (power_ups s) (power_up_start_time s)
    (paddle_width_default s) (game_state s) (logged_in s) v (focused s)
    (username_input s) (password_input s) (login_button s) (register_button s).

Definition set_focused (v : bool) (s : BreakoutGame) : BreakoutGame :=
  mkBreakoutGame (paddle s) (ball s) (default_ball_dx s) (default_ball_dy s)
    (row_range s) (bricks s) (particles s) (fragments s) (stars s) (level s)
    (score s) (current_high_score s) (lives s) (stage_bricks s)
    (active_power_up s) (power_ups s) (power_up_start_time s)
    (paddle_width_default s) (game_state s) (logged_in s) (current_user s) v
    (username_input s) (password_input s) (login_button s) (register_button s).

Definition set_username_input (v : TextInputBox) (s : BreakoutGame) : BreakoutGame :=
  mkBreakoutGame (paddle s) (ball s) (default_ball_dx s) (default_ball_dy s)
    (row_range s) (bricks s) (particles s) (fragments s) (stars s) (level s)
    (score s) (current_high_score s) (lives s) (stage_bricks s)
    (active_power_up s) (power_ups s) (power_up_start_time s)
    (paddle_width_default s) (game_state s) (logged_in s) (current_user s)
    (focused s) v (password_input s) (login_button s) (register_button s).

Definition set_password_input (v : PassTextInputBox) (s : BreakoutGame) : BreakoutGame :=
  mkBreakoutGame (paddle s) (ball s) (default_ball_dx s) (default_ball_dy s)
    (row_range s) (bricks s) (particles s) (fragments s) (stars s) (level s)
    (score s) (current_high_score s) (lives s) (stage_bricks s)
    (active_power_up s) (power_ups s) (power_up_start_time s)
    (paddle_width_default s) (game_state s) (logged_in s) (current_user s)
    (focused s) (username_input s) v (login_button s) (register_button s).

Definition set_login_button (v : Button) (s : BreakoutGame) : BreakoutGame :=
  mkBreakoutGame (paddle s) (ball s) (default_ball_dx s) (default_ball_dy s)
    (row_range s) (bricks s) (particles s) (fragments s) (stars s) (level s)
    (score s) (current_high_score s) (lives s) (stage_bricks s)
    (active_power_up s) (power_ups s) (power_up_start_time s)
    (paddle_width_default s) (game_state s) (logged_in s) (current_user s)
    (focused s) (username_input s) (password_input s) v (register_button s).

Definition set_register_button (v : Button) (s : BreakoutGame) : BreakoutGame :=
  mkBreakoutGame (paddle s) (ball s) (default_ball_dx s) (default_ball_dy s)
    (row_range s) (bricks s) (particles s) (fragments s) (stars s) (level s)
    (score s) (current_high_score s) (lives s) (stage_bricks s)
    (active_power_up s) (power_ups s) (power_up_start_time s)
    (paddle_width_default s) (game_state s) (logged_in s) (current_user s)
    (focused s) (username_input s) (password_input s) (login_button s) v.

(** The game object together with the module-level state it works on:
    the [users] dictionary of [user_auth], the [random] generator and the
    lines printed so far. *)
Record World : Type := mkWorld {
  self : BreakoutGame;
  users : Users;
  rng : Rng;
  stdout : list string
}.

Definition with_self (f : BreakoutGame -> BreakoutGame) (w : World) : World :=
  mkWorld (f (self w)) (users w) (rng w) (stdout w).

Definition with_rng (g : Rng) (w : World) : World :=
  mkWorld (self w) (users w) g (stdout w).

Definition with_users (u : Users) (w : World) : World :=
  mkWorld (self w) u (rng w) (stdout w).

Definition print (lines : list string) (w : World) : World :=
  mkWorld (self w) (users w) (rng w) (stdout w ++ lines).

(** *** Brick grid *)

(** [range(n)] *)
Definition range (n : Z) : list Z := map Z.of_nat (seq 0 (Z.to_nat n)).

(** One brick of [create_bricks]: a power-up tag with probability 0.2. *)
Definition create_brick (row col : Z) (g : Rng) : Brick * Rng :=
  let brick := Brick_init (col * 80 + 10) (row * 30 + 10) in
  let '(u, g1) := random_random g in
  if qlt u (1#5) then
    let '(t, g2) := random_choice special_brick_types g1 in
    (set_power_up_type (Some t) brick, g2)
  else (brick, g1).

Fixpoint create_row (row : Z) (cols : list Z) (g : Rng) : list Brick * Rng :=
  match cols with
  | [] => ([], g)
  | col :: cols' =>
      let '(b, g1) := create_brick row col g in
      let '(bs, g2) := create_row row cols' g1 in
      (b :: bs, g2)
  end.

Fixpoint create_rows (rows cols : list Z) (g : Rng) : list Brick * Rng :=
  match rows with
  | [] => ([], g)
  | row :: rows' =>
      let '(bs, g1) := create_row row cols g in
      let '(bss, g2) := create_rows rows' cols g1 in
      (bs ++ bss, g2)
  end.

(** [BreakoutGame.create_bricks] *)
Definition create_bricks (rows cols : Z) (g : Rng) : list Brick * Rng :=
  create_rows (range rows) (range cols) g.

(** The plain grid of [reset_game]: five rows of ten untagged bricks. *)
Definition plain_grid : list Brick :=
  flat_map (fun row => map (fun col => Brick_init (col * 80 + 10) (row * 30 + 10))
                           (range 10))
           (range 5).

(** *** Power-ups *)

(** [BreakoutGame.activate_power_up]; [now] is [pygame.time.get_ticks()]. *)
Definition activate_power_up (t : PowerUpType) (now : Z) (s : BreakoutGame)
  : BreakoutGame :=
  let s1 :=
    match t with
    | increase_paddle_size =>
        set_paddle
          (mkPaddle (set_width
                       (int_of_float (qmul (Zq (paddle_width_default s)) (3#2)))
                       (paddle_rect (paddle s)))) s
    | slow_ball =>
        let slow_ball_dx := qmul (ball_dx (ball s)) (7#10) in
        let slow_ball_dy := qmul (ball_dy (ball s)) (7#10) in
        set_ball (mkBall (ball_rect (ball s)) slow_ball_dx slow_ball_dy
                         (trail (ball s))) s
    | extra_life => set_lives (lives s + 1) s
    end in
  set_power_up_start_time now (set_active_power_up (Some t) s1).

(** [BreakoutGame.reset_power_ups] *)
Definition reset_power_ups (s : BreakoutGame) : BreakoutGame :=
  let s1 :=
    match active_power_up s with
    | Some increase_paddle_size =>
        set_paddle (mkPaddle (set_width (paddle_width_default s)
                                        (paddle_rect (paddle s)))) s
    | Some slow_ball =>
        let direction_x := (if qgt (ball_dx (ball s)) 0 then 1 else -(1#1))%Q in
        let direction_y := (if qgt (ball_dy (ball s)) 0 then 1 else -(1#1))%Q in
        set_ball (mkBall (ball_rect (ball s))
                         (qmul (default_ball_dx s) direction_x)
                         (qmul (default_ball_dy s) direction_y)
                         (trail (ball s))) s
    | _ => s
    end in
  set_active_power_up None s1.

(** *** Collisions with the bricks *)

(** The body of the loop for a brick the ball overlaps, its removal apart:
    bounce, drop the power-up, ten particles, four to ten fragments. *)
Definition hit_brick (brick : Brick) (w : World) : World :=
  let s := self w in
  let b := ball s in
  let s1 := set_ball (mkBall (ball_rect b) (ball_dx b) (qneg (ball_dy b)) (trail b)) s in
  let s2 :=
    match power_up_type brick with
    | Some t =>
        set_power_ups
          (power_ups s1 ++
             [PowerUp_init (rx (brick_rect brick) + 25) (ry (brick_rect brick)) t]) s1
    | None => s1
    end in
  let '(ps, g1) :=
    spawn_particles 10 (centerx (brick_rect brick)) (centery (brick_rect brick))
                    (rng w) in
  let s3 := set_particles (particles s2 ++ ps) s2 in
  let '(num_fragments, g2) := random_randint 4 10 g1 in
  let '(fs, g3) := spawn_fragments (Z.to_nat num_fragments) brick g2 in
  let s4 := set_fragments (fragments s3 ++ fs) s3 in
  mkWorld s4 (users w) g3 (stdout w).

(** The loop over the snapshot [bricks[:]]: the bricks that stay, in order,
    and the world after every hit. *)
Fixpoint bricks_pass (snapshot : list Brick) (w : World) : list Brick * World :=
  match snapshot with
  | [] => ([], w)
  | brick :: rest =>
      if colliderect (ball_rect (ball (self w))) (brick_rect brick)
      then bricks_pass rest (hit_brick brick w)
      else let '(kept, w') := bricks_pass rest w in (brick :: kept, w')
  end.

(** [BreakoutGame.check_collision_with_bricks], called on the game's own
    lists. *)
Definition check_collision_with_bricks (w : World) : World :=
  let '(kept, w') := bricks_pass (bricks (self w)) w in
  with_self (set_bricks kept) w'.

(** *** Scoring and levels *)

Definition len {A : Type} (l : list A) : Z := Z.of_nat (length l).

(** [BreakoutGame.scoring] *)
Definition scoring (s : BreakoutGame) : BreakoutGame :=
  let bricks_destroyed := stage_bricks s - len (bricks s) in
  let s1 := set_score (score s + bricks_destroyed * (level s * 100)) s in
  set_stage_bricks (len (bricks s1)) s1.

(** [BreakoutGame.level_up] *)
Definition level_up (w : World) : World :=
  let s := self w in
  let speed_increase := (11#10)%Q in
  let s1 := set_level (level s + 1) s in
  let s2 := set_row_range (row_range s1 + 1) s1 in
  let s3 := set_paddle Paddle_init s2 in
  let b := mkBall (ball_rect Ball_init) (qmul (ball_dx Ball_init) speed_increase)
                  (qmul (ball_dy Ball_init) speed_increase) (trail Ball_init) in
  let s4 := set_ball b s3 in
  let s5 := set_default_ball_dx (ball_dx (ball s4)) s4 in
  let s6 := set_default_ball_dy (ball_dy (ball s5)) s5 in
  let s7 := set_fragments [] (set_particles [] s6) in
  let s8 := if row_range s7 >? 10 then set_row_range 10 s7 else s7 in
  let '(bs, g') := create_bricks (row_range s8) 10 (rng w) in
  let s9 := set_bricks bs s8 in
  let s10 := set_stage_bricks (len (bricks s9)) s9 in
  mkWorld (set_game_state GAME_RUNNING s10) (users w) g' (stdout w).

(** [BreakoutGame.reset_game] *)
Definition reset_game (s : BreakoutGame) : BreakoutGame :=
  let s1 := set_paddle Paddle_init s in
  let s2 := set_ball Ball_init s1 in
  let s3 := set_bricks plain_grid s2 in
  let s4 := set_fragments [] (set_particles [] s3) in
  let s5 := set_lives 3 (set_level 1 (set_score 0 s4)) in
  let s6 := set_stage_bricks (len (bricks s5)) s5 in
  set_game_state POST_LOGIN_MENU s6.

(** *** High score *)

Definition show_score (z : Z) : string := pretty z.

(** [BreakoutGame.update_high_score]: comparing the score with the [None]
    of an unknown user raises [TypeError]. *)
Definition update_high_score (w : World) : result World :=
  let s := self w in
  let '(current_high_score, out) := auth_get_high_score (current_user s) (users w) in
  let w1 := print out w in
  match current_high_score with
  | None => Raise TypeError
  | Some hs =>
      if score s >? hs then
        let '(users', out') := auth_update_high_score (current_user s) (score s) (users w1) in
        Ok (print ["New high score for " +:+ show_user (current_user s) +:+ ": "
                     +:+ show_score (score s)]
                  (print out' (with_users users' w1)))
      else Ok w1
  end.

(** *** One tick of the running game *)

(** Ball motion, wall bounce, paddle keys, star field and paddle bounce:
    the part of [update_game] before the bricks are looked at. *)
Definition step_motion (keys : Keys) (w : World) : World :=
  let s := self w in
  let '(b1, g1) := Ball_move (ball s) (rng w) in
  let b2 := Ball_check_collision_with_walls b1 in
  let pad1 := if pressed_LEFT keys then Paddle_move (-9) (paddle s) else paddle s in
  let pad2 := if pressed_RIGHT keys then Paddle_move 9 pad1 else pad1 in
  let '(stars', g2) := update_stars (stars s) g1 in
  let '(b3, parts, g3) := Ball_check_collision_with_paddle b2 pad2 (particles s) g2 in
  mkWorld (set_particles parts (set_ball b3 (set_stars stars' (set_paddle pad2 s))))
          (users w) g3 (stdout w).

Definition particle_expired (p : Particle) : bool :=
  (p_lifetime p <=? 0) || qle (p_size p) 0.

Definition fragment_expired (f : BrickFragment) : bool :=
  qle (f_width f) 0 || qle (f_height f) 0.

(** The two loops that age particles and fragments and drop the spent ones. *)
Definition step_effects (s : BreakoutGame) : BreakoutGame :=
  let ps := List.filter (fun p => negb (particle_expired p))
                        (map Particle_update (particles s)) in
  let fs := List.filter (fun f => negb (fragment_expired f))
                        (map BrickFragment_update (fragments s)) in
  set_fragments fs (set_particles ps s).

Definition step_score (s : BreakoutGame) : BreakoutGame :=
  if len (bricks s) <? stage_bricks s then scoring s else s.

Definition step_level (w : World) : World :=
  if len (bricks (self w)) =? 0 then level_up w else w.

(** A life is lost and the ball replaced while more than one life is left. *)
Definition step_life (s : BreakoutGame) : BreakoutGame :=
  if (bottom (ball_rect (ball s)) >=? 600) && (lives s >? 1)
  then set_ball Ball_init (set_lives (lives s - 1) s)
  else s.

(** With the last life the run is finalised. *)
Definition step_game_over (w : World) : result World :=
  if (bottom (ball_rect (ball (self w))) >=? 600) && (lives (self w) =? 1) then
    w1 ← update_high_score w;
    let '(hs, out) := auth_get_high_score (current_user (self w1)) (users w1) in
    Ok (with_self (set_game_state GAME_OVER)
                  (with_self (set_current_high_score hs) (print out w1)))
  else Ok w.

(** The loop over the snapshot [power_ups[:]]: the power-ups that stay and
    the game after the collected ones took effect.  A power-up that is both
    collected and below the screen is removed twice, and the second
    [list.remove] raises [ValueError]. *)
Fixpoint power_ups_pass (snapshot : list PowerUp) (now : Z) (s : BreakoutGame)
  : result (list PowerUp * BreakoutGame) :=
  match snapshot with
  | [] => Ok ([], s)
  | p :: rest =>
      let p' := PowerUp_move p in
      let collected := colliderect (pu_rect p') (paddle_rect (paddle s)) in
      let s1 := if collected then activate_power_up (pu_type p') now s else s in
      if top (pu_rect p') >=? 600 then
        if collected then Raise ValueError
        else power_ups_pass rest now s1
      else if collected then power_ups_pass rest now s1
      else
        r ← power_ups_pass rest now s1;
        Ok (p' :: fst r, snd r)
  end.

Definition step_power_ups (now : Z) (s : BreakoutGame) : result BreakoutGame :=
  r ← power_ups_pass (power_ups s) now s;
  Ok (set_power_ups (fst r) (snd r)).

Definition step_expiry (now : Z) (s : BreakoutGame) : BreakoutGame :=
  match active_power_up s with
  | Some _ =>
      if now - power_up_start_time s >? POWER_UP_DURATION
      then reset_power_ups s else s
  | None => s
  end.

(** [BreakoutGame.update_game]; [keys] is the pressed-key table and [now]
    the clock reading of this tick. *)
Definition update_game (keys : Keys) (now : Z) (w : World) : result World :=
  if decide (game_state (self w) = GAME_RUNNING) then
    let w1 := step_motion keys w in
    let w2 := check_collision_with_bricks w1 in
    let w3 := with_self step_effects w2 in
    let w4 := with_self step_score w3 in
    let w5 := step_level w4 in
    let w6 := with_self step_life w5 in
    w7 ← step_game_over w6;
    s8 ← step_power_ups now (self w7);
    Ok (mkWorld (step_expiry now s8) (users w7) (rng w7) (stdout w7))
  else Ok w.

(** *** Login and registration *)

Definition msg_empty : string := "Username and password cannot be empty.".

(** [BreakoutGame.register_user] *)
Definition register_user `{Hashlib} (w : World) : World :=
  let s := self w in
  let username := strip (tb_text (username_input s)) in
  let pw := strip (pb_text (password_input s)) in
  if truthy username && truthy pw then
    let '(users', out) := auth_register_user username pw (users w) in
    with_self (fun s => set_password_input (PassTextInputBox_reset (password_input s))
                          (set_username_input (TextInputBox_reset (username_input s)) s))
              (print out (with_users users' w))
  else print [msg_empty] w.

(** [BreakoutGame.login_user] *)
Definition login_user `{Hashlib} (w : World) : World :=
  let s := self w in
  let username := strip (tb_text (username_input s)) in
  let pw := strip (pb_text (password_input s)) in
  if truthy username && truthy pw then
    if auth_login_user username pw (users w) then
      let s1 := set_current_user (Some username) (set_logged_in true s) in
      let '(hs, out) := auth_get_high_score (current_user s1) (users w) in
      let s2 := set_current_high_score hs s1 in
      let shown := match hs with Some z => show_score z | None => "None" end in
      print ["Welcome back, " +:+ username +:+ "! Your high score is " +:+ shown +:+ "."]
            (print out (mkWorld (set_game_state POST_LOGIN_MENU s2)
                                (users w) (rng w) (stdout w)))
    else
      print ["Incorrect username or password."]
            (with_self (fun s => set_password_input
                                   (PassTextInputBox_reset (password_input s))
                                   (set_username_input
                                      (TextInputBox_reset (username_input s)) s)) w)
  else print [msg_empty] w.

(** *** Events *)

(** The part of [handle_events] that runs in the main menu. *)
Definition handle_main_menu `{Hashlib} (e : Event) (w : World) : World :=
  let s := self w in
  let '(ub, out1) := TextInputBox_handle_event (username_input s) e in
  let '(pb, out2) := PassTextInputBox_handle_event (password_input s) e in
  let '(lb, login_clicked) := Button_handle_event (login_button s) e in
  let s1 := set_login_button lb (set_password_input pb (set_username_input ub s)) in
  let w1 := print out2 (print out1 (mkWorld s1 (users w) (rng w) (stdout w))) in
  if login_clicked then login_user w1
  else
    let '(rb, register_clicked) := Button_handle_event (register_button s1) e in
    let w2 := with_self (set_register_button rb) w1 in
    if register_clicked then register_user w2 else w2.

Definition is_key (k : Key) (e : Event) : bool :=
  match e, k with
  | KEYDOWN K_RETURN _, K_RETURN => true
  | KEYDOWN K_p _, K_p => true
  | KEYDOWN K_r _, K_r => true
  | _, _ => false
  end.

(** The body of the loop of [handle_events] for one event.  The state tests
    follow one another, each reading the state the previous one left. *)
Definition handle_event `{Hashlib} (e : Event) (w : World) : result World :=
  match e with
  | QUIT => Raise SystemExit
  | _ =>
      let w1 :=
        match e with
        | WINDOWFOCUSLOST => with_self (set_focused false) w
        | WINDOWFOCUSGAINED => with_self (set_focused true) w
        | _ => w
        end in
      let w2 :=
        if decide (game_state (self w1) = MAIN_MENU) then handle_main_menu e w1 else w1 in
      let w3 :=
        if decide (game_state (self w2) = POST_LOGIN_MENU) then
          if is_key K_RETURN e then with_self (set_game_state GAME_RUNNING) w2 else w2
        else w2 in
      let w4 :=
        if decide (game_state (self w3) = GAME_RUNNING) then
          if is_key K_p e then with_self (set_game_state PAUSED) w3 else w3
        else w3 in
      let w5 :=
        if decide (game_state (self w4) = PAUSED) then
          if is_key K_RETURN e then with_self (set_game_state GAME_RUNNING) w4 else w4
        else w4 in
      let w6 :=
        if decide (game_state (self w5) = GAME_OVER) then
          if is_key K_r e then with_self reset_game w5 else w5
        else w5 in
      Ok w6
  end.

(** [BreakoutGame.handle_events] on the events of [pygame.event.get()]. *)
Fixpoint handle_events `{Hashlib} (events : list Event) (w : World) : result World :=
  match events with
  | [] => Ok w
  | e :: es => w' ← handle_event e w; handle_events es w'
  end.

(** *** Drawing *)

Fixpoint draw_bricks (l : list Brick) (g : Rng) : list Brick * Rng :=
  match l with
  | [] => ([], g)
  | b :: l' =>
      let '(b', g1) := Brick_draw b g in
      let '(l'', g2) := draw_bricks l' g1 in
      (b' :: l'', g2)
  end.

(** [BreakoutGame.draw_game_running]: of everything drawn, the ball (its
    trail) and the bricks (their animation) change while being drawn. *)
Definition draw_game_running (w : World) : World :=
  let s := self w in
  let s1 := set_ball (Ball_draw (ball s)) s in
  let '(bs, g') := draw_bricks (bricks s1) (rng w) in
  mkWorld (set_bricks bs s1) (users w) g' (stdout w).

(** [BreakoutGame.draw_main_menu] places the widgets before drawing them. *)
Definition draw_main_menu (s : BreakoutGame) : BreakoutGame :=
  let s1 := set_username_input
              (mkTextInputBox (set_topleft 400 230 (tb_rect (username_input s)))
                              (tb_text (username_input s))
                              (tb_active (username_input s))) s in
  let s2 := set_password_input
              (mkPassTextInputBox (set_topleft 400 330 (pb_rect (password_input s1)))
                                  (pb_text (password_input s1))
                                  (pb_masked_text (password_input s1))
                                  (pb_active (password_input s1))) s1 in
  let s3 := set_login_button
              (mkButton (set_topleft 300 450 (btn_rect (login_button s2)))
                        (btn_text (login_button s2))
                        (btn_hovered (login_button s2))) s2 in
  set_register_button
    (mkButton (set_topleft 500 450 (btn_rect (register_button s3)))
              (btn_text (register_button s3))
              (btn_hovered (register_button s3))) s3.

(** [BreakoutGame.draw_game]; the other three screens only render. *)
Definition draw_game (w : World) : World :=
  match game_state (self w) with
  | MAIN_MENU => with_self draw_main_menu w
  | GAME_RUNNING => draw_game_running w
  | POST_LOGIN_MENU | PAUSED | GAME_OVER => w
  end.

(** *** The main loop *)

(** One iteration of the loop of [BreakoutGame.run]: the events, the update
    when the window has the focus, the drawing in any case. *)
Definition run_iteration `{Hashlib}
    (events : list Event) (keys : Keys) (now : Z) (w : World) : result World :=
  w1 ← handle_events events w;
  w2 ← (if focused (self w1) then
          if decide (game_state (self w1) = GAME_RUNNING)
          then update_game keys now w1
          else Ok w1
        else Ok w1);
  Ok (draw_game w2).

(** [BreakoutGame.__init__]; [loaded] is the dictionary read from the users
    file. *)
Definition BreakoutGame_init (loaded : Users) (g : Rng) : World :=
  let paddle0 := Paddle_init in
  let ball0 := Ball_init in
  let '(bricks0, g1) := create_bricks 5 10 g in
  let '(stars0, g2) := make_stars 100 g1 in
  mkWorld
    (mkBreakoutGame paddle0 ball0 (ball_dx ball0) (ball_dx ball0) 5 bricks0 [] []
       stars0 1 0 (Some 0) 3 (len bricks0) None [] 0 (rw (paddle_rect paddle0))
       MAIN_MENU false None true
       (TextInputBox_init 300 250 200 50) (PassTextInputBox_init 300 350 200 50)
       (Button_init 300 450 200 50 "Login") (Button_init 300 520 200 50 "Register"))
    loaded g2 [].

(** * Properties *)

(** ** The paddle and its bounds *)

Definition screen_width : Z := 800.

(** The left edge lies within [0, screen_width - paddle_width]. *)
Definition paddle_in_bounds (p : Paddle) : Prop :=
  0 <= left (paddle_rect p) <= screen_width - rw (paddle_rect p).

(** The initial game, no user file and an exhausted generator. *)
Definition game0 : BreakoutGame := self (BreakoutGame_init ∅ []).

Lemma Paddle_move_width (dx : Z) (p : Paddle) :
  rw (paddle_rect (Paddle_move dx p)) = rw (paddle_rect p).
Proof. unfold Paddle_move. destruct (_ && _); reflexivity. Qed.

Lemma Paddle_move_row (dx : Z) (p : Paddle) :
  ry (paddle_rect (Paddle_move dx p)) = ry (paddle_rect p)
  /\ rh (paddle_rect (Paddle_move dx p)) = rh (paddle_rect p).
Proof. unfold Paddle_move. destruct (_ && _); simpl; lia. Qed.

(** With the width the paddle is created with, no move leaves the screen. *)
Lemma Paddle_move_default_width (dx : Z) (p : Paddle) :
  rw (paddle_rect p) = 100 ->
  paddle_in_bounds p -> paddle_in_bounds (Paddle_move dx p).
Proof.
  unfold paddle_in_bounds, Paddle_move, screen_width, left.
  intros Hw Hb.
  destruct (0 <? rx (paddle_rect p) + dx) eqn:Hlo; simpl; [|lia].
  destruct (rx (paddle_rect p) + dx <? 800 - 100) eqn:Hhi; simpl; lia.
Qed.

(** The paddle after the right arrow was held for 33 ticks. *)
Definition paddle_at_647 : Paddle := Nat.iter 33 (Paddle_move 9) Paddle_init.

(** C1 (defect): the bound tested by [Paddle.move] is [800 - 100] whatever
    the width.  A paddle widened to 150 by [increase_paddle_size] and
    standing in bounds at x = 647 is moved to x = 656 by [move(9)], beyond
    [800 - 150], so that its right edge is at 806. *)
Theorem Paddle_move_wide_leaves_bounds :
  let s := activate_power_up increase_paddle_size 0 (set_paddle paddle_at_647 game0) in
  rw (paddle_rect (paddle s)) = 150
  /\ paddle_in_bounds (paddle s)
  /\ left (paddle_rect (Paddle_move 9 (paddle s))) = 656
  /\ right (paddle_rect (Paddle_move 9 (paddle s))) = 806
  /\ ~ paddle_in_bounds (Paddle_move 9 (paddle s)).
Proof.
  vm_compute. repeat split; try discriminate.
  intros [_ H]. apply H. reflexivity.
Qed.

(** ** Expiry of a power-up *)

Lemma qmul_correct (a b : Q) : qmul a b == a * b.
Proof. unfold qmul. apply Qred_correct. Qed.

Lemma qgt_spec (a b : Q) : qgt a b = true <-> (b < a)%Q.
Proof.
  unfold qgt, qlt. rewrite negb_true_iff.
  split; intros H.
  - apply Qnot_le_lt. intros Hle. apply Qle_bool_iff in Hle. congruence.
  - destruct (Qle_bool a b) eqn:E; [|reflexivity].
    apply Qle_bool_iff in E. exfalso. exact (Qlt_not_le _ _ H E).
Qed.

(** What [reset_power_ups] writes into the ball when [slow_ball] is the
    active power-up: the stored default, negated unless the current
    component is positive. *)
Lemma reset_power_ups_slow_ball (s : BreakoutGame) :
  active_power_up s = Some slow_ball ->
  let s' := reset_power_ups s in
  active_power_up s' = None
  /\ ball_dx (ball s') == (if qgt (ball_dx (ball s)) 0
                           then default_ball_dx s else - default_ball_dx s)
  /\ ball_dy (ball s') == (if qgt (ball_dy (ball s)) 0
                           then default_ball_dy s else - default_ball_dy s).
Proof.
  intros Ha. unfold reset_power_ups. rewrite Ha. simpl.
  split; [reflexivity|].
  split; rewrite qmul_correct;
    match goal with |- context [qgt ?x 0] => destruct (qgt x 0) end; ring.
Qed.

(** While both stored defaults are positive, as they are from [__init__]
    until the first level-up, the expiry of [slow_ball] keeps the direction
    of the ball on each axis and restores the default magnitude. *)
Lemma reset_power_ups_slow_ball_positive_defaults (s : BreakoutGame) :
  active_power_up s = Some slow_ball ->
  (0 < default_ball_dx s)%Q -> (0 < default_ball_dy s)%Q ->
  ~ ball_dx (ball s) == 0 -> ~ ball_dy (ball s) == 0 ->
  let s' := reset_power_ups s in
  Qabs (ball_dx (ball s')) == default_ball_dx s
  /\ Qabs (ball_dy (ball s')) == default_ball_dy s
  /\ ((0 < ball_dx (ball s))%Q <-> (0 < ball_dx (ball s'))%Q)
  /\ ((0 < ball_dy (ball s))%Q <-> (0 < ball_dy (ball s'))%Q).
Proof.
  intros Ha Hdx Hdy Hx Hy.
  destruct (reset_power_ups_slow_ball s Ha) as (_ & Ex & Ey).
  cbv zeta in *.
  assert (Hsign : forall v d r : Q,
             (0 < d)%Q -> ~ v == 0 ->
             r == (if qgt v 0 then d else - d) ->
             Qabs r == d /\ ((0 < v)%Q <-> (0 < r)%Q)).
  { intros v d r Hd Hv Er. rewrite Er.
    destruct (qgt v 0) eqn:E.
    - apply qgt_spec in E. split.
      + apply Qabs_pos. apply Qlt_le_weak. exact Hd.
      + tauto.
    - split.
      + rewrite Qabs_opp. apply Qabs_pos. apply Qlt_le_weak. exact Hd.
      + split; intros H.
        * apply qgt_spec in H. congruence.
        * exfalso. lra. }
  destruct (Hsign _ _ _ Hdx Hx Ex) as [A1 A2].
  destruct (Hsign _ _ _ Hdy Hy Ey) as [B1 B2].
  tauto.
Qed.

(** The example of level 1: defaults (5, 5), ball slowed to (3.5, 3.5),
    reverted to (5, 5) once more than 5000 ms have passed. *)
Example slow_ball_expiry_level1 :
  let s := set_ball (mkBall (ball_rect Ball_init) 5 5 []) game0 in
  let s1 := activate_power_up slow_ball 0 s in
  let s2 := step_expiry 5001 s1 in
  (default_ball_dx s, default_ball_dy s) = (5%Q, 5%Q)
  /\ (ball_dx (ball s1), ball_dy (ball s1)) = (7#2, 7#2)
  /\ (ball_dx (ball s2), ball_dy (ball s2)) = (5%Q, 5%Q)
  /\ active_power_up s2 = None.
Proof. vm_compute. repeat split. Qed.

(** The world after the first level-up of a new game. *)
Definition world_level2 : World := level_up (BreakoutGame_init ∅ []).

(** C2 (defect): [level_up] stores the signed velocity of the fresh ball,
    (5.5, -5.5), as the default, so from level 2 on the vertical default is
    negative and the expiry of [slow_ball] inverts the vertical direction.
    Here the ball moves up and to the right at (3.85, -3.85) when the
    effect expires, and leaves the expiry moving down at (5.5, 5.5). *)
Theorem slow_ball_expiry_level2_flips_dy :
  let s := activate_power_up slow_ball 0 (self world_level2) in
  let s' := step_expiry 5001 s in
  level s = 2
  /\ active_power_up s = Some slow_ball
  /\ (default_ball_dx s, default_ball_dy s) = (11#2, -(11#2))%Q
  /\ (ball_dx (ball s), ball_dy (ball s)) = (77#20, -(77#20))%Q
  /\ active_power_up s' = None
  /\ (ball_dx (ball s'), ball_dy (ball s')) = (11#2, 11#2)%Q.
Proof. vm_compute. repeat split. Qed.

(** ** The baseline when no power-up is active *)

(** With no active power-up the paddle has its default width and the ball
    its default speed on both axes. *)
Definition at_baseline (s : BreakoutGame) : Prop :=
  active_power_up s = None ->
  rw (paddle_rect (paddle s)) = paddle_width_default s
  /\ Qabs (ball_dx (ball s)) == Qabs (default_ball_dx s)
  /\ Qabs (ball_dy (ball s)) == Qabs (default_ball_dy s).

Lemma game0_at_baseline : at_baseline game0.
Proof. intros _. vm_compute. repeat split. Qed.

(** C3 (defect): [activate_power_up] overwrites the record of the active
    power-up without undoing its effect, and [reset_power_ups] only undoes
    the effect it finds recorded.  A new game that collects
    [increase_paddle_size] and then [extra_life] is left, after the expiry,
    with no active power-up and a paddle of width 150 instead of 100. *)
Theorem superseded_power_up_never_reverts :
  let s1 := activate_power_up increase_paddle_size 0 game0 in
  let s2 := activate_power_up extra_life 1000 s1 in
  let s3 := step_expiry 6001 s2 in
  at_baseline game0
  /\ active_power_up s3 = None
  /\ paddle_width_default s3 = 100
  /\ rw (paddle_rect (paddle s3)) = 150
  /\ ~ at_baseline s3.
Proof.
  split; [exact game0_at_baseline|].
  split; [reflexivity|]. split; [reflexivity|]. split; [reflexivity|].
  intros H. destruct (H eq_refl) as [Hw _]. vm_compute in Hw. discriminate.
Qed.

(** Nor is the baseline kept when a life is lost from level 2 on: the new
    ball has the speed of level 1, not the default of the level. *)
Example life_lost_on_level2_resets_speed :
  let s := set_ball (mkBall (mkRect 390 590 20 20) (11#2) (11#2) []) (self world_level2) in
  let s' := step_life s in
  lives s' = 2 /\ active_power_up s' = None
  /\ (ball_dx (ball s'), ball_dy (ball s')) = (5%Q, (-(5#1))%Q)
  /\ (default_ball_dx s', default_ball_dy s') = (11#2, -(11#2))%Q.
Proof. vm_compute. repeat split. Qed.

(** ** The brick grid and the level-up *)

Lemma range_length (n : Z) : length (range n) = Z.to_nat n.
Proof. unfold range. rewrite length_map, length_seq. reflexivity. Qed.

Lemma create_row_length (row : Z) (cols : list Z) (g : Rng) :
  length (fst (create_row row cols g)) = length cols.
Proof.
  revert g. induction cols as [|col cols IH]; intros g; simpl; [reflexivity|].
  destruct (create_brick row col g) as [b g1].
  specialize (IH g1). destruct (create_row row cols g1) as [bs g2].
  simpl in *. congruence.
Qed.

Lemma create_rows_length (rows cols : list Z) (g : Rng) :
  length (fst (create_rows rows cols g)) = (length rows * length cols)%nat.
Proof.
  revert g. induction rows as [|row rows IH]; intros g; simpl; [reflexivity|].
  pose proof (create_row_length row cols g) as Hr.
  destruct (create_row row cols g) as [bs g1].
  specialize (IH g1). destruct (create_rows rows cols g1) as [bss g2].
  simpl in *. rewrite length_app. congruence.
Qed.

(** A grid of [rows] by [cols] has [rows * cols] bricks, whatever the
    random source assigns as power-ups. *)
Lemma create_bricks_len (rows cols : Z) (g : Rng) :
  0 <= rows -> 0 <= cols ->
  len (fst (create_bricks rows cols g)) = rows * cols.
Proof.
  intros Hr Hc. unfold len, create_bricks.
  rewrite create_rows_length, !range_length. lia.
Qed.

(** What [level_up] leaves behind. *)
Lemma level_up_spec (w : World) :
  0 <= row_range (self w) ->
  let s' := self (level_up w) in
  level s' = level (self w) + 1
  /\ row_range s' = Z.min (row_range (self w) + 1) 10
  /\ len (bricks s') = row_range s' * 10
  /\ stage_bricks s' = len (bricks s')
  /\ (ball_dx (ball s'), ball_dy (ball s')) = (11#2, -(11#2))%Q
  /\ (default_ball_dx s', default_ball_dy s') = (11#2, -(11#2))%Q
  /\ ball_rect (ball s') = ball_rect Ball_init
  /\ paddle s' = Paddle_init
  /\ game_state s' = GAME_RUNNING.
Proof.
  intros Hr. unfold level_up.
  match goal with
  | |- context [create_bricks ?r ?c ?g] =>
      pose proof (create_bricks_len r c g) as Hlen;
      destruct (create_bricks r c g) as [bs g'] eqn:E
  end.
  cbn [self]. simpl in Hlen |- *.
  destruct (row_range (self w) + 1 >? 10) eqn:Hcap; simpl in *.
  - repeat split; try reflexivity; try lia; rewrite Hlen; lia.
  - repeat split; try reflexivity; try lia; rewrite Hlen; lia.
Qed.

(** In a new game the first level-up gives level 2, six rows and sixty
    bricks. *)
Example first_level_up_new_game (g : Rng) :
  let w := BreakoutGame_init ∅ g in
  let s' := self (step_level (with_self (set_bricks []) w)) in
  level s' = 2 /\ row_range s' = 6 /\ len (bricks s') = 60
  /\ game_state s' = GAME_RUNNING.
Proof.
  unfold BreakoutGame_init.
  destruct (create_bricks 5 10 g) as [b0 g1].
  destruct (make_stars 100 g1) as [st g2].
  cbv zeta. unfold step_level.
  set (W := with_self (set_bricks []) _).
  change (len (bricks (self W)) =? 0) with true. cbv iota.
  assert (Hr : row_range (self W) = 5) by reflexivity.
  assert (Hl : level (self W) = 1) by reflexivity.
  destruct (level_up_spec W) as (H1 & H2 & H3 & _ & _ & _ & _ & _ & H9); [lia|].
  rewrite H1, H3, H2, H9, Hr, Hl. repeat split.
Qed.

(** The session played after a game over that was reached on level 2. *)
Definition world_restarted : World :=
  with_self reset_game (with_self (set_game_state GAME_OVER) world_level2).

(** C5 (defect): [reset_game] puts the level back to 1 and rebuilds the
    5 x 10 grid but leaves [row_range] as the last session left it.  In a
    session restarted after a game over on level 2, clearing the bricks of
    level 1 gives level 2 with seven rows and seventy bricks, not six rows
    and sixty bricks. *)
Theorem level_up_after_restart_keeps_row_range :
  let w := world_restarted in
  let s' := self (step_level (with_self (set_bricks []) w)) in
  level (self w) = 1
  /\ len (bricks (self w)) = 50
  /\ row_range (self w) = 6
  /\ level s' = 2
  /\ row_range s' = 7
  /\ len (bricks s') = 70
  /\ (ball_dx (ball s'), ball_dy (ball s')) = (11#2, -(11#2))%Q
  /\ game_state s' = GAME_RUNNING.
Proof. vm_compute. repeat split. Qed.

(** ** The collision pass over the bricks *)

Lemma random_randint_bounds (a b : Z) (g : Rng) :
  a <= b -> a <= fst (random_randint a b g) <= b.
Proof.
  intros Hab. unfold random_randint. destruct (draw g) as [r g']. simpl.
  pose proof (Z.mod_pos_bound r (b - a + 1)). lia.
Qed.

Definition particle_pos (p : Particle) : Q * Q := (p_x p, p_y p).
Definition fragment_origin (f : BrickFragment) : Q * Q := (f_x f, f_y f).

Lemma Particle_init_pos (x y : Z) (g : Rng) :
  particle_pos (fst (Particle_init x y g)) = (Zq x, Zq y).
Proof.
  unfold Particle_init.
  repeat match goal with
         | |- context [let '(_, _) := ?e in _] => destruct e
         end.
  reflexivity.
Qed.

Lemma spawn_particles_pos (n : nat) (x y : Z) (g : Rng) :
  map particle_pos (fst (spawn_particles n x y g)) = repeat (Zq x, Zq y) n.
Proof.
  revert g. induction n as [|n IH]; intros g; simpl; [reflexivity|].
  pose proof (Particle_init_pos x y g) as Hp.
  destruct (Particle_init x y g) as [p g1].
  specialize (IH g1). destruct (spawn_particles n x y g1) as [ps g2].
  simpl in *. congruence.
Qed.

Lemma break_into_fragments_origin (b : Brick) (g : Rng) :
  fragment_origin (fst (break_into_fragments b g))
  = (Zq (rx (brick_rect b)), Zq (ry (brick_rect b))).
Proof.
  unfold break_into_fragments, BrickFragment_init.
  repeat match goal with
         | |- context [let '(_, _) := ?e in _] => destruct e
         end.
  reflexivity.
Qed.

Lemma spawn_fragments_origin (n : nat) (b : Brick) (g : Rng) :
  map fragment_origin (fst (spawn_fragments n b g))
  = repeat (Zq (rx (brick_rect b)), Zq (ry (brick_rect b))) n.
Proof.
  revert g. induction n as [|n IH]; intros g; simpl; [reflexivity|].
  pose proof (break_into_fragments_origin b g) as Hf.
  destruct (break_into_fragments b g) as [f g1].
  specialize (IH g1). destruct (spawn_fragments n b g1) as [fs g2].
  simpl in *. congruence.
Qed.

(** The ball's rectangle overlaps the brick's. *)
Definition hits_ball (b : Ball) (brick : Brick) : bool :=
  colliderect (ball_rect b) (brick_rect brick).

(** The power-up a destroyed brick drops, if it carries one. *)
Definition dropped_power_up (brick : Brick) : list PowerUp :=
  match power_up_type brick with
  | Some t => [PowerUp_init (rx (brick_rect brick) + 25) (ry (brick_rect brick)) t]
  | None => []
  end.

(** The ball after [n] bounces off bricks. *)
Definition bounce (n : nat) (b : Ball) : Ball :=
  mkBall (ball_rect b) (ball_dx b) (Nat.iter n qneg (ball_dy b)) (trail b).

Definition brick_center (brick : Brick) : Q * Q :=
  (Zq (centerx (brick_rect brick)), Zq (centery (brick_rect brick))).

Definition brick_origin (brick : Brick) : Q * Q :=
  (Zq (rx (brick_rect brick)), Zq (ry (brick_rect brick))).

(** The new particles lie, ten per brick, at the centres of the bricks. *)
Definition particles_of (hs : list Brick) (ps : list Particle) : Prop :=
  map particle_pos ps = flat_map (fun brick => repeat (brick_center brick) 10) hs.

(** The new fragments come, [counts] per brick and each count between four
    and ten, from the corners of the bricks. *)
Definition fragments_of (hs : list Brick) (counts : list nat) (fs : list BrickFragment)
  : Prop :=
  length counts = length hs
  /\ Forall (fun n => 4 <= n <= 10)%nat counts
  /\ map fragment_origin fs
     = flat_map (fun bn => repeat (brick_origin (fst bn)) (snd bn)) (combine hs counts).

(** [w'] is [w] after the bricks [hs] were hit one after the other. *)
Definition pass_effect (hs : list Brick) (w w' : World) : Prop :=
  users w' = users w /\ stdout w' = stdout w
  /\ exists ps counts fs,
      self w' =
        set_fragments (fragments (self w) ++ fs)
          (set_particles (particles (self w) ++ ps)
             (set_power_ups (power_ups (self w) ++ flat_map dropped_power_up hs)
                (set_ball (bounce (length hs) (ball (self w))) (self w))))
      /\ particles_of hs ps
      /\ fragments_of hs counts fs.

Lemma pass_effect_nil (w : World) : pass_effect [] w w.
Proof.
  split; [reflexivity|]. split; [reflexivity|].
  exists [], [], []. split.
  - destruct w as [s u g o]. destruct s. destruct ball0.
    simpl. rewrite !app_nil_r. reflexivity.
  - split; [reflexivity|]. split; [reflexivity|]. split; [constructor|reflexivity].
Qed.

Lemma pass_effect_hit (brick : Brick) (w : World) :
  pass_effect [brick] w (hit_brick brick w).
Proof.
  unfold hit_brick.
  pose proof (spawn_particles_pos 10 (centerx (brick_rect brick))
                (centery (brick_rect brick)) (rng w)) as Hps.
  destruct (spawn_particles 10 _ _ (rng w)) as [ps g1].
  pose proof (random_randint_bounds 4 10 g1 ltac:(lia)) as Hn.
  destruct (random_randint 4 10 g1) as [n g2].
  pose proof (spawn_fragments_origin (Z.to_nat n) brick g2) as Hfs.
  destruct (spawn_fragments (Z.to_nat n) brick g2) as [fs g3].
  simpl in Hps, Hn, Hfs.
  split; [reflexivity|]. split; [reflexivity|].
  exists ps, [Z.to_nat n], fs. split.
  - unfold dropped_power_up. simpl.
    destruct (power_up_type brick); simpl; rewrite ?app_nil_r; reflexivity.
  - split.
    + unfold particles_of. simpl. rewrite ?app_nil_r. exact Hps.
    + split; [reflexivity|]. split.
      * constructor; [lia|constructor].
      * simpl. rewrite ?app_nil_r. exact Hfs.
Qed.

Lemma combine_app_same {A B : Type} (l1 l2 : list A) (k1 k2 : list B) :
  length k1 = length l1 ->
  combine (l1 ++ l2) (k1 ++ k2) = combine l1 k1 ++ combine l2 k2.
Proof.
  revert k1. induction l1 as [|a l1 IH]; intros [|b k1] Hlen;
    simpl in *; try discriminate; [reflexivity|].
  f_equal. apply IH. congruence.
Qed.

Lemma bounce_bounce (n m : nat) (b : Ball) :
  bounce m (bounce n b) = bounce (n + m) b.
Proof.
  unfold bounce. simpl. f_equal.
  rewrite Nat.add_comm. symmetry. apply Nat.iter_add.
Qed.

Lemma pass_effect_trans (h1 h2 : list Brick) (w w1 w2 : World) :
  pass_effect h1 w w1 -> pass_effect h2 w1 w2 -> pass_effect (h1 ++ h2) w w2.
Proof.
  intros (U1 & O1 & ps1 & c1 & fs1 & E1 & P1 & L1 & F1 & G1)
         (U2 & O2 & ps2 & c2 & fs2 & E2 & P2 & L2 & F2 & G2).
  split; [congruence|]. split; [congruence|].
  exists (ps1 ++ ps2), (c1 ++ c2), (fs1 ++ fs2). split.
  - rewrite E2, E1. destruct (self w). simpl.
    rewrite bounce_bounce, flat_map_app, length_app, <- !app_assoc.
    reflexivity.
  - split.
    + unfold particles_of in *. rewrite map_app, flat_map_app. congruence.
    + split; [rewrite !length_app; congruence|]. split.
      * apply Forall_app. split; assumption.
      * rewrite map_app, combine_app_same, flat_map_app by exact L1. congruence.
Qed.

Lemma pass_effect_ball_rect (hs : list Brick) (w w' : World) :
  pass_effect hs w w' -> ball_rect (ball (self w')) = ball_rect (ball (self w)).
Proof.
  intros (_ & _ & ps & c & fs & E & _). rewrite E. reflexivity.
Qed.

(** The loop keeps the bricks the ball does not overlap and hits the
    others, in the order of the list. *)
Lemma bricks_pass_spec (l : list Brick) (w : World) :
  fst (bricks_pass l w)
  = List.filter (fun brick => negb (hits_ball (ball (self w)) brick)) l
  /\ pass_effect (List.filter (hits_ball (ball (self w))) l) w (snd (bricks_pass l w)).
Proof.
  revert w. induction l as [|brick rest IH]; intros w; simpl.
  - split; [reflexivity|apply pass_effect_nil].
  - assert (Hb : hits_ball (ball (self w)) brick
                 = colliderect (ball_rect (ball (self w))) (brick_rect brick))
      by reflexivity.
    destruct (colliderect (ball_rect (ball (self w))) (brick_rect brick)) eqn:Hc;
      rewrite Hb; simpl.
    + pose proof (pass_effect_hit brick w) as Hhit.
      pose proof (pass_effect_ball_rect _ _ _ Hhit) as Hrect.
      destruct (IH (hit_brick brick w)) as [Hk He].
      unfold hits_ball in Hk, He. rewrite Hrect in Hk, He.
      split; [exact Hk|].
      exact (pass_effect_trans [brick] _ _ _ _ Hhit He).
    + destruct (IH w) as [Hk He].
      destruct (bricks_pass rest w) as [kept w']. simpl in *.
      split; [congruence|exact He].
Qed.

(** C6: in the collision pass, every brick whose rectangle overlaps the
    ball's negates the ball's vertical velocity once (so [k] hits negate it
    [k] times), is removed from the list, drops a power-up of its own tag
    at (brick.x + 25, brick.y) exactly when it carries a tag, gives ten
    particles at its centre and between four and ten fragments; nothing
    else of the ball, the bricks and the power-ups changes. *)
Theorem check_collision_with_bricks_spec (w : World) :
  let b := ball (self w) in
  let hs := List.filter (hits_ball b) (bricks (self w)) in
  let s' := self (check_collision_with_bricks w) in
  ball s' = bounce (length hs) b
  /\ bricks s' = List.filter (fun brick => negb (hits_ball b brick)) (bricks (self w))
  /\ power_ups s' = power_ups (self w) ++ flat_map dropped_power_up hs
  /\ exists ps counts fs,
      particles s' = particles (self w) ++ ps
      /\ particles_of hs ps
      /\ fragments s' = fragments (self w) ++ fs
      /\ fragments_of hs counts fs.
Proof.
  cbv zeta. unfold check_collision_with_bricks.
  destruct (bricks_pass_spec (bricks (self w)) w) as [Hk He].
  destruct (bricks_pass (bricks (self w)) w) as [kept w']. simpl in Hk, He.
  destruct He as (_ & _ & ps & counts & fs & E & Hp & Hf).
  unfold with_self. cbn [self]. rewrite E. cbn.
  split; [reflexivity|]. split; [exact Hk|]. split; [reflexivity|].
  exists ps, counts, fs. auto.
Qed.

(** Two bricks hit in the same tick: the vertical velocity is negated
    twice, both bricks go, and only the tagged one drops a power-up. *)
Example two_bricks_one_tick :
  let tagged := set_power_up_type (Some extra_life) (Brick_init 380 280) in
  let w := with_self (set_bricks [tagged; Brick_init 400 295; Brick_init 10 10])
                     (BreakoutGame_init ∅ []) in
  let s' := self (check_collision_with_bricks w) in
  ball_dy (ball s') = ball_dy (ball (self w))
  /\ bricks s' = [Brick_init 10 10]
  /\ power_ups s' = [PowerUp_init 405 280 extra_life]
  /\ length (particles s') = 20%nat
  /\ length (fragments s') = 8%nat.
Proof. vm_compute. repeat split. Qed.

(** ** The parts of a tick *)

Ltac destruct_lets :=
  repeat match goal with
         | |- context [let '(_, _) := ?e in _] => destruct e eqn:?
         end.

(** The fields of the game that the motion, the effects and the power-ups
    never write. *)
Definition board (s : BreakoutGame) :=
  (bricks s, score s, level s, stage_bricks s, row_range s, current_user s).

(** The paddle stays on its row. *)
Definition paddle_row (p : Paddle) : Prop :=
  ry (paddle_rect p) = 580 /\ rh (paddle_rect p) = 10.

Lemma Ball_move_rect (b : Ball) (g : Rng) :
  ball_rect (fst (Ball_move b g))
  = move_ip (int_of_float (ball_dx b)) (int_of_float (ball_dy b)) (ball_rect b).
Proof. unfold Ball_move. destruct_lets. reflexivity. Qed.

Lemma Ball_check_collision_with_paddle_rect b pad ps g :
  ball_rect (fst (fst (Ball_check_collision_with_paddle b pad ps g))) = ball_rect b.
Proof.
  unfold Ball_check_collision_with_paddle.
  destruct (colliderect _ _); destruct_lets; reflexivity.
Qed.

(** [step_motion] writes the ball, the paddle, the stars and the particles.
    The ball's rectangle moves by the truncated velocity and the paddle
    keeps its row. *)
Lemma step_motion_effect (keys : Keys) (w : World) :
  exists b' pad' stars' parts' g',
    step_motion keys w
    = mkWorld (set_particles parts'
                 (set_ball b' (set_stars stars' (set_paddle pad' (self w)))))
              (users w) g' (stdout w)
    /\ ball_rect b'
       = move_ip (int_of_float (ball_dx (ball (self w))))
                 (int_of_float (ball_dy (ball (self w))))
                 (ball_rect (ball (self w)))
    /\ ry (paddle_rect pad') = ry (paddle_rect (paddle (self w)))
    /\ rh (paddle_rect pad') = rh (paddle_rect (paddle (self w))).
Proof.
  unfold step_motion.
  pose proof (Ball_move_rect (ball (self w)) (rng w)) as Hm.
  destruct (Ball_move (ball (self w)) (rng w)) as [b1 g1]. simpl in Hm.
  destruct (update_stars (stars (self w)) g1) as [stars' g2].
  match goal with
  | |- context [Ball_check_collision_with_paddle ?b ?p ?ps ?g] =>
      pose proof (Ball_check_collision_with_paddle_rect b p ps g) as Hc;
      destruct (Ball_check_collision_with_paddle b p ps g) as [[b3 parts] g3];
      exists b3, p, stars', parts, g3
  end.
  simpl in Hc. split; [reflexivity|]. split; [rewrite Hc; exact Hm|].
  destruct (pressed_LEFT keys), (pressed_RIGHT keys);
    repeat (match goal with
            | |- context [Paddle_move ?d ?p] =>
                destruct (Paddle_move_row d p) as [-> ->]
            end); split; reflexivity.
Qed.

(** The collision pass as one assignment to the game. *)
Lemma check_collision_with_bricks_effect (w : World) :
  let b := ball (self w) in
  let hs := List.filter (hits_ball b) (bricks (self w)) in
  exists ps counts fs g',
    check_collision_with_bricks w
    = mkWorld
        (set_bricks (List.filter (fun brick => negb (hits_ball b brick)) (bricks (self w)))
           (set_fragments (fragments (self w) ++ fs)
              (set_particles (particles (self w) ++ ps)
                 (set_power_ups (power_ups (self w) ++ flat_map dropped_power_up hs)
                    (set_ball (bounce (length hs) b) (self w))))))
        (users w) g' (stdout w)
    /\ particles_of hs ps
    /\ fragments_of hs counts fs.
Proof.
  cbv zeta. unfold check_collision_with_bricks.
  destruct (bricks_pass_spec (bricks (self w)) w) as [Hk He].
  destruct (bricks_pass (bricks (self w)) w) as [kept w']. simpl in Hk, He.
  destruct He as (Hu & Ho & ps & counts & fs & E & Hp & Hf).
  exists ps, counts, fs, (rng w'). split; [|split; assumption].
  unfold with_self. rewrite E, Hu, Ho, Hk. reflexivity.
Qed.

(** Every falling power-up is a 20 pixel high box. *)
Definition boxed (l : list PowerUp) : Prop :=
  Forall (fun p => rh (pu_rect p) = 20) l.

Lemma activate_power_up_frame (t : PowerUpType) (now : Z) (s : BreakoutGame) :
  let s' := activate_power_up t now s in
  board s' = board s
  /\ game_state s' = game_state s
  /\ ball_rect (ball s') = ball_rect (ball s)
  /\ (paddle_row (paddle s) -> paddle_row (paddle s'))
  /\ active_power_up s' = Some t.
Proof.
  unfold activate_power_up, paddle_row. destruct t; simpl; tauto.
Qed.

Lemma reset_power_ups_frame (s : BreakoutGame) :
  let s' := reset_power_ups s in
  board s' = board s
  /\ game_state s' = game_state s
  /\ lives s' = lives s
  /\ power_ups s' = power_ups s
  /\ ball_rect (ball s') = ball_rect (ball s)
  /\ (paddle_row (paddle s) -> paddle_row (paddle s'))
  /\ active_power_up s' = None.
Proof.
  unfold reset_power_ups, paddle_row.
  destruct (active_power_up s) as [[ | | ]|]; simpl; tauto.
Qed.

Lemma step_expiry_frame (now : Z) (s : BreakoutGame) :
  let s' := step_expiry now s in
  board s' = board s
  /\ game_state s' = game_state s
  /\ lives s' = lives s
  /\ power_ups s' = power_ups s
  /\ ball_rect (ball s') = ball_rect (ball s)
  /\ (paddle_row (paddle s) -> paddle_row (paddle s')).
Proof.
  unfold step_expiry.
  destruct (active_power_up s); [|tauto].
  destruct (now - power_up_start_time s >? POWER_UP_DURATION); [|tauto].
  pose proof (reset_power_ups_frame s). cbv zeta in *. tauto.
Qed.

(** A power-up that touches the paddle is above the bottom of the screen,
    so it is never removed twice. *)
Lemma collected_above_bottom (p : PowerUp) (pad : Paddle) :
  rh (pu_rect p) = 20 -> paddle_row pad ->
  colliderect (pu_rect p) (paddle_rect pad) = true ->
  (top (pu_rect p) >=? 600) = false.
Proof.
  unfold colliderect, paddle_row, top. intros Hh [Hy Hp] Hc.
  match type of Hc with
  | context [if ?c then _ else _] => destruct c; [discriminate|]
  end.
  apply andb_prop in Hc as [Hc _]. apply andb_prop in Hc as [Hc _].
  apply andb_prop in Hc as [_ Hc].
  rewrite Hh, Hy, Hp in Hc. apply Z.ltb_lt in Hc.
  destruct (ry (pu_rect p) >=? 600) eqn:E; [|reflexivity]. lia.
Qed.

Lemma power_ups_pass_cons (p : PowerUp) (rest : list PowerUp) (now : Z) (s : BreakoutGame) :
  power_ups_pass (p :: rest) now s
  = let p' := PowerUp_move p in
    let collected := colliderect (pu_rect p') (paddle_rect (paddle s)) in
    let s1 := if collected then activate_power_up (pu_type p') now s else s in
    if top (pu_rect p') >=? 600 then
      if collected then Raise ValueError else power_ups_pass rest now s1
    else if collected then power_ups_pass rest now s1
    else r ← power_ups_pass rest now s1; Ok (p' :: fst r, snd r).
Proof. reflexivity. Qed.

(** On a paddle that is on its row the power-up loop raises nothing; it
    leaves the board, the state and the ball's rectangle alone. *)
Lemma power_ups_pass_ok (l : list PowerUp) (now : Z) (s : BreakoutGame) :
  paddle_row (paddle s) -> boxed l ->
  exists kept s',
    power_ups_pass l now s = Ok (kept, s')
    /\ board s' = board s
    /\ game_state s' = game_state s
    /\ ball_rect (ball s') = ball_rect (ball s)
    /\ paddle_row (paddle s')
    /\ boxed kept.
Proof.
  revert s. induction l as [|p rest IH]; intros s Hpad Hbox.
  - exists [], s. repeat split; try assumption; try apply Hpad; constructor.
  - inversion Hbox as [|? ? Hp Hrest]; subst.
    rewrite power_ups_pass_cons. cbv zeta.
    set (p' := PowerUp_move p).
    assert (Hp' : rh (pu_rect p') = 20) by exact Hp.
    destruct (colliderect (pu_rect p') (paddle_rect (paddle s))) eqn:Hc.
    + rewrite (collected_above_bottom p' (paddle s) Hp' Hpad Hc).
      destruct (activate_power_up_frame (pu_type p') now s) as (B & G & R & P & _).
      destruct (IH _ (P Hpad) Hrest) as (kept & s' & E & B' & G' & R' & P' & K').
      exists kept, s'. repeat split; try congruence; try apply P'; exact K'.
    + destruct (IH s Hpad Hrest) as (kept & s' & E & B' & G' & R' & P' & K').
      destruct (top (pu_rect p') >=? 600).
      * exists kept, s'. repeat split; try congruence; try apply P'; exact K'.
      * rewrite E. exists (p' :: kept), s'.
        repeat split; try congruence; try apply P'. constructor; assumption.
Qed.

Lemma step_power_ups_ok (now : Z) (s : BreakoutGame) :
  paddle_row (paddle s) -> boxed (power_ups s) ->
  exists s',
    step_power_ups now s = Ok s'
    /\ board s' = board s
    /\ game_state s' = game_state s
    /\ ball_rect (ball s') = ball_rect (ball s)
    /\ paddle_row (paddle s')
    /\ boxed (power_ups s').
Proof.
  intros Hpad Hbox. unfold step_power_ups.
  destruct (power_ups_pass_ok _ now s Hpad Hbox) as (kept & s' & E & B & G & R & P & K).
  rewrite E. exists (set_power_ups kept s'). simpl.
  repeat split; try assumption; apply P.
Qed.

(** The high score the gateway holds for [name] once a run with [score]
    has been finalised. *)
Definition finalised (name : string) (u : User) (score : Z) (users : Users) : Users :=
  if score >? high_score u then <[name := mkUser (password u) score]> users else users.

Lemma update_high_score_registered (w : World) (name : string) (u : User) :
  current_user (self w) = Some name -> users w !! name = Some u ->
  exists out,
    update_high_score w
    = Ok (mkWorld (self w) (finalised name u (score (self w)) (users w))
                  (rng w) (stdout w ++ out)).
Proof.
  intros Hc Hu. unfold update_high_score, auth_get_high_score, finalised.
  rewrite Hc. cbn [lookup_user]. rewrite Hu.
  destruct (score (self w) >? high_score u) eqn:Hgt.
  - unfold auth_update_high_score, print. cbn [lookup_user users self stdout rng].
    rewrite Hu, Hgt. unfold with_users. cbn [self users rng stdout].
    eexists. rewrite <- !app_assoc. reflexivity.
  - exists []. unfold print. reflexivity.
Qed.

Lemma finalised_lookup (name : string) (u : User) (score : Z) (users : Users) :
  users !! name = Some u ->
  finalised name u score users !! name
  = Some (mkUser (password u) (if score >? high_score u then score else high_score u)).
Proof.
  intros Hu. unfold finalised. destruct (score >? high_score u).
  - apply lookup_insert_eq.
  - rewrite Hu. destruct u; reflexivity.
Qed.

Lemma finalised_lookup_ne (name other : string) (u : User) (score : Z) (users : Users) :
  name <> other -> finalised name u score users !! other = users !! other.
Proof.
  intros Hne. unfold finalised. destruct (score >? high_score u); [|reflexivity].
  apply lookup_insert_ne. exact Hne.
Qed.

(** The run ends in this tick: the ball is at the bottom with one life. *)
Definition last_life_lost (s : BreakoutGame) : bool :=
  (bottom (ball_rect (ball s)) >=? 600) && (lives s =? 1).

Lemma step_life_frame (s : BreakoutGame) :
  let s' := step_life s in
  board s' = board s
  /\ game_state s' = game_state s
  /\ paddle s' = paddle s
  /\ power_ups s' = power_ups s
  /\ (rh (ball_rect (ball s)) = 20 -> rh (ball_rect (ball s')) = 20)
  /\ last_life_lost s' = last_life_lost s.
Proof.
  unfold step_life, last_life_lost.
  destruct (bottom (ball_rect (ball s)) >=? 600) eqn:Hb; simpl; [|rewrite Hb; tauto].
  destruct (lives s >? 1) eqn:Hl; simpl; [|rewrite Hb; tauto].
  repeat split; try reflexivity.
  symmetry. apply Z.eqb_neq. lia.
Qed.

(** [step_game_over] for a registered user: nothing is raised; if the last
    life is lost the state becomes [GAME_OVER] and the gateway holds the
    finalised score, otherwise nothing changes. *)
Lemma step_game_over_registered (w : World) (name : string) (u : User) :
  current_user (self w) = Some name -> users w !! name = Some u ->
  exists hs out,
    step_game_over w
    = Ok (if last_life_lost (self w)
          then mkWorld (set_game_state GAME_OVER (set_current_high_score hs (self w)))
                       (finalised name u (score (self w)) (users w))
                       (rng w) (stdout w ++ out)
          else w).
Proof.
  intros Hc Hu. unfold step_game_over. fold (last_life_lost (self w)).
  destruct (last_life_lost (self w)); [|exists None, []; reflexivity].
  destruct (update_high_score_registered w name u Hc Hu) as [out ->].
  cbn [mbind result_bind self users].
  destruct (auth_get_high_score _ _) as [hs out'].
  exists hs, (out ++ out'). unfold with_self, print. cbn.
  rewrite <- app_assoc. reflexivity.
Qed.

(** ** A tick as a whole *)

(** The ball's rectangle after the move of this tick. *)
Definition moved_ball_rect (s : BreakoutGame) : Rect :=
  move_ip (int_of_float (ball_dx (ball s))) (int_of_float (ball_dy (ball s)))
          (ball_rect (ball s)).

(** The bricks the moved ball does not overlap. *)
Definition survivors (s : BreakoutGame) : list Brick :=
  List.filter (fun brick => negb (colliderect (moved_ball_rect s) (brick_rect brick)))
              (bricks s).

(** The tick up to and including the scoring. *)
Definition tick_scored (keys : Keys) (w : World) : World :=
  with_self step_score
    (with_self step_effects (check_collision_with_bricks (step_motion keys w))).

(** The rest of the tick, from the test for the lost life on. *)
Definition tick_suffix (now : Z) (w : World) : result World :=
  w7 ← step_game_over (with_self step_life w);
  s8 ← step_power_ups now (self w7);
  Ok (mkWorld (step_expiry now s8) (users w7) (rng w7) (stdout w7)).

Lemma update_game_running (keys : Keys) (now : Z) (w : World) :
  game_state (self w) = GAME_RUNNING ->
  update_game keys now w = tick_suffix now (step_level (tick_scored keys w)).
Proof.
  intros Hs. unfold update_game. destruct (decide _) as [_|Hn]; [reflexivity|].
  contradiction.
Qed.

Lemma boxed_dropped (hs : list Brick) : boxed (flat_map dropped_power_up hs).
Proof.
  unfold boxed. induction hs as [|b hs IH]; simpl; [constructor|].
  apply Forall_app. split; [|exact IH].
  unfold dropped_power_up. destruct (power_up_type b); repeat constructor.
Qed.

(** The game when the scoring is done: the bricks are the survivors, the
    score has grown by 100 times the level for every brick that went since
    the baseline, and the baseline follows. *)
Lemma tick_scored_effect (keys : Keys) (w : World) :
  let s := self w in
  let s4 := self (tick_scored keys w) in
  let k := stage_bricks s - len (survivors s) in
  users (tick_scored keys w) = users w
  /\ bricks s4 = survivors s
  /\ score s4 = (if 0 <? k then score s + k * (level s * 100) else score s)
  /\ stage_bricks s4 = (if 0 <? k then len (survivors s) else stage_bricks s)
  /\ level s4 = level s
  /\ row_range s4 = row_range s
  /\ current_user s4 = current_user s
  /\ game_state s4 = game_state s
  /\ lives s4 = lives s
  /\ ball_rect (ball s4) = moved_ball_rect s
  /\ (paddle_row (paddle s) -> paddle_row (paddle s4))
  /\ (boxed (power_ups s) -> boxed (power_ups s4)).
Proof.
  cbv zeta. unfold tick_scored.
  destruct (step_motion_effect keys w) as (b' & pad' & st' & pa' & g' & -> & Hb & Hy & Hh).
  match goal with
  | |- context [check_collision_with_bricks ?w1] =>
      destruct (check_collision_with_bricks_effect w1)
        as (ps & counts & fs & g'' & -> & _ & _)
  end.
  unfold with_self, step_score, step_effects, scoring, hits_ball, survivors.
  cbn [self users bricks set_bricks set_fragments set_particles set_power_ups
       set_ball set_stars set_paddle stage_bricks ball].
  rewrite Hb. fold (moved_ball_rect (self w)).
  set (surv := List.filter _ (bricks (self w))).
  assert (E : (len surv <? stage_bricks (self w)) = (0 <? stage_bricks (self w) - len surv)).
  { destruct (len surv <? _) eqn:E1; destruct (0 <? _) eqn:E2; try reflexivity; lia. }
  rewrite <- E.
  destruct (len surv <? stage_bricks (self w)); cbn;
    (split; [reflexivity|]); (split; [reflexivity|]); (split; [reflexivity|]);
    (split; [reflexivity|]); (split; [reflexivity|]); (split; [reflexivity|]);
    (split; [reflexivity|]); (split; [reflexivity|]); (split; [reflexivity|]);
    (split; [exact Hb|]);
    (split; [unfold paddle_row; rewrite Hy, Hh; tauto|]);
    intros Hbx; apply Forall_app; (split; [exact Hbx|apply boxed_dropped]).
Qed.

Lemma board_fields (s s' : BreakoutGame) :
  board s' = board s ->
  bricks s' = bricks s /\ score s' = score s /\ level s' = level s
  /\ stage_bricks s' = stage_bricks s /\ row_range s' = row_range s
  /\ current_user s' = current_user s.
Proof. unfold board. intros H. injection H. tauto. Qed.

(** From the lost-life test to the end of the tick, for a registered user
    and a paddle on its row: nothing is raised, the board is left alone,
    and the run is finalised exactly when the last life is lost. *)
Lemma tick_suffix_effect (now : Z) (w : World) (name : string) (u : User) :
  paddle_row (paddle (self w)) -> boxed (power_ups (self w)) ->
  current_user (self w) = Some name -> users w !! name = Some u ->
  exists w',
    tick_suffix now w = Ok w'
    /\ board (self w') = board (self w)
    /\ game_state (self w')
       = (if last_life_lost (self w) then GAME_OVER else game_state (self w))
    /\ users w'
       = (if last_life_lost (self w)
          then finalised name u (score (self w)) (users w) else users w)
    /\ paddle_row (paddle (self w'))
    /\ boxed (power_ups (self w'))
    /\ (rh (ball_rect (ball (self w))) = 20 -> rh (ball_rect (ball (self w'))) = 20).
Proof.
  intros Hpad Hbox Hc Hu. unfold tick_suffix.
  destruct (step_life_frame (self w)) as (B1 & G1 & P1 & U1 & R1 & L1).
  cbv zeta in *.
  destruct (board_fields _ _ B1) as (_ & S1 & _ & _ & _ & C1).
  set (w6 := with_self step_life w).
  assert (Hc6 : current_user (self w6) = Some name) by (simpl; congruence).
  destruct (step_game_over_registered w6 name u Hc6 Hu) as (hs & out & ->).
  cbn [mbind result_bind].
  change (self w6) with (step_life (self w)). rewrite L1.
  destruct (last_life_lost (self w)).
  - cbn [self users rng stdout].
    set (s7 := set_game_state _ _).
    assert (Hpad7 : paddle_row (paddle s7)) by (simpl; rewrite P1; exact Hpad).
    assert (Hbox7 : boxed (power_ups s7)) by (simpl; rewrite U1; exact Hbox).
    destruct (step_power_ups_ok now s7 Hpad7 Hbox7) as (s8 & -> & B8 & G8 & R8 & P8 & K8).
    destruct (step_expiry_frame now s8) as (B9 & G9 & _ & U9 & R9 & P9).
    cbv zeta in *. eexists. split; [reflexivity|]. cbn [self users].
    split; [rewrite B9, B8; exact B1|].
    split; [rewrite G9, G8; reflexivity|].
    split; [rewrite S1; reflexivity|].
    split; [exact (P9 P8)|].
    split; [rewrite U9; exact K8|].
    intros Hr. rewrite R9, R8. simpl. exact (R1 Hr).
  - assert (Hpad7 : paddle_row (paddle (self w6))) by (simpl; rewrite P1; exact Hpad).
    assert (Hbox7 : boxed (power_ups (self w6))) by (simpl; rewrite U1; exact Hbox).
    destruct (step_power_ups_ok now _ Hpad7 Hbox7) as (s8 & -> & B8 & G8 & R8 & P8 & K8).
    destruct (step_expiry_frame now s8) as (B9 & G9 & _ & U9 & R9 & P9).
    cbv zeta in *. eexists. split; [reflexivity|]. cbn [self users].
    split; [rewrite B9, B8; exact B1|].
    split; [rewrite G9, G8; exact G1|].
    split; [reflexivity|].
    split; [exact (P9 P8)|].
    split; [rewrite U9; exact K8|].
    intros Hr. rewrite R9, R8. exact (R1 Hr).
Qed.

(** A brick of the grid: 20 pixels high, its top between 0 and 280. *)
Definition brick_in_grid (b : Brick) : Prop :=
  rh (brick_rect b) = 20 /\ 0 <= ry (brick_rect b) <= 280.

Lemma range_bounds (n x : Z) : In x (range n) -> 0 <= x < n.
Proof.
  unfold range. rewrite in_map_iff. intros (k & <- & Hk).
  apply in_seq in Hk. lia.
Qed.

Lemma create_brick_rect (row col : Z) (g : Rng) :
  brick_rect (fst (create_brick row col g)) = mkRect (col * 80 + 10) (row * 30 + 10) 70 20.
Proof.
  unfold create_brick. destruct (random_random g) as [u g1].
  destruct (qlt u (1 # 5)); [|reflexivity].
  destruct (random_choice special_brick_types g1). reflexivity.
Qed.

Lemma create_row_in_grid (row : Z) (cols : list Z) (g : Rng) :
  0 <= row <= 9 -> Forall brick_in_grid (fst (create_row row cols g)).
Proof.
  intros Hrow. revert g. induction cols as [|col cols IH]; intros g; simpl.
  - constructor.
  - pose proof (create_brick_rect row col g) as Hb.
    destruct (create_brick row col g) as [b g1].
    specialize (IH g1). destruct (create_row row cols g1) as [bs g2].
    simpl in *. constructor; [|exact IH].
    unfold brick_in_grid. rewrite Hb. simpl. lia.
Qed.

Lemma create_rows_in_grid (rows cols : list Z) (g : Rng) :
  Forall (fun row => 0 <= row <= 9) rows ->
  Forall brick_in_grid (fst (create_rows rows cols g)).
Proof.
  intros Hrows. revert g. induction Hrows as [|row rows Hrow _ IH]; intros g; simpl.
  - constructor.
  - pose proof (create_row_in_grid row cols g Hrow) as Hb.
    destruct (create_row row cols g) as [bs g1].
    specialize (IH g1). destruct (create_rows rows cols g1) as [bss g2].
    simpl in *. apply Forall_app. split; assumption.
Qed.

Lemma create_bricks_in_grid (rows cols : Z) (g : Rng) :
  rows <= 10 -> Forall brick_in_grid (fst (create_bricks rows cols g)).
Proof.
  intros Hr. apply create_rows_in_grid.
  apply List.Forall_forall. intros x Hx. apply range_bounds in Hx. lia.
Qed.

(** What [level_up] does not touch, and the grid it builds. *)
Lemma level_up_frame (w : World) :
  let w' := level_up w in
  users w' = users w
  /\ score (self w') = score (self w)
  /\ lives (self w') = lives (self w)
  /\ current_user (self w') = current_user (self w)
  /\ power_ups (self w') = power_ups (self w)
  /\ Forall brick_in_grid (bricks (self w')).
Proof.
  unfold level_up. cbn -[create_bricks Z.add].
  destruct (row_range (self w) + 1 >? 10) eqn:E; cbn -[create_bricks Z.add].
  - pose proof (create_bricks_in_grid 10 10 (rng w) ltac:(lia)) as Hgrid.
    destruct (create_bricks 10 10 (rng w)) as [bs g']. cbn.
    repeat split. exact Hgrid.
  - pose proof (create_bricks_in_grid (row_range (self w) + 1) 10 (rng w) ltac:(lia))
      as Hgrid.
    destruct (create_bricks (row_range (self w) + 1) 10 (rng w)) as [bs g']. cbn.
    repeat split. exact Hgrid.
Qed.

(** The states a tick can start from: the paddle is on its row, power-ups
    are boxes, the ball is 20 pixels high, the grid is not empty and lies
    in the upper half of the screen, and past the main menu the current
    user is registered. *)
Record playable (w : World) : Prop := mk_playable {
  ok_paddle : paddle_row (paddle (self w));
  ok_power_ups : boxed (power_ups (self w));
  ok_ball : rh (ball_rect (ball (self w))) = 20;
  ok_bricks : bricks (self w) <> [];
  ok_grid : Forall brick_in_grid (bricks (self w));
  ok_rows : 5 <= row_range (self w) <= 10;
  ok_user : game_state (self w) <> MAIN_MENU ->
            exists name u, current_user (self w) = Some name /\ users w !! name = Some u
}.

(** The brick list at the end of a tick that started with the survivors
    [surv]: a new grid exactly when nothing survived. *)
Lemma step_level_effect (w : World) :
  5 <= row_range (self w) <= 10 ->
  let w' := step_level w in
  users w' = users w
  /\ score (self w') = score (self w)
  /\ lives (self w') = lives (self w)
  /\ current_user (self w') = current_user (self w)
  /\ power_ups (self w') = power_ups (self w)
  /\ (bricks (self w) <> [] -> w' = w)
  /\ (bricks (self w) = [] ->
      level (self w') = level (self w) + 1
      /\ row_range (self w') = Z.min (row_range (self w) + 1) 10
      /\ len (bricks (self w')) = row_range (self w') * 10
      /\ stage_bricks (self w') = len (bricks (self w'))
      /\ Forall brick_in_grid (bricks (self w'))
      /\ ball_rect (ball (self w')) = ball_rect Ball_init
      /\ paddle (self w') = Paddle_init
      /\ game_state (self w') = GAME_RUNNING).
Proof.
  intros Hr. unfold step_level.
  destruct (bricks (self w)) as [|b bs] eqn:Hb.
  - change (len [] =? 0) with true. cbv iota zeta.
    destruct (level_up_frame w) as (U & F1 & F2 & F3 & F4 & G).
    destruct (level_up_spec w) as (L1 & L2 & L3 & L4 & _ & _ & L7 & L8 & L9); [lia|].
    cbv zeta in *. repeat (split; [assumption|]).
    split; [intros H; contradiction|]. intros _. tauto.
  - assert (E : (len (b :: bs) =? 0) = false).
    { apply Z.eqb_neq. unfold len. simpl. lia. }
    rewrite E. cbv zeta. repeat (split; [reflexivity|]). intros H. discriminate.
Qed.

(** The run ends in the tick that starts from [s]: bricks are left, the
    moved ball is at the bottom of the screen and this is the last life. *)
Definition run_ends (s : BreakoutGame) : bool :=
  match survivors s with
  | [] => false
  | _ => (bottom (moved_ball_rect s) >=? 600) && (lives s =? 1)
  end.

(** The bricks gone since the scored baseline. *)
Definition bricks_destroyed (s : BreakoutGame) : Z :=
  stage_bricks s - len (survivors s).

Lemma survivors_in_grid (s : BreakoutGame) :
  Forall brick_in_grid (bricks s) -> Forall brick_in_grid (survivors s).
Proof.
  unfold survivors. intros H. apply List.Forall_forall. intros x Hx.
  apply filter_In in Hx as [Hx _].
  rewrite List.Forall_forall in H. exact (H x Hx).
Qed.

(** One tick of a playable running game, as a whole: it raises nothing and
    leaves a playable game; the score, the bricks, the baseline, the state
    and the gateway's records are as stated. *)
Lemma update_game_effect (keys : Keys) (now : Z) (w : World) :
  game_state (self w) = GAME_RUNNING -> playable w ->
  exists w' name u,
    update_game keys now w = Ok w'
    /\ current_user (self w) = Some name /\ users w !! name = Some u
    /\ current_user (self w') = Some name
    /\ score (self w')
       = (if 0 <? bricks_destroyed (self w)
          then score (self w) + bricks_destroyed (self w) * (level (self w) * 100)
          else score (self w))
    /\ (survivors (self w) <> [] ->
        bricks (self w') = survivors (self w)
        /\ level (self w') = level (self w)
        /\ row_range (self w') = row_range (self w)
        /\ stage_bricks (self w')
           = (if 0 <? bricks_destroyed (self w)
              then len (survivors (self w)) else stage_bricks (self w)))
    /\ (survivors (self w) = [] ->
        level (self w') = level (self w) + 1
        /\ row_range (self w') = Z.min (row_range (self w) + 1) 10
        /\ len (bricks (self w')) = row_range (self w') * 10
        /\ stage_bricks (self w') = len (bricks (self w')))
    /\ game_state (self w')
       = (if run_ends (self w) then GAME_OVER else GAME_RUNNING)
    /\ users w'
       = (if run_ends (self w)
          then finalised name u (score (self w')) (users w) else users w)
    /\ playable w'.
Proof.
  intros Hs Hp. rewrite (update_game_running keys now w Hs).
  destruct (ok_user w Hp) as (name & u & Hc & Hu); [rewrite Hs; discriminate|].
  destruct (tick_scored_effect keys w)
    as (U4 & B4 & S4 & St4 & Hl4 & Hr4 & Hc4 & Hg4 & Hv4 & R4 & P4 & K4).
  cbv zeta in *. fold (bricks_destroyed (self w)) in S4, St4.
  set (w4 := tick_scored keys w) in *.
  assert (Hrows4 : 5 <= row_range (self w4) <= 10) by (rewrite Hr4; apply (ok_rows w Hp)).
  destruct (step_level_effect w4 Hrows4) as (U5 & Hs5 & Hv5 & Hc5 & Hk5 & N5 & L5).
  cbv zeta in *.
  unfold run_ends.
  destruct (survivors (self w)) as [|b0 surv] eqn:Hsurv.
  - (* the last brick went: level-up *)
    destruct (L5 B4) as (L1 & L2 & L3 & L4 & Lg & Lb & Lp & Ls).
    set (w5 := step_level w4) in *.
    assert (Hpad5 : paddle_row (paddle (self w5))) by (rewrite Lp; split; reflexivity).
    assert (Hbox5 : boxed (power_ups (self w5)))
      by (rewrite Hk5; apply K4, (ok_power_ups w Hp)).
    assert (Hc5' : current_user (self w5) = Some name) by congruence.
    assert (Hu5 : users w5 !! name = Some u) by (rewrite U5, U4; exact Hu).
    destruct (tick_suffix_effect now w5 name u Hpad5 Hbox5 Hc5' Hu5)
      as (w' & E & B & G & U & P & K & R).
    assert (Hlost : last_life_lost (self w5) = false)
      by (unfold last_life_lost; rewrite Lb; reflexivity).
    rewrite Hlost in G, U.
    destruct (board_fields _ _ B) as (Bb & Bs & Bl & Bst & Br & Bc).
    exists w', name, u.
    split; [exact E|]. split; [exact Hc|]. split; [exact Hu|].
    split; [congruence|].
    split; [rewrite Bs, Hs5; exact S4|].
    split; [intros H; contradiction|].
    split; [intros _; rewrite Bl, Br, Bb, Bst; repeat split; congruence|].
    split; [congruence|].
    split; [congruence|].
    constructor.
    + exact P.
    + exact K.
    + apply R. rewrite Lb. reflexivity.
    + rewrite Bb. intros Hnil. rewrite Hnil in L3. unfold len in L3. simpl in L3. lia.
    + rewrite Bb. exact Lg.
    + rewrite Br, L2. lia.
    + intros _. exists name, u. split; [congruence|]. rewrite U, U5, U4. exact Hu.
  - (* bricks are left *)
    assert (Hne : bricks (self w4) <> []) by (rewrite B4; discriminate).
    rewrite (N5 Hne) in *. clear N5 L5.
    assert (Hpad4 : paddle_row (paddle (self w4))) by (apply P4, (ok_paddle w Hp)).
    assert (Hbox4 : boxed (power_ups (self w4))) by (apply K4, (ok_power_ups w Hp)).
    assert (Hc4' : current_user (self w4) = Some name) by congruence.
    assert (Hu4 : users w4 !! name = Some u) by (rewrite U4; exact Hu).
    destruct (tick_suffix_effect now w4 name u Hpad4 Hbox4 Hc4' Hu4)
      as (w' & E & B & G & U & P & K & R).
    assert (Hlost : last_life_lost (self w4)
                    = (bottom (moved_ball_rect (self w)) >=? 600) && (lives (self w) =? 1))
      by (unfold last_life_lost; rewrite R4, Hv4; reflexivity).
    rewrite Hlost in G, U.
    destruct (board_fields _ _ B) as (Bb & Bs & Bl & Bst & Br & Bc).
    exists w', name, u.
    split; [exact E|]. split; [exact Hc|]. split; [exact Hu|].
    split; [congruence|].
    split; [rewrite Bs; exact S4|].
    split; [intros _; repeat split; congruence|].
    split; [intros H; discriminate|].
    split; [rewrite G, Hg4, Hs; reflexivity|].
    split; [rewrite U, U4, Bs; reflexivity|].
    constructor.
    + exact P.
    + exact K.
    + apply R. rewrite R4. exact (ok_ball w Hp).
    + rewrite Bb, B4. discriminate.
    + rewrite Bb, B4, <- Hsurv. apply survivors_in_grid, (ok_grid w Hp).
    + rewrite Br, Hr4. apply (ok_rows w Hp).
    + intros _. rewrite U. destruct (_ && _).
      * eexists name, _. split; [congruence|].
        rewrite U4. apply (finalised_lookup name u _ _ Hu).
      * exists name, u. split; [congruence|]. rewrite U4. exact Hu.
Qed.

(** ** Concrete games *)

Definition no_keys : Keys := mkKeys false false.

(** The gateway with one registered user. *)
Definition users_ann : Users := {[ "ann" := mkUser "5e884898da28" 0 ]}.

(** A new game in which "ann" has logged in and pressed Enter. *)
Definition world_running : World :=
  with_self (fun s => set_game_state GAME_RUNNING
                        (set_current_user (Some "ann") (set_logged_in true s)))
            (BreakoutGame_init users_ann []).

Ltac solve_playable :=
  constructor;
  [ split; reflexivity
  | vm_compute; repeat constructor
  | reflexivity
  | vm_compute; discriminate
  | vm_compute; repeat constructor; discriminate
  | vm_compute; split; discriminate
  | intros _; eexists "ann", _; split; reflexivity ].

Lemma world_running_playable : playable world_running.
Proof. solve_playable. Qed.

(** ** The brick count over a tick *)

Lemma survivors_len (s : BreakoutGame) : len (survivors s) <= len (bricks s).
Proof.
  unfold len, survivors. apply inj_le. apply filter_length_le.
Qed.

(** The game with a single brick left, in the path of the ball. *)
Definition world_last_brick : World :=
  with_self (fun s => set_stage_bricks 1 (set_bricks [Brick_init 390 280] s))
            world_running.

(** C4, as stated, fails on the tick that clears the last brick: the
    level-up of that tick builds the next grid, and the count goes from 1
    to 60. *)
Lemma level_up_tick_raises_brick_count :
  game_state (self world_last_brick) = GAME_RUNNING
  /\ len (bricks (self world_last_brick)) = 1
  /\ exists w',
      update_game no_keys 0 world_last_brick = Ok w'
      /\ len (bricks (self w')) = 60
      /\ ~ len (bricks (self w')) <= len (bricks (self world_last_brick)).
Proof.
  split; [reflexivity|]. split; [reflexivity|].
  eexists. split; [vm_compute; reflexivity|].
  split; [reflexivity|]. vm_compute. intros H. apply H. reflexivity.
Qed.

(** C4 (amended): a running tick of a playable game (every state of the
    main loop is playable) raises nothing; if it leaves at least one brick
    standing it ends with exactly the bricks the ball did not hit, so the
    number of live bricks does not increase; if it clears the last brick
    it ends with the grid of the next level, ten bricks for each of its
    min(row_range + 1, 10) rows. *)
Theorem tick_brick_count (keys : Keys) (now : Z) (w : World) :
  game_state (self w) = GAME_RUNNING -> playable w ->
  exists w',
    update_game keys now w = Ok w'
    /\ (survivors (self w) <> [] ->
        bricks (self w') = survivors (self w)
        /\ len (bricks (self w')) <= len (bricks (self w)))
    /\ (survivors (self w) = [] ->
        len (bricks (self w')) = Z.min (row_range (self w) + 1) 10 * 10).
Proof.
  intros Hs Hp.
  destruct (update_game_effect keys now w Hs Hp)
    as (w' & name & u & E & _ & _ & _ & _ & Hsome & Hnone & _).
  exists w'. split; [exact E|]. split.
  - intros Hne. destruct (Hsome Hne) as (Hb & _). split; [exact Hb|].
    rewrite Hb. apply survivors_len.
  - intros Hnil. destruct (Hnone Hnil) as (_ & Hr & Hl & _). rewrite Hl, Hr. reflexivity.
Qed.

Lemma tick_brick_count_witness :
  exists w',
    update_game no_keys 0 world_running = Ok w'
    /\ (survivors (self world_running) <> [] ->
        bricks (self w') = survivors (self world_running)
        /\ len (bricks (self w')) <= len (bricks (self world_running)))
    /\ (survivors (self world_running) = [] ->
        len (bricks (self w')) = Z.min (row_range (self world_running) + 1) 10 * 10).
Proof.
  apply (tick_brick_count no_keys 0 world_running).
  - reflexivity.
  - exact world_running_playable.
Defined.

(** ** Scoring *)

(** [scoring] on its own: the bricks gone since the baseline, times the
    level, times 100; the baseline becomes the current count. *)
Lemma scoring_spec (s : BreakoutGame) :
  score (scoring s) = score s + (stage_bricks s - len (bricks s)) * level s * 100
  /\ stage_bricks (scoring s) = len (bricks s)
  /\ bricks (scoring s) = bricks s /\ level (scoring s) = level s.
Proof. unfold scoring. simpl. repeat split. lia. Qed.

(** C8: when, in a running tick of a playable game, the number of live
    bricks has gone down by [k > 0] since the scored baseline, the tick
    adds exactly [k * level * 100] to the score and leaves the baseline at
    the number of live bricks. *)
Theorem tick_scores_destroyed_bricks (keys : Keys) (now : Z) (w : World) :
  game_state (self w) = GAME_RUNNING -> playable w ->
  0 < bricks_destroyed (self w) ->
  exists w',
    update_game keys now w = Ok w'
    /\ score (self w')
       = score (self w) + bricks_destroyed (self w) * level (self w) * 100
    /\ stage_bricks (self w') = len (bricks (self w')).
Proof.
  intros Hs Hp Hk.
  destruct (update_game_effect keys now w Hs Hp)
    as (w' & name & u & E & _ & _ & _ & Hscore & Hsome & Hnone & _).
  apply Z.ltb_lt in Hk. rewrite Hk in Hscore, Hsome.
  exists w'. split; [exact E|]. split; [rewrite Hscore; lia|].
  destruct (survivors (self w)) as [|b l] eqn:Hsurv.
  - apply Hnone. reflexivity.
  - destruct Hsome as (Hb & _ & _ & Hst); [discriminate|]. congruence.
Qed.

(** The ball about to enter the lowest row between two bricks: both go in
    the next tick. *)
Definition world_two_hits : World :=
  with_self (set_ball (mkBall (mkRect 390 154 20 20) 5 (-(5#1)) [])) world_running.

Lemma world_two_hits_playable : playable world_two_hits.
Proof. solve_playable. Qed.

Lemma tick_scores_destroyed_bricks_witness :
  bricks_destroyed (self world_two_hits) = 2
  /\ exists w',
      update_game no_keys 0 world_two_hits = Ok w'
      /\ score (self w')
         = score (self world_two_hits)
           + bricks_destroyed (self world_two_hits) * level (self world_two_hits) * 100
      /\ stage_bricks (self w') = len (bricks (self w')).
Proof.
  split; [reflexivity|].
  apply (tick_scores_destroyed_bricks no_keys 0 world_two_hits).
  - reflexivity.
  - exact world_two_hits_playable.
  - reflexivity.
Defined.

(** Level 1, one brick destroyed in the tick: 100 points. *)
Example one_brick_level1_scores_100 :
  let w := with_self (set_ball (mkBall (mkRect 340 154 20 20) 5 (-(5#1)) []))
                     world_running in
  exists w',
    update_game no_keys 0 w = Ok w'
    /\ len (bricks (self w')) = len (bricks (self w)) - 1
    /\ score (self w') = score (self w) + 100.
Proof. eexists. split; [vm_compute; reflexivity|]. split; reflexivity. Qed.

(** ** The end of a run *)

Lemma filter_all {A : Type} (f : A -> bool) (l : list A) :
  Forall (fun x => f x = true) l -> List.filter f l = l.
Proof.
  induction 1 as [|x l Hx _ IH]; simpl; [reflexivity|].
  rewrite Hx, IH. reflexivity.
Qed.

(** A 20 pixel high ball whose bottom is at 600 or below is clear of the
    whole grid. *)
Lemma ball_at_bottom_hits_nothing (r : Rect) (brick : Brick) :
  rh r = 20 -> 600 <= bottom r -> brick_in_grid brick ->
  colliderect r (brick_rect brick) = false.
Proof.
  unfold bottom, brick_in_grid, colliderect. intros Hh Hb (Hk & Hy).
  destruct (_ || _ || _ || _); [reflexivity|].
  apply andb_false_iff. left. apply andb_false_iff. left.
  apply andb_false_iff. right. apply Z.ltb_ge. lia.
Qed.

Lemma run_ends_at_bottom (w : World) :
  playable w -> lives (self w) = 1 -> 600 <= bottom (moved_ball_rect (self w)) ->
  run_ends (self w) = true.
Proof.
  intros Hp Hl Hb. unfold run_ends.
  assert (Hsurv : survivors (self w) = bricks (self w)).
  { unfold survivors. apply filter_all.
    eapply Forall_impl; [|exact (ok_grid w Hp)].
    intros brick Hg. cbv beta. apply negb_true_iff.
    apply ball_at_bottom_hits_nothing; [exact (ok_ball w Hp)|exact Hb|exact Hg]. }
  rewrite Hsurv. destruct (bricks (self w)) eqn:E.
  - exfalso. exact (ok_bricks w Hp E).
  - rewrite Hl. apply andb_true_iff. split; [|reflexivity].
    destruct (bottom (moved_ball_rect (self w)) >=? 600) eqn:E'; [reflexivity|lia].
Qed.

(** C9: in a running tick of a playable game with one life left in which
    the moved ball's bottom is at 600 or below, the state becomes
    [GAME_OVER] and the
    gateway's record of the current user holds the session score if that
    is strictly greater than the stored high score, and the stored high
    score otherwise; the password and every other record are unchanged. *)
Theorem last_life_at_bottom_ends_run (keys : Keys) (now : Z) (w : World) :
  game_state (self w) = GAME_RUNNING -> playable w ->
  lives (self w) = 1 -> 600 <= bottom (moved_ball_rect (self w)) ->
  exists w' name u,
    update_game keys now w = Ok w'
    /\ current_user (self w) = Some name /\ users w !! name = Some u
    /\ game_state (self w') = GAME_OVER
    /\ users w' !! name
       = Some (mkUser (password u)
                      (if score (self w') >? high_score u
                       then score (self w') else high_score u))
    /\ (score (self w') <= high_score u -> users w' = users w)
    /\ (forall other, name <> other -> users w' !! other = users w !! other).
Proof.
  intros Hs Hp Hl Hb.
  destruct (update_game_effect keys now w Hs Hp)
    as (w' & name & u & E & Hc & Hu & _ & _ & _ & _ & Hg & Hus & _).
  rewrite (run_ends_at_bottom w Hp Hl Hb) in Hg, Hus.
  exists w', name, u.
  split; [exact E|]. split; [exact Hc|]. split; [exact Hu|]. split; [exact Hg|].
  rewrite Hus. split; [apply finalised_lookup; exact Hu|]. split.
  - intros Hle. unfold finalised.
    destruct (score (self w') >? high_score u) eqn:Hgt; [lia|reflexivity].
  - intros other Hne. apply finalised_lookup_ne. exact Hne.
Qed.

(** The last life, 300 points on the board and the ball two pixels above
    the bottom edge. *)
Definition world_last_life : World :=
  with_self (fun s => set_score 300
                        (set_lives 1
                           (set_ball (mkBall (mkRect 390 578 20 20) 5 5 []) s)))
            world_running.

Lemma world_last_life_playable : playable world_last_life.
Proof. solve_playable. Qed.

Lemma last_life_at_bottom_ends_run_witness :
  exists w' name u,
    update_game no_keys 0 world_last_life = Ok w'
    /\ current_user (self world_last_life) = Some name
    /\ users world_last_life !! name = Some u
    /\ game_state (self w') = GAME_OVER
    /\ users w' !! name
       = Some (mkUser (password u)
                      (if score (self w') >? high_score u
                       then score (self w') else high_score u))
    /\ (score (self w') <= high_score u -> users w' = users world_last_life)
    /\ (forall other, name <> other ->
                      users w' !! other = users world_last_life !! other).
Proof.
  apply (last_life_at_bottom_ends_run no_keys 0 world_last_life).
  - reflexivity.
  - exact world_last_life_playable.
  - reflexivity.
  - vm_compute. discriminate.
Defined.

(** The same tick, computed: the record of "ann" goes from 0 to 300. *)
Example last_life_records_300 :
  exists w',
    update_game no_keys 0 world_last_life = Ok w'
    /\ game_state (self w') = GAME_OVER
    /\ high_score <$> (users world_last_life !! "ann") = Some 0
    /\ high_score <$> (users w' !! "ann") = Some 300.
Proof. eexists. split; [vm_compute; reflexivity|]. repeat split. Qed.

(** ** Empty credentials *)

(** With an empty trimmed username or password both methods only print
    the message: the game object, the input boxes included, and the
    gateway are left as they were. *)
Lemma empty_credentials_only_print `{Hashlib} (w : World) :
  truthy (strip (tb_text (username_input (self w))))
  && truthy (strip (pb_text (password_input (self w)))) = false ->
  login_user w = print [msg_empty] w /\ register_user w = print [msg_empty] w.
Proof.
  intros He. unfold login_user, register_user. rewrite He. split; reflexivity.
Qed.

(** A stand-in for the digest in the concrete runs below; no statement
    depends on what it computes. *)
Definition plain_digest : Hashlib := {| sha256_hexdigest := fun s => "sha256:" +:+ s |}.

(** The main menu with a blank username and a password typed in. *)
Definition world_blank_username : World :=
  with_self (fun s => set_password_input
                        (mkPassTextInputBox (pb_rect (password_input s))
                                            "secret" "******" false)
                        (set_username_input
                           (mkTextInputBox (tb_rect (username_input s)) "   " false) s))
            (BreakoutGame_init users_ann []).

(** C10 (defect): with a username that is empty once trimmed, a click on
    the Login button (or on the Register button) prints the message, stays
    in the main menu and leaves the gateway alone, but the text of both
    input boxes is still there: the branch for empty input never calls
    [reset]. *)
Theorem empty_login_keeps_input_fields :
  let H := plain_digest in
  let w := world_blank_username in
  strip (tb_text (username_input (self w))) = ""
  /\ stdout (login_user w) = [msg_empty]
  /\ game_state (self (login_user w)) = MAIN_MENU
  /\ users (login_user w) = users w
  /\ tb_text (username_input (self (login_user w))) = "   "
  /\ pb_text (password_input (self (login_user w))) = "secret"
  /\ pb_masked_text (password_input (self (login_user w))) = "******"
  /\ self (register_user w) = self w
  /\ handle_event (MOUSEBUTTONDOWN (350, 470)) w = Ok (login_user w).
Proof. vm_compute. repeat split. Qed.

(** ** The state tests of [handle_events] *)

(** The state tests that follow the main menu in [handle_events]. *)
Definition handle_keys (e : Event) (w2 : World) : World :=
  let w3 :=
    if decide (game_state (self w2) = POST_LOGIN_MENU) then
      if is_key K_RETURN e then with_self (set_game_state GAME_RUNNING) w2 else w2
    else w2 in
  let w4 :=
    if decide (game_state (self w3) = GAME_RUNNING) then
      if is_key K_p e then with_self (set_game_state PAUSED) w3 else w3
    else w3 in
  let w5 :=
    if decide (game_state (self w4) = PAUSED) then
      if is_key K_RETURN e then with_self (set_game_state GAME_RUNNING) w4 else w4
    else w4 in
  if decide (game_state (self w5) = GAME_OVER) then
    if is_key K_r e then with_self reset_game w5 else w5
  else w5.

Definition focus_event (e : Event) (w : World) : World :=
  match e with
  | WINDOWFOCUSLOST => with_self (set_focused false) w
  | WINDOWFOCUSGAINED => with_self (set_focused true) w
  | _ => w
  end.

Lemma handle_event_unfold `{Hashlib} (e : Event) (w : World) :
  e <> QUIT ->
  handle_event e w
  = Ok (handle_keys e
          (if decide (game_state (self (focus_event e w)) = MAIN_MENU)
           then handle_main_menu e (focus_event e w) else focus_event e w)).
Proof. intros Hq. destruct e; try contradiction; reflexivity. Qed.

(** The state a key leads to. *)
Definition next_state (e : Event) (st : GameState) : GameState :=
  match st with
  | MAIN_MENU => MAIN_MENU
  | POST_LOGIN_MENU => if is_key K_RETURN e then GAME_RUNNING else POST_LOGIN_MENU
  | GAME_RUNNING => if is_key K_p e then PAUSED else GAME_RUNNING
  | PAUSED => if is_key K_RETURN e then GAME_RUNNING else PAUSED
  | GAME_OVER => if is_key K_r e then POST_LOGIN_MENU else GAME_OVER
  end.

(** One state test of [handle_events]: in state [st], key [k] applies [f]. *)
Definition gate (st : GameState) (k : Key) (f : World -> World) (e : Event) (w : World)
  : World :=
  if decide (game_state (self w) = st) then if is_key k e then f w else w else w.

Lemma gate_state (st target : GameState) (k : Key) (f : World -> World)
    (e : Event) (w : World) :
  (forall w0, game_state (self (f w0)) = target) ->
  game_state (self (gate st k f e w))
  = if decide (game_state (self w) = st)
    then if is_key k e then target else game_state (self w)
    else game_state (self w).
Proof.
  intros Hf. unfold gate. destruct (decide _); [|reflexivity].
  destruct (is_key k e); [apply Hf|reflexivity].
Qed.

Lemma handle_keys_gates (e : Event) (w : World) :
  handle_keys e w
  = gate GAME_OVER K_r (with_self reset_game) e
      (gate PAUSED K_RETURN (with_self (set_game_state GAME_RUNNING)) e
         (gate GAME_RUNNING K_p (with_self (set_game_state PAUSED)) e
            (gate POST_LOGIN_MENU K_RETURN (with_self (set_game_state GAME_RUNNING)) e w))).
Proof. reflexivity. Qed.

Lemma quit_or_not (e : Event) : e = QUIT \/ e <> QUIT.
Proof. destruct e; (left; reflexivity) || (right; discriminate). Qed.

(** ** The unfocused window *)

(** Everything the game holds apart from what only animates a drawing: the
    trail of the ball, the frame and flicker counters of the bricks and
    the placement of the menu widgets. *)
Definition gameplay (s : BreakoutGame) :=
  (paddle s,
   (ball_rect (ball s), ball_dx (ball s), ball_dy (ball s)),
   map (fun b => (brick_rect b, power_up_type b)) (bricks s),
   (particles s, fragments s, stars s, power_ups s),
   (level s, score s, lives s, stage_bricks s, row_range s),
   (active_power_up s, power_up_start_time s, default_ball_dx s, default_ball_dy s,
    paddle_width_default s),
   (game_state s, focused s, logged_in s, current_user s, current_high_score s),
   (tb_text (username_input s), pb_text (password_input s))).

Lemma Brick_draw_effect (b : Brick) (g : Rng) :
  brick_rect (fst (Brick_draw b g)) = brick_rect b
  /\ power_up_type (fst (Brick_draw b g)) = power_up_type b
  /\ frame_counter (fst (Brick_draw b g)) = frame_counter b + 1.
Proof.
  unfold Brick_draw.
  destruct ((frame_counter b + 1) mod 10 =? 0); [|simpl; tauto].
  destruct (Z.abs _ >=? _); simpl; tauto.
Qed.

Lemma draw_bricks_effect (l : list Brick) (g : Rng) :
  map (fun b => (brick_rect b, power_up_type b)) (fst (draw_bricks l g))
  = map (fun b => (brick_rect b, power_up_type b)) l
  /\ map frame_counter (fst (draw_bricks l g)) = map (fun b => frame_counter b + 1) l.
Proof.
  revert g. induction l as [|b l IH]; intros g; simpl; [tauto|].
  destruct (Brick_draw_effect b g) as (Hr & Ht & Hf).
  destruct (Brick_draw b g) as [b' g1].
  destruct (IH g1) as [IH1 IH2]. destruct (draw_bricks l g1) as [l' g2].
  simpl in *. rewrite Hr, Ht, Hf, IH1, IH2. tauto.
Qed.

(** Drawing never touches the gameplay, the gateway or the console; in the
    running state it updates every particle of the trail and advances the
    frame counter of every brick. *)
Lemma draw_game_effect (w : World) :
  gameplay (self (draw_game w)) = gameplay (self w)
  /\ users (draw_game w) = users w
  /\ stdout (draw_game w) = stdout w
  /\ (game_state (self w) = GAME_RUNNING ->
      trail (ball (self (draw_game w))) = map Particle_update (trail (ball (self w)))
      /\ map frame_counter (bricks (self (draw_game w)))
         = map (fun b => frame_counter b + 1) (bricks (self w))).
Proof.
  unfold draw_game. destruct (game_state (self w)) eqn:Hs.
  - repeat split; discriminate.
  - unfold draw_game_running.
    cbn [bricks set_ball].
    destruct (draw_bricks_effect (bricks (self w)) (rng w)) as [H1 H2].
    destruct (draw_bricks (bricks (self w)) (rng w)) as [bs g'].
    simpl in H1, H2. unfold gameplay. cbn. rewrite H1, Hs. repeat split. exact H2.
  - repeat split; discriminate.
  - repeat split; discriminate.
  - repeat split; discriminate.
Qed.

(** The events that are no input of the player: the loss of the focus, a
    movement of the mouse, and whatever [handle_events] has no test for. *)
Definition passive (e : Event) : bool :=
  match e with
  | WINDOWFOCUSLOST | MOUSEMOTION _ | OTHER_EVENT => true
  | _ => false
  end.

Lemma handle_keys_passive (e : Event) (w : World) :
  passive e = true -> handle_keys e w = w.
Proof.
  intros Hp. rewrite handle_keys_gates. unfold gate.
  assert (Hk : forall k, is_key k e = false)
    by (intros k; destruct e; try discriminate Hp; destruct k; reflexivity).
  rewrite !Hk.
  repeat match goal with
         | |- context [decide ?P] => destruct (decide P)
         end; reflexivity.
Qed.

(** A passive event leaves everything but the focus flag and the hover
    marks of the buttons as it was. *)
Lemma passive_event_inert `{Hashlib} (e : Event) (w : World) :
  passive e = true ->
  exists w',
    handle_event e w = Ok w'
    /\ gameplay (set_focused false (self w')) = gameplay (set_focused false (self w))
    /\ game_state (self w') = game_state (self w)
    /\ users w' = users w
    /\ stdout w' = stdout w
    /\ ball (self w') = ball (self w)
    /\ bricks (self w') = bricks (self w).
Proof.
  intros Hp. eexists. split.
  { apply handle_event_unfold. intros ->. discriminate Hp. }
  rewrite (handle_keys_passive e _ Hp).
  destruct (decide (game_state (self (focus_event e w)) = MAIN_MENU)) as [Hm|Hm].
  - unfold handle_main_menu.
    destruct e; try discriminate Hp; cbn; rewrite ?app_nil_r; repeat split.
  - destruct e; try discriminate Hp; repeat split.
Qed.

Lemma passive_events_inert `{Hashlib} (events : list Event) (w w1 : World) :
  forallb passive events = true -> handle_events events w = Ok w1 ->
  gameplay (set_focused false (self w1)) = gameplay (set_focused false (self w))
  /\ game_state (self w1) = game_state (self w)
  /\ users w1 = users w
  /\ stdout w1 = stdout w
  /\ ball (self w1) = ball (self w)
  /\ bricks (self w1) = bricks (self w).
Proof.
  revert w. induction events as [|e es IH]; intros w Hp He.
  - injection He as <-. repeat split.
  - cbn [forallb] in Hp. apply andb_prop in Hp as [Hp1 Hp2].
    destruct (passive_event_inert e w Hp1) as (w' & E & G & S & U & O & B & R).
    cbn [handle_events] in He. rewrite E in He. cbn [mbind result_bind] in He.
    destruct (IH w' Hp2 He) as (G' & S' & U' & O' & B' & R').
    repeat split; congruence.
Qed.

Lemma unfocused_gameplay (s : BreakoutGame) :
  focused s = false -> gameplay (set_focused false s) = gameplay s.
Proof. intros Hf. destruct s. cbn in Hf. subst. reflexivity. Qed.

(** C7 (amended): when the window is unfocused once the events have been
    handled, the iteration runs no gameplay update and still draws, and the
    drawing leaves the gameplay state (paddle, ball position and velocity,
    brick positions and tags, particles, fragments, stars, power-ups,
    score, level, lives, game state), the gateway and the console as the
    events left them.  The events themselves are handled with or without
    the focus; when they are passive (the loss of the focus, mouse motion,
    events the loop has no test for, or no event at all), the gameplay
    state at the end of the iteration is the one of its start, the focus
    flag apart, the gateway and the console are unchanged, and in the
    running state the drawing has updated every particle of the ball's
    trail once and advanced every brick's frame counter by one. *)
Theorem unfocused_iteration_only_draws `{Hashlib}
    (events : list Event) (keys : Keys) (now : Z) (w w1 : World) :
  handle_events events w = Ok w1 -> focused (self w1) = false ->
  run_iteration events keys now w = Ok (draw_game w1)
  /\ gameplay (self (draw_game w1)) = gameplay (self w1)
  /\ users (draw_game w1) = users w1
  /\ stdout (draw_game w1) = stdout w1
  /\ (game_state (self w1) = GAME_RUNNING ->
      trail (ball (self (draw_game w1))) = map Particle_update (trail (ball (self w1)))
      /\ map frame_counter (bricks (self (draw_game w1)))
         = map (fun b => frame_counter b + 1) (bricks (self w1)))
  /\ (forallb passive events = true ->
      gameplay (self (draw_game w1)) = gameplay (set_focused false (self w))
      /\ (focused (self w) = false ->
          gameplay (self (draw_game w1)) = gameplay (self w))
      /\ users (draw_game w1) = users w
      /\ stdout (draw_game w1) = stdout w
      /\ (game_state (self w) = GAME_RUNNING ->
          trail (ball (self (draw_game w1)))
          = map Particle_update (trail (ball (self w)))
          /\ map frame_counter (bricks (self (draw_game w1)))
             = map (fun b => frame_counter b + 1) (bricks (self w)))).
Proof.
  intros He Hf.
  destruct (draw_game_effect w1) as (D1 & D2 & D3 & D4).
  split.
  { unfold run_iteration. rewrite He. cbn [mbind result_bind]. rewrite Hf. reflexivity. }
  split; [exact D1|]. split; [exact D2|]. split; [exact D3|]. split; [exact D4|].
  intros Hp.
  destruct (passive_events_inert events w w1 Hp He) as (G & S & U & O & B & R).
  assert (G1 : gameplay (self (draw_game w1)) = gameplay (set_focused false (self w))).
  { rewrite D1, <- G. symmetry. apply unfocused_gameplay. exact Hf. }
  split; [exact G1|].
  split; [intros Hw; rewrite G1; apply unfocused_gameplay; exact Hw|].
  split; [congruence|]. split; [congruence|].
  intros Hs. rewrite <- S in Hs. destruct (D4 Hs) as [T F].
  rewrite T, F, B, R. split; reflexivity.
Qed.

(** The running game one tick after the start: the trail holds a particle. *)
Definition world_one_tick : World :=
  match update_game no_keys 0 world_running with
  | Ok w => w
  | Raise _ => world_running
  end.

Lemma unfocused_iteration_only_draws_witness :
  let H := plain_digest in
  let events := [MOUSEMOTION (400, 300); WINDOWFOCUSLOST; OTHER_EVENT] in
  let w := world_one_tick in
  let w1 := with_self (set_focused false) world_one_tick in
  run_iteration events no_keys 16 w = Ok (draw_game w1)
  /\ gameplay (self (draw_game w1)) = gameplay (self w1)
  /\ users (draw_game w1) = users w1
  /\ stdout (draw_game w1) = stdout w1
  /\ (game_state (self w1) = GAME_RUNNING ->
      trail (ball (self (draw_game w1))) = map Particle_update (trail (ball (self w1)))
      /\ map frame_counter (bricks (self (draw_game w1)))
         = map (fun b => frame_counter b + 1) (bricks (self w1)))
  /\ (forallb passive events = true ->
      gameplay (self (draw_game w1)) = gameplay (set_focused false (self w))
      /\ (focused (self w) = false ->
          gameplay (self (draw_game w1)) = gameplay (self w))
      /\ users (draw_game w1) = users w
      /\ stdout (draw_game w1) = stdout w
      /\ (game_state (self w) = GAME_RUNNING ->
          trail (ball (self (draw_game w1)))
          = map Particle_update (trail (ball (self w)))
          /\ map frame_counter (bricks (self (draw_game w1)))
             = map (fun b => frame_counter b + 1) (bricks (self w)))).
Proof.
  intros H events w w1.
  apply (unfocused_iteration_only_draws events no_keys 16 w w1).
  - vm_compute. reflexivity.
  - reflexivity.
Defined.

(** C7, as stated, fails: across an unfocused iteration without events the
    game object changes.  The particle of the ball's trail has moved, has
    shrunk and has lost a unit of lifetime, and the frame counter of every
    brick has gone from 1 to 2. *)
Lemma unfocused_drawing_changes_entities :
  let H := plain_digest in
  exists w1 w2,
    run_iteration [WINDOWFOCUSLOST] no_keys 16 world_one_tick = Ok w1
    /\ focused (self w1) = false
    /\ game_state (self w1) = GAME_RUNNING
    /\ run_iteration [] no_keys 32 w1 = Ok w2
    /\ map (fun p => (p_y p, p_size p, p_lifetime p)) (trail (ball (self w1)))
       = [((298#1)%Q, (24#5)%Q, 49)]
    /\ map (fun p => (p_y p, p_size p, p_lifetime p)) (trail (ball (self w2)))
       = [((296#1)%Q, (23#5)%Q, 48)]
    /\ nodup Z.eq_dec (map frame_counter (bricks (self w1))) = [1]
    /\ nodup Z.eq_dec (map frame_counter (bricks (self w2))) = [2]
    /\ self w2 <> self w1.
Proof.
  intros H. eexists. eexists.
  split; [vm_compute; reflexivity|].
  split; [reflexivity|]. split; [reflexivity|].
  split; [vm_compute; reflexivity|].
  split; [vm_compute; reflexivity|].
  split; [vm_compute; reflexivity|].
  split; [vm_compute; reflexivity|].
  split; [vm_compute; reflexivity|].
  intros E. apply (f_equal (fun s => map frame_counter (bricks s))) in E.
  vm_compute in E. discriminate.
Qed.

(** ** Every state of the main loop is playable *)

(** The fields [playable] looks at, the user apart. *)
Definition arena (s : BreakoutGame) :=
  (paddle s, power_ups s, ball_rect (ball s), bricks s, row_range s).

Definition user_known (w : World) : Prop :=
  game_state (self w) <> MAIN_MENU ->
  exists name u, current_user (self w) = Some name /\ users w !! name = Some u.

Lemma playable_arena (w w' : World) :
  playable w -> arena (self w') = arena (self w) -> user_known w' -> playable w'.
Proof.
  intros Hp Ha Hu. unfold arena in Ha. injection Ha as Hpad Hpu Hb Hbr Hr.
  destruct Hp. constructor; try congruence. exact Hu.
Qed.

Lemma BreakoutGame_init_playable (loaded : Users) (g : Rng) :
  playable (BreakoutGame_init loaded g).
Proof.
  unfold BreakoutGame_init.
  pose proof (create_bricks_len 5 10 g ltac:(lia) ltac:(lia)) as Hlen.
  pose proof (create_bricks_in_grid 5 10 g ltac:(lia)) as Hgrid.
  destruct (create_bricks 5 10 g) as [bs g1]. destruct (make_stars 100 g1) as [st g2].
  simpl in Hlen, Hgrid. constructor; cbn.
  - split; reflexivity.
  - constructor.
  - reflexivity.
  - intros E. rewrite E in Hlen. discriminate.
  - exact Hgrid.
  - lia.
  - intros H. contradiction.
Qed.

Lemma playable_set_game_state (st : GameState) (w : World) :
  playable w -> game_state (self w) <> MAIN_MENU ->
  playable (with_self (set_game_state st) w).
Proof.
  intros Hp Hs. apply (playable_arena w); [exact Hp|reflexivity|].
  intros _. exact (ok_user w Hp Hs).
Qed.

Lemma plain_grid_in_grid : plain_grid <> [] /\ Forall brick_in_grid plain_grid.
Proof.
  split; [vm_compute; discriminate|].
  vm_compute. repeat constructor; discriminate.
Qed.

Lemma playable_reset_game (w : World) :
  playable w -> game_state (self w) <> MAIN_MENU -> playable (with_self reset_game w).
Proof.
  intros Hp Hs. destruct plain_grid_in_grid as [Hne Hg].
  constructor; cbn.
  - split; reflexivity.
  - exact (ok_power_ups w Hp).
  - reflexivity.
  - exact Hne.
  - exact Hg.
  - exact (ok_rows w Hp).
  - intros _. exact (ok_user w Hp Hs).
Qed.

Lemma auth_login_user_known `{Hashlib} (username pw : string) (users : Users) :
  auth_login_user username pw users = true -> exists u, users !! username = Some u.
Proof.
  unfold auth_login_user. destruct (users !! username) as [u|]; [eauto|discriminate].
Qed.

(** In the main menu an event leaves the arena alone; the menu is left
    only by a successful login, whose user the gateway knows. *)
Lemma handle_main_menu_playable `{Hashlib} (e : Event) (w : World) :
  playable w -> game_state (self w) = MAIN_MENU -> playable (handle_main_menu e w).
Proof.
  intros Hp Hs. unfold handle_main_menu.
  destruct (TextInputBox_handle_event _ e) as [ub out1].
  destruct (PassTextInputBox_handle_event _ e) as [pb out2].
  destruct (Button_handle_event (login_button (self w)) e) as [lb login_clicked].
  set (w1 := print out2 (print out1 _)).
  assert (Hs1 : game_state (self w1) = MAIN_MENU) by exact Hs.
  assert (Ha1 : arena (self w1) = arena (self w)) by reflexivity.
  destruct login_clicked.
  - unfold login_user. destruct (_ && _); [|].
    + destruct (auth_login_user _ _ (users w1)) eqn:Hl.
      * apply auth_login_user_known in Hl as [u Hu].
        destruct (auth_get_high_score _ _) as [hs out].
        apply (playable_arena w); [exact Hp|exact Ha1|].
        intros _. eexists _, u. split; [reflexivity|exact Hu].
      * apply (playable_arena w); [exact Hp|exact Ha1|].
        intros Hn. exfalso. apply Hn. exact Hs1.
    + apply (playable_arena w); [exact Hp|exact Ha1|].
      intros Hn. exfalso. apply Hn. exact Hs1.
  - destruct (Button_handle_event _ e) as [rb register_clicked].
    destruct register_clicked.
    + unfold register_user. destruct (_ && _).
      * destruct (auth_register_user _ _ _) as [users' out].
        apply (playable_arena w); [exact Hp|exact Ha1|].
        intros Hn. exfalso. apply Hn. exact Hs1.
      * apply (playable_arena w); [exact Hp|exact Ha1|].
        intros Hn. exfalso. apply Hn. exact Hs1.
    + apply (playable_arena w); [exact Hp|exact Ha1|].
      intros Hn. exfalso. apply Hn. exact Hs1.
Qed.

Lemma playable_if_key (k : Key) (e : Event) (f : World -> World) (w : World) :
  playable w -> (playable w -> playable (f w)) ->
  playable (if is_key k e then f w else w).
Proof. intros Hp Hf. destruct (is_key k e); auto. Qed.

Lemma handle_event_playable `{Hashlib} (e : Event) (w w' : World) :
  playable w -> handle_event e w = Ok w' -> playable w'.
Proof.
  intros Hp He. unfold handle_event in He.
  set (w1 := match e with
             | WINDOWFOCUSLOST => with_self (set_focused false) w
             | WINDOWFOCUSGAINED => with_self (set_focused true) w
             | _ => w
             end) in He.
  assert (Hp1 : playable w1).
  { destruct e; try exact Hp;
      (apply (playable_arena w); [exact Hp|reflexivity|exact (ok_user w Hp)]). }
  clearbody w1.
  set (w2 := if decide (game_state (self w1) = MAIN_MENU)
             then handle_main_menu e w1 else w1) in He.
  assert (Hp2 : playable w2).
  { unfold w2. destruct (decide (game_state (self w1) = MAIN_MENU)) as [Hs|]; [|exact Hp1].
    apply handle_main_menu_playable; assumption. }
  clearbody w2.
  set (w3 := if decide (game_state (self w2) = POST_LOGIN_MENU) then _ else w2) in He.
  assert (Hp3 : playable w3).
  { unfold w3. destruct (decide (game_state (self w2) = POST_LOGIN_MENU)) as [Hs|]; [|exact Hp2].
    apply playable_if_key; [exact Hp2|]. intros _.
    apply playable_set_game_state; [exact Hp2|]. rewrite Hs. discriminate. }
  clearbody w3.
  set (w4 := if decide (game_state (self w3) = GAME_RUNNING) then _ else w3) in He.
  assert (Hp4 : playable w4).
  { unfold w4. destruct (decide (game_state (self w3) = GAME_RUNNING)) as [Hs|]; [|exact Hp3].
    apply playable_if_key; [exact Hp3|]. intros _.
    apply playable_set_game_state; [exact Hp3|]. rewrite Hs. discriminate. }
  clearbody w4.
  set (w5 := if decide (game_state (self w4) = PAUSED) then _ else w4) in He.
  assert (Hp5 : playable w5).
  { unfold w5. destruct (decide (game_state (self w4) = PAUSED)) as [Hs|]; [|exact Hp4].
    apply playable_if_key; [exact Hp4|]. intros _.
    apply playable_set_game_state; [exact Hp4|]. rewrite Hs. discriminate. }
  clearbody w5.
  set (w6 := if decide (game_state (self w5) = GAME_OVER) then _ else w5) in He.
  assert (Hp6 : playable w6).
  { unfold w6. destruct (decide (game_state (self w5) = GAME_OVER)) as [Hs|]; [|exact Hp5].
    apply playable_if_key; [exact Hp5|]. intros _.
    apply playable_reset_game; [exact Hp5|]. rewrite Hs. discriminate. }
  clearbody w6.
  destruct e; try discriminate; injection He as <-; exact Hp6.
Qed.

Lemma handle_events_playable `{Hashlib} (events : list Event) (w w' : World) :
  playable w -> handle_events events w = Ok w' -> playable w'.
Proof.
  revert w. induction events as [|e es IH]; intros w Hp He; simpl in He.
  - injection He as <-. exact Hp.
  - destruct (handle_event e w) as [w1|] eqn:E1; [|discriminate].
    cbn [mbind result_bind] in He.
    apply (IH w1); [|exact He]. exact (handle_event_playable e w w1 Hp E1).
Qed.

Lemma update_game_playable (keys : Keys) (now : Z) (w w' : World) :
  playable w -> update_game keys now w = Ok w' -> playable w'.
Proof.
  intros Hp He. destruct (decide (game_state (self w) = GAME_RUNNING)) as [Hs|Hs].
  - destruct (update_game_effect keys now w Hs Hp)
      as (w'' & name & u & E & _ & _ & _ & _ & _ & _ & _ & _ & Hp').
    congruence.
  - unfold update_game in He. destruct (decide _); [contradiction|]. congruence.
Qed.

Lemma draw_bricks_length (l : list Brick) (g : Rng) :
  length (fst (draw_bricks l g)) = length l.
Proof.
  destruct (draw_bricks_effect l g) as [_ H].
  apply (f_equal (@length Z)) in H. rewrite !length_map in H. exact H.
Qed.

Lemma draw_bricks_in_grid (l : list Brick) (g : Rng) :
  Forall brick_in_grid l -> Forall brick_in_grid (fst (draw_bricks l g)).
Proof.
  revert g. induction l as [|b l IH]; intros g Hl; simpl; [constructor|].
  inversion Hl as [|? ? Hb Hl']; subst.
  destruct (Brick_draw_effect b g) as (Hr & _ & _).
  destruct (Brick_draw b g) as [b' g1].
  specialize (IH g1 Hl'). destruct (draw_bricks l g1) as [l' g2].
  simpl in *. constructor; [|exact IH].
  unfold brick_in_grid in *. rewrite Hr. exact Hb.
Qed.

Lemma draw_game_playable (w : World) : playable w -> playable (draw_game w).
Proof.
  intros Hp. unfold draw_game. destruct (game_state (self w)) eqn:Hs; try exact Hp.
  - apply (playable_arena w); [exact Hp|reflexivity|].
    intros Hn. exfalso. apply Hn. exact Hs.
  - unfold draw_game_running. cbn [bricks set_ball].
    pose proof (draw_bricks_length (bricks (self w)) (rng w)) as Hlen.
    pose proof (draw_bricks_in_grid (bricks (self w)) (rng w) (ok_grid w Hp)) as Hg.
    destruct (draw_bricks (bricks (self w)) (rng w)) as [bs g'].
    simpl in Hlen, Hg. destruct Hp. constructor; cbn; try assumption.
    intros E. rewrite E in Hlen. destruct (bricks (self w)); [contradiction|discriminate].
Qed.

(** The states of the main loop: the game as constructed, and every state
    an iteration of [run] leads to. *)
Inductive reachable `{Hashlib} : World -> Prop :=
| reachable_init (loaded : Users) (g : Rng) :
    reachable (BreakoutGame_init loaded g)
| reachable_iteration (events : list Event) (keys : Keys) (now : Z) (w w' : World) :
    reachable w -> run_iteration events keys now w = Ok w' -> reachable w'.

Lemma run_iteration_playable `{Hashlib}
    (events : list Event) (keys : Keys) (now : Z) (w w' : World) :
  playable w -> run_iteration events keys now w = Ok w' -> playable w'.
Proof.
  intros Hp He. unfold run_iteration in He.
  destruct (handle_events events w) as [w1|] eqn:E1; [|discriminate].
  pose proof (handle_events_playable events w w1 Hp E1) as Hp1.
  cbn [mbind result_bind] in He.
  destruct (focused (self w1)).
  - destruct (decide _).
    + destruct (update_game keys now w1) as [w2|] eqn:E2; [|discriminate].
      cbn [mbind result_bind] in He. injection He as <-.
      apply draw_game_playable. exact (update_game_playable keys now w1 w2 Hp1 E2).
    + cbn [mbind result_bind] in He. injection He as <-.
      apply draw_game_playable. exact Hp1.
  - cbn [mbind result_bind] in He. injection He as <-.
    apply draw_game_playable. exact Hp1.
Qed.

(** Every state of the main loop is playable, so the hypotheses of the
    theorems on a tick hold whenever the loop runs one. *)
Lemma reachable_playable `{Hashlib} (w : World) : reachable w -> playable w.
Proof.
  induction 1 as [loaded g|events keys now w w' _ IH He].
  - apply BreakoutGame_init_playable.
  - exact (run_iteration_playable events keys now w w' IH He).
Qed.

(** * Further properties of the code *)

(** ** Arithmetic of the float model *)

Lemma qadd_correct (a b : Q) : qadd a b == a + b.
Proof. unfold qadd. apply Qred_correct. Qed.

Lemma qsub_correct (a b : Q) : qsub a b == a - b.
Proof. unfold qsub. apply Qred_correct. Qed.

Lemma qle_spec (a b : Q) : qle a b = true <-> (a <= b)%Q.
Proof. unfold qle. apply Qle_bool_iff. Qed.

Lemma qmax_nonneg (a : Q) : (0 <= qmax a 0)%Q.
Proof.
  unfold qmax. destruct (Qle_bool a 0) eqn:E; [apply Qle_refl|].
  apply Qlt_le_weak, Qnot_le_lt. intros H. apply Qle_bool_iff in H. congruence.
Qed.

Lemma qmax_sub_le (s d : Q) : (0 <= s)%Q -> (0 <= d)%Q -> (qmax (qsub s d) 0 <= s)%Q.
Proof.
  intros Hs Hd. unfold qmax. destruct (Qle_bool (qsub s d) 0); [exact Hs|].
  rewrite qsub_correct. lra.
Qed.

(** ** Ranges of the random functions *)

Lemma random_random_bounds (g : Rng) :
  (0 <= fst (random_random g))%Q /\ (fst (random_random g) < 1)%Q.
Proof.
  unfold random_random. destruct (draw g) as [r g']. cbn [fst].
  rewrite Qred_correct. pose proof (Z.mod_pos_bound r 1000 ltac:(lia)) as Hr.
  unfold Qle, Qlt. simpl. lia.
Qed.

Lemma random_uniform_bounds (a b : Q) (g : Rng) :
  (a <= b)%Q ->
  (a <= fst (random_uniform a b g))%Q /\ (fst (random_uniform a b g) <= b)%Q.
Proof.
  intros Hab. unfold random_uniform.
  destruct (random_random_bounds g) as [H0 H1].
  destruct (random_random g) as [u g']. cbn [fst] in *.
  rewrite qadd_correct, qmul_correct, qsub_correct. split; nra.
Qed.

(** ** paddle.py, ball.py *)

(** X1: at the width the paddle is created with, [Paddle.move] keeps the
    left edge within [0, 800 - width] for every requested [dx]: the paddle
    either moves by exactly [dx] or stays where it is, and it keeps its
    row and its size. *)
Theorem Paddle_move_within_screen (dx : Z) (p : Paddle) :
  rw (paddle_rect p) = 100 -> paddle_in_bounds p ->
  let p' := Paddle_move dx p in
  paddle_in_bounds p'
  /\ (left (paddle_rect p') = left (paddle_rect p) + dx \/ p' = p)
  /\ (ry (paddle_rect p'), rw (paddle_rect p'), rh (paddle_rect p'))
     = (ry (paddle_rect p), rw (paddle_rect p), rh (paddle_rect p)).
Proof.
  unfold paddle_in_bounds, Paddle_move, screen_width, left. intros Hw Hb.
  destruct (0 <? rx (paddle_rect p) + dx) eqn:Hlo; cbn [andb];
    [|repeat split; try lia; right; reflexivity].
  destruct (rx (paddle_rect p) + dx <? 800 - 100) eqn:Hhi;
    [|repeat split; try lia; right; reflexivity].
  cbn. split; [lia|]. split; [left; reflexivity|].
  rewrite Z.add_0_r. reflexivity.
Qed.

Lemma Paddle_move_within_screen_witness :
  let p' := Paddle_move 100000 Paddle_init in
  paddle_in_bounds p'
  /\ (left (paddle_rect p') = left (paddle_rect Paddle_init) + 100000 \/ p' = Paddle_init)
  /\ (ry (paddle_rect p'), rw (paddle_rect p'), rh (paddle_rect p'))
     = (ry (paddle_rect Paddle_init), rw (paddle_rect Paddle_init),
        rh (paddle_rect Paddle_init)).
Proof.
  apply (Paddle_move_within_screen 100000 Paddle_init).
  - reflexivity.
  - unfold paddle_in_bounds, screen_width. simpl. lia.
Defined.

(** X2: [Ball.move] keeps the trail at 20 particles at most: the new
    particle, created at the centre the ball had before the move, goes to
    the end, and the oldest one is dropped exactly when the trail was
    full.  The velocity is unchanged and the rectangle moves by it. *)
Theorem Ball_move_trail_bounded (b : Ball) (g : Rng) :
  (length (trail b) <= 20)%nat ->
  let b' := fst (Ball_move b g) in
  (length (trail b') <= 20)%nat
  /\ (exists older p,
        trail b' = older ++ [p]
        /\ particle_pos p = (Zq (centerx (ball_rect b)), Zq (centery (ball_rect b)))
        /\ ((length (trail b) < 20)%nat -> older = trail b)
        /\ (length (trail b) = 20%nat -> older = tl (trail b)))
  /\ (ball_dx b', ball_dy b') = (ball_dx b, ball_dy b)
  /\ ball_rect b'
     = move_ip (int_of_float (ball_dx b)) (int_of_float (ball_dy b)) (ball_rect b).
Proof.
  intros Hlen. unfold Ball_move.
  pose proof (Particle_init_pos (centerx (ball_rect b)) (centery (ball_rect b)) g) as Hp.
  destruct (Particle_init _ _ g) as [p g']. cbn [fst] in *.
  rewrite length_app. cbn [length].
  destruct (20 <? Z.of_nat (length (trail b) + 1)) eqn:E.
  - apply Z.ltb_lt in E. assert (Hfull : length (trail b) = 20%nat) by lia.
    destruct (trail b) as [|q rest] eqn:Ht; [discriminate|].
    cbn [tl app length trail ball_dx ball_dy ball_rect] in *.
    split; [rewrite length_app; cbn; lia|].
    split; [|split; reflexivity].
    exists rest, p. repeat split; try assumption; try reflexivity. lia.
  - apply Z.ltb_ge in E. cbn [trail ball_dx ball_dy ball_rect].
    split; [rewrite length_app; cbn; lia|].
    split; [|split; reflexivity].
    exists (trail b), p. repeat split; try assumption; try reflexivity. lia.
Qed.

Lemma Ball_move_trail_bounded_witness :
  let b' := fst (Ball_move Ball_init []) in
  (length (trail b') <= 20)%nat
  /\ (exists older p,
        trail b' = older ++ [p]
        /\ particle_pos p
           = (Zq (centerx (ball_rect Ball_init)), Zq (centery (ball_rect Ball_init)))
        /\ ((length (trail Ball_init) < 20)%nat -> older = trail Ball_init)
        /\ (length (trail Ball_init) = 20%nat -> older = tl (trail Ball_init)))
  /\ (ball_dx b', ball_dy b') = (ball_dx Ball_init, ball_dy Ball_init)
  /\ ball_rect b'
     = move_ip (int_of_float (ball_dx Ball_init)) (int_of_float (ball_dy Ball_init))
               (ball_rect Ball_init).
Proof.
  apply (Ball_move_trail_bounded Ball_init []). simpl. lia.
Defined.

(** ** particle.py *)

(** X3: [Particle.update] takes one unit of lifetime, never lets the size
    become negative and never makes a particle of non-negative size grow;
    the velocity stays, red stays at most 255 once it is, green stays
    non-negative once it is, and blue is 0. *)
Theorem Particle_update_fades (p : Particle) :
  (0 <= p_size p)%Q ->
  let p' := Particle_update p in
  p_lifetime p' = p_lifetime p - 1
  /\ (0 <= p_size p')%Q /\ (p_size p' <= p_size p)%Q
  /\ (p_vx p', p_vy p') = (p_vx p, p_vy p)
  /\ (fst (fst (p_color p)) <= 255 ->
      fst (fst (p_color p)) <= fst (fst (p_color p')) <= 255)
  /\ (0 <= snd (fst (p_color p)) ->
      0 <= snd (fst (p_color p')) <= snd (fst (p_color p)))
  /\ snd (p_color p') = 0.
Proof.
  intros Hs. unfold Particle_update. destruct (p_color p) as [[r g] bl]. cbn.
  split; [reflexivity|]. split; [apply qmax_nonneg|].
  split; [apply qmax_sub_le; [exact Hs|discriminate]|].
  split; [reflexivity|]. repeat split; lia.
Qed.

Lemma Particle_update_fades_witness :
  let p := fst (Particle_init 400 300 []) in
  let p' := Particle_update p in
  p_lifetime p' = p_lifetime p - 1
  /\ (0 <= p_size p')%Q /\ (p_size p' <= p_size p)%Q
  /\ (p_vx p', p_vy p') = (p_vx p, p_vy p)
  /\ (fst (fst (p_color p)) <= 255 ->
      fst (fst (p_color p)) <= fst (fst (p_color p')) <= 255)
  /\ (0 <= snd (fst (p_color p)) ->
      0 <= snd (fst (p_color p')) <= snd (fst (p_color p)))
  /\ snd (p_color p') = 0.
Proof.
  apply (Particle_update_fades (fst (Particle_init 400 300 []))).
  vm_compute. discriminate.
Defined.

Lemma Particle_update_iter_lifetime (n : nat) (p : Particle) :
  p_lifetime (Nat.iter n Particle_update p) = p_lifetime p - Z.of_nat n.
Proof.
  induction n as [|n IH]; [simpl; lia|].
  rewrite Nat.iter_succ. unfold Particle_update at 1.
  destruct (p_color _) as [[r g] bl]. cbn [p_lifetime]. rewrite IH. lia.
Qed.

Lemma Particle_init_lifetime (x y : Z) (g : Rng) :
  p_lifetime (fst (Particle_init x y g)) = 50.
Proof. unfold Particle_init. destruct_lets. reflexivity. Qed.

(** X4: a particle is created with a lifetime of 50 and counts as expired
    after 50 updates, whatever its size then is. *)
Theorem Particle_expired_after_50_updates (x y : Z) (g : Rng) (n : nat) :
  (50 <= n)%nat ->
  particle_expired (Nat.iter n Particle_update (fst (Particle_init x y g))) = true.
Proof.
  intros Hn. unfold particle_expired.
  rewrite Particle_update_iter_lifetime, Particle_init_lifetime.
  apply orb_true_iff. left. apply Z.leb_le. lia.
Qed.

Lemma Particle_expired_after_50_updates_witness :
  particle_expired (Nat.iter 50 Particle_update (fst (Particle_init 400 300 [7; 8; 9])))
  = true.
Proof.
  apply (Particle_expired_after_50_updates 400 300 [7; 8; 9] 50). lia.
Defined.

(** ** brick.py *)

Lemma Zq_le (a b : Z) : a <= b -> (Zq a <= Zq b)%Q.
Proof. intros H. unfold Zq. rewrite <- Zle_Qle. exact H. Qed.

(** X5: a fragment broken off a brick starts at the brick's corner, red,
    with a width between a quarter and a half of the brick's width, a
    height between a quarter and a half of its height, a fade speed in
    [0.05, 0.1], a horizontal velocity in [-1, 1] and a downward velocity
    in [1, 3]. *)
Theorem break_into_fragments_ranges (b : Brick) (g : Rng) :
  0 <= rw (brick_rect b) -> 0 <= rh (brick_rect b) ->
  let f := fst (break_into_fragments b g) in
  fragment_origin f = brick_origin b
  /\ f_color f = (255, 0, 0)
  /\ (Zq (rw (brick_rect b) / 4) <= f_width f <= Zq (rw (brick_rect b) / 2))%Q
  /\ (Zq (rh (brick_rect b) / 4) <= f_height f <= Zq (rh (brick_rect b) / 2))%Q
  /\ (1 # 20 <= f_fade_speed f <= 1 # 10)%Q
  /\ (- (1) <= f_vx f <= 1)%Q
  /\ (1 <= f_vy f <= 3)%Q.
Proof.
  intros Hw Hh. unfold break_into_fragments, BrickFragment_init.
  assert (Hqw : (Zq (rw (brick_rect b) / 4) <= Zq (rw (brick_rect b) / 2))%Q).
  { apply Zq_le. apply Z.div_le_compat_l; lia. }
  assert (Hqh : (Zq (rh (brick_rect b) / 4) <= Zq (rh (brick_rect b) / 2))%Q).
  { apply Zq_le. apply Z.div_le_compat_l; lia. }
  pose proof (random_uniform_bounds _ _ g Hqw) as B1.
  destruct (random_uniform _ _ g) as [fw g1].
  pose proof (random_uniform_bounds _ _ g1 Hqh) as B2.
  destruct (random_uniform _ _ g1) as [fh g2].
  pose proof (random_uniform_bounds (1 # 20) (1 # 10) g2 ltac:(discriminate)) as B3.
  destruct (random_uniform _ _ g2) as [fade g3].
  pose proof (random_uniform_bounds (- (1 # 1)) 1 g3 ltac:(discriminate)) as B4.
  destruct (random_uniform _ _ g3) as [vx g4].
  pose proof (random_uniform_bounds 1 3 g4 ltac:(discriminate)) as B5.
  destruct (random_uniform _ _ g4) as [vy g5].
  cbn [fst] in *. cbn. tauto.
Qed.

Lemma break_into_fragments_ranges_witness :
  let b := Brick_init 10 10 in
  let f := fst (break_into_fragments b [123; 456; 789; 12; 34]) in
  fragment_origin f = brick_origin b
  /\ f_color f = (255, 0, 0)
  /\ (Zq (rw (brick_rect b) / 4) <= f_width f <= Zq (rw (brick_rect b) / 2))%Q
  /\ (Zq (rh (brick_rect b) / 4) <= f_height f <= Zq (rh (brick_rect b) / 2))%Q
  /\ (1 # 20 <= f_fade_speed f <= 1 # 10)%Q
  /\ (- (1) <= f_vx f <= 1)%Q
  /\ (1 <= f_vy f <= 3)%Q.
Proof.
  apply (break_into_fragments_ranges (Brick_init 10 10) [123; 456; 789; 12; 34]);
    simpl; lia.
Defined.

(** X6: [BrickFragment.update] moves the fragment by its velocity and
    shrinks it by its fade speed, and neither side ever becomes negative
    or grows; velocity, colour and fade speed stay. *)
Theorem BrickFragment_update_shrinks (f : BrickFragment) :
  (0 <= f_width f)%Q -> (0 <= f_height f)%Q -> (0 <= f_fade_speed f)%Q ->
  let f' := BrickFragment_update f in
  (0 <= f_width f' <= f_width f)%Q
  /\ (0 <= f_height f' <= f_height f)%Q
  /\ f_x f' == f_x f + f_vx f /\ f_y f' == f_y f + f_vy f
  /\ (f_vx f', f_vy f', f_color f', f_fade_speed f')
     = (f_vx f, f_vy f, f_color f, f_fade_speed f).
Proof.
  intros Hw Hh Hf. unfold BrickFragment_update. cbn.
  split; [split; [apply qmax_nonneg|apply qmax_sub_le; assumption]|].
  split; [split; [apply qmax_nonneg|apply qmax_sub_le; assumption]|].
  split; [apply qadd_correct|]. split; [apply qadd_correct|reflexivity].
Qed.

Lemma BrickFragment_update_shrinks_witness :
  let f := fst (break_into_fragments (Brick_init 10 10) [123; 456; 789; 12; 34]) in
  let f' := BrickFragment_update f in
  (0 <= f_width f' <= f_width f)%Q
  /\ (0 <= f_height f' <= f_height f)%Q
  /\ f_x f' == f_x f + f_vx f /\ f_y f' == f_y f + f_vy f
  /\ (f_vx f', f_vy f', f_color f', f_fade_speed f')
     = (f_vx f, f_vy f, f_color f, f_fade_speed f).
Proof.
  apply (BrickFragment_update_shrinks
           (fst (break_into_fragments (Brick_init 10 10) [123; 456; 789; 12; 34])));
    vm_compute; discriminate.
Defined.

(** A brick drawn [n] times in a row. *)
Fixpoint Brick_draw_times (n : nat) (b : Brick) (g : Rng) : Brick * Rng :=
  match n with
  | O => (b, g)
  | S n' => let '(b', g') := Brick_draw b g in Brick_draw_times n' b' g'
  end.

(** The flicker oscillates between the two ends and turns round there. *)
Definition flicker_ok (b : Brick) : Prop :=
  max_flicker_offset b = 2
  /\ ((-2 < flicker_offset b < 2 /\ (flicker_direction b = 1 \/ flicker_direction b = -1))
      \/ (flicker_offset b = 2 /\ flicker_direction b = -1)
      \/ (flicker_offset b = -2 /\ flicker_direction b = 1)).

Lemma Brick_draw_flicker_ok (b : Brick) (g : Rng) :
  flicker_ok b -> flicker_ok (fst (Brick_draw b g)).
Proof.
  unfold flicker_ok, Brick_draw. intros [Hm Hf].
  destruct ((frame_counter b + 1) mod 10 =? 0); [|cbn; tauto].
  destruct (Z.abs (flicker_offset b + flicker_direction b) >=? max_flicker_offset b)
    eqn:E; cbn; (split; [exact Hm|]); rewrite Hm in E; lia.
Qed.

(** X7: however often a brick is drawn, its flicker offset stays within
    [-max_flicker_offset, max_flicker_offset] = [-2, 2]; drawing counts
    the frames and changes neither the rectangle nor the power-up tag. *)
Theorem Brick_draw_times_flicker_bounded (n : nat) (b : Brick) (g : Rng) :
  flicker_ok b ->
  let b' := fst (Brick_draw_times n b g) in
  Z.abs (flicker_offset b') <= max_flicker_offset b'
  /\ frame_counter b' = frame_counter b + Z.of_nat n
  /\ brick_rect b' = brick_rect b
  /\ power_up_type b' = power_up_type b.
Proof.
  revert b g. induction n as [|n IH]; intros b g Hok.
  - cbn. destruct Hok as [Hm Hf]. repeat split; lia.
  - cbn [Brick_draw_times].
    pose proof (Brick_draw_flicker_ok b g Hok) as Hok'.
    destruct (Brick_draw_effect b g) as (Hr & Ht & Hc).
    destruct (Brick_draw b g) as [b1 g1]. cbn [fst] in *.
    destruct (IH b1 g1 Hok') as (A & B & C & D). cbv zeta.
    split; [exact A|]. split; [lia|]. split; congruence.
Qed.

Lemma Brick_draw_times_flicker_bounded_witness :
  let b := Brick_init 10 10 in
  let b' := fst (Brick_draw_times 100 b []) in
  Z.abs (flicker_offset b') <= max_flicker_offset b'
  /\ frame_counter b' = frame_counter b + Z.of_nat 100
  /\ brick_rect b' = brick_rect b
  /\ power_up_type b' = power_up_type b.
Proof.
  apply (Brick_draw_times_flicker_bounded 100 (Brick_init 10 10) []).
  unfold flicker_ok. simpl. lia.
Defined.

(** ** star.py *)

(** A star on the 800 x 600 screen, falling. *)
Definition star_on_screen (s : Star) : Prop :=
  0 <= star_x s <= 800 /\ (0 <= star_y s <= 600)%Q /\ (0 <= star_speed s)%Q.

Lemma Star_init_on_screen (g : Rng) :
  star_on_screen (fst (Star_init g))
  /\ 1 <= star_size (fst (Star_init g)) <= 3
  /\ (1 # 2 <= star_speed (fst (Star_init g)) <= 2)%Q.
Proof.
  unfold Star_init, star_on_screen.
  pose proof (random_randint_bounds 0 800 g ltac:(lia)) as B1.
  destruct (random_randint 0 800 g) as [x g1].
  pose proof (random_randint_bounds 0 600 g1 ltac:(lia)) as B2.
  destruct (random_randint 0 600 g1) as [y g2].
  pose proof (random_randint_bounds 1 3 g2 ltac:(lia)) as B3.
  destruct (random_randint 1 3 g2) as [size g3].
  pose proof (random_uniform_bounds (1 # 2) 2 g3 ltac:(discriminate)) as B4.
  destruct (random_uniform (1 # 2) 2 g3) as [speed g4].
  cbn [fst] in *. cbn.
  assert (Hy : (0 <= Zq y <= 600)%Q).
  { split; [apply (Zq_le 0 y); lia|apply (Zq_le y 600); lia]. }
  repeat split; try lia; try tauto. lra.
Qed.

Lemma Star_update_on_screen (s : Star) (g : Rng) :
  star_on_screen s ->
  star_on_screen (fst (Star_update s g))
  /\ star_size (fst (Star_update s g)) = star_size s
  /\ star_speed (fst (Star_update s g)) = star_speed s.
Proof.
  unfold star_on_screen, Star_update. intros (Hx & Hy & Hv).
  destruct (qgt (qadd (star_y s) (star_speed s)) 600) eqn:E.
  - pose proof (random_randint_bounds 0 800 g ltac:(lia)) as B.
    destruct (random_randint 0 800 g) as [x g']. cbn [fst] in *. cbn.
    repeat split; try lia; try assumption; discriminate.
  - cbn. repeat split; try lia; try assumption.
    + rewrite qadd_correct. lra.
    + apply Qnot_lt_le. intros H. apply qgt_spec in H. congruence.
Qed.

(** X8: stars never leave the screen.  Updating a star field whose stars
    are on the screen (x in [0, 800], y in [0, 600], falling) gives as
    many stars, again on the screen, each with the size and the speed it
    had; a star that would pass the bottom edge restarts at y = 0. *)
Theorem update_stars_on_screen (l : list Star) (g : Rng) :
  Forall star_on_screen l ->
  let l' := fst (update_stars l g) in
  Forall star_on_screen l'
  /\ map (fun s => (star_size s, star_speed s)) l'
     = map (fun s => (star_size s, star_speed s)) l.
Proof.
  intros Hl. revert g. induction Hl as [|s l Hs _ IH]; intros g; cbn.
  - split; [constructor|reflexivity].
  - destruct (Star_update_on_screen s g Hs) as (A & B & C).
    destruct (Star_update s g) as [s' g1]. cbn [fst] in *.
    destruct (IH g1) as [IH1 IH2]. destruct (update_stars l g1) as [l' g2].
    cbn [fst] in *. cbn. split; [constructor; assumption|]. rewrite B, C, IH2. reflexivity.
Qed.

Lemma make_stars_on_screen (n : nat) (g : Rng) :
  Forall star_on_screen (fst (make_stars n g)) /\ length (fst (make_stars n g)) = n.
Proof.
  revert g. induction n as [|n IH]; intros g; cbn; [split; [constructor|reflexivity]|].
  destruct (Star_init_on_screen g) as (A & _).
  destruct (Star_init g) as [s g1]. cbn [fst] in *.
  destruct (IH g1) as [IH1 IH2]. destruct (make_stars n g1) as [l g2].
  cbn [fst] in *. cbn. split; [constructor; assumption|congruence].
Qed.

Lemma update_stars_on_screen_witness :
  let l := fst (make_stars 3 [5; 599; 2; 999; 700; 600; 1; 999]) in
  let l' := fst (update_stars l [42]) in
  Forall star_on_screen l'
  /\ map (fun s => (star_size s, star_speed s)) l'
     = map (fun s => (star_size s, star_speed s)) l.
Proof.
  apply (update_stars_on_screen
           (fst (make_stars 3 [5; 599; 2; 999; 700; 600; 1; 999])) [42]).
  apply make_stars_on_screen.
Defined.

(** ** user_auth.py *)

(** X9: registering a free username and then logging in with the same
    password succeeds; the new record starts with a high score of 0, a
    later login succeeds exactly with a password of the same digest, and
    the records of the other users are untouched. *)
Theorem register_then_login `{Hashlib} (name pw : string) (users : Users) :
  users !! name = None ->
  let users' := fst (auth_register_user name pw users) in
  auth_login_user name pw users' = true
  /\ auth_get_high_score (Some name) users' = (Some 0, [])
  /\ (forall pw', auth_login_user name pw' users' = true
                  <-> sha256_hexdigest pw' = sha256_hexdigest pw)
  /\ (forall other, name <> other -> users' !! other = users !! other).
Proof.
  intros Hfree. unfold auth_register_user. rewrite Hfree. cbn [fst].
  unfold auth_login_user, auth_get_high_score. cbn [lookup_user].
  rewrite lookup_insert_eq. cbn [password high_score].
  split; [destruct (decide _); [reflexivity|contradiction]|].
  split; [reflexivity|]. split.
  - intros pw'. destruct (decide _) as [E|E]; split; intros H'; congruence.
  - intros other Hne. apply lookup_insert_ne. exact Hne.
Qed.

Lemma register_then_login_witness :
  let H := plain_digest in
  let users' := fst (auth_register_user "bob" "hunter2" users_ann) in
  auth_login_user "bob" "hunter2" users' = true
  /\ auth_get_high_score (Some "bob") users' = (Some 0, [])
  /\ (forall pw', auth_login_user "bob" pw' users' = true
                  <-> sha256_hexdigest pw' = sha256_hexdigest "hunter2")
  /\ (forall other, "bob" <> other -> users' !! other = users_ann !! other).
Proof.
  intros H. apply (register_then_login "bob" "hunter2" users_ann). reflexivity.
Defined.

(** X10: registering a username that is taken is rejected: the dictionary
    is returned as it was, so the existing record keeps its password and
    its high score, and the message says that the name is taken. *)
Theorem register_taken_rejected `{Hashlib} (name pw : string) (users : Users) (u : User) :
  users !! name = Some u ->
  auth_register_user name pw users
  = (users, ["Username " +:+ name +:+ " is already taken."]).
Proof. intros Hu. unfold auth_register_user. rewrite Hu. reflexivity. Qed.

Lemma register_taken_rejected_witness :
  let H := plain_digest in
  auth_register_user "ann" "other" users_ann
  = (users_ann, ["Username " +:+ "ann" +:+ " is already taken."]).
Proof.
  intros H.
  apply (register_taken_rejected "ann" "other" users_ann (mkUser "5e884898da28" 0)).
  reflexivity.
Defined.

(** X11: [update_high_score] stores the larger of the stored and the new
    score, so a high score never goes down; the password and the other
    records stay, [get_high_score] then returns that maximum, and
    submitting the same score again changes nothing. *)
Theorem auth_update_high_score_max (name : string) (u : User) (new : Z) (users : Users) :
  users !! name = Some u ->
  let users' := fst (auth_update_high_score (Some name) new users) in
  users' !! name = Some (mkUser (password u) (Z.max (high_score u) new))
  /\ (forall other, name <> other -> users' !! other = users !! other)
  /\ fst (auth_get_high_score (Some name) users') = Some (Z.max (high_score u) new)
  /\ fst (auth_update_high_score (Some name) new users') = users'.
Proof.
  intros Hu. unfold auth_update_high_score, auth_get_high_score. cbn [lookup_user].
  rewrite Hu. destruct (new >? high_score u) eqn:E; cbn [fst].
  - rewrite lookup_insert_eq. cbn [high_score password].
    replace (Z.max (high_score u) new) with new by lia.
    replace (new >? new) with false by (rewrite Z.gtb_ltb, Z.ltb_irrefl; reflexivity).
    repeat split. intros other Hne. apply lookup_insert_ne. exact Hne.
  - rewrite Hu, E. cbn [fst high_score].
    replace (Z.max (high_score u) new) with (high_score u) by lia.
    destruct u. repeat split.
Qed.

Lemma auth_update_high_score_max_witness :
  let users' := fst (auth_update_high_score (Some "ann") 700 users_ann) in
  users' !! "ann" = Some (mkUser (password (mkUser "5e884898da28" 0))
                                 (Z.max (high_score (mkUser "5e884898da28" 0)) 700))
  /\ (forall other, "ann" <> other -> users' !! other = users_ann !! other)
  /\ fst (auth_get_high_score (Some "ann") users')
     = Some (Z.max (high_score (mkUser "5e884898da28" 0)) 700)
  /\ fst (auth_update_high_score (Some "ann") 700 users') = users'.
Proof.
  apply (auth_update_high_score_max "ann" (mkUser "5e884898da28" 0) 700 users_ann).
  reflexivity.
Defined.

(** X12: for a user the gateway does not know ([None] included) nothing
    raises: [get_high_score] returns [None], [update_high_score] leaves
    the dictionary alone, both print that the user was not found, and a
    login fails. *)
Theorem unknown_user_is_tolerated `{Hashlib} (username : option string) (users : Users) :
  lookup_user username users = None ->
  auth_get_high_score username users
  = (None, ["User " +:+ show_user username +:+ " not found."])
  /\ (forall new, auth_update_high_score username new users
                  = (users, ["User " +:+ show_user username +:+ " not found."]))
  /\ (forall name pw, username = Some name -> auth_login_user name pw users = false).
Proof.
  intros Hn. unfold auth_get_high_score, auth_update_high_score. rewrite Hn.
  split; [reflexivity|]. split.
  - intros new. destruct username; [rewrite Hn|]; reflexivity.
  - intros name pw ->. unfold auth_login_user. cbn [lookup_user] in Hn.
    rewrite Hn. reflexivity.
Qed.

Lemma unknown_user_is_tolerated_witness :
  let H := plain_digest in
  auth_get_high_score (Some "zed") users_ann
  = (None, ["User " +:+ show_user (Some "zed") +:+ " not found."])
  /\ (forall new, auth_update_high_score (Some "zed") new users_ann
                  = (users_ann, ["User " +:+ show_user (Some "zed") +:+ " not found."]))
  /\ (forall name pw, Some "zed" = Some name -> auth_login_user name pw users_ann = false).
Proof.
  intros H. apply (unknown_user_is_tolerated (Some "zed") users_ann). reflexivity.
Defined.

(** X13: [BreakoutGame.update_high_score] raises, and then [TypeError],
    exactly when the current user is unknown to the gateway (the score is
    compared with [None]); for a known user it returns and changes the
    gateway's dictionary and the console only. *)
Theorem update_high_score_raises_iff_unknown (w : World) :
  (update_high_score w = Raise TypeError
   <-> lookup_user (current_user (self w)) (users w) = None)
  /\ (lookup_user (current_user (self w)) (users w) <> None ->
      exists w', update_high_score w = Ok w' /\ self w' = self w /\ rng w' = rng w).
Proof.
  unfold update_high_score, auth_get_high_score.
  destruct (lookup_user (current_user (self w)) (users w)) as [u|] eqn:Hl.
  - assert (Hok : exists w', (if score (self w) >? high_score u
                              then let '(users', out') :=
                                     auth_update_high_score (current_user (self w))
                                       (score (self w)) (users (print [] w)) in
                                   Ok (print ["New high score for "
                                              +:+ show_user (current_user (self w))
                                              +:+ ": " +:+ show_score (score (self w))]
                                         (print out' (with_users users' (print [] w))))
                              else Ok (print [] w)) = Ok w'
                             /\ self w' = self w /\ rng w' = rng w).
    { destruct (score (self w) >? high_score u).
      - destruct (auth_update_high_score _ _ _) as [users' out'].
        eexists. split; [reflexivity|]. split; reflexivity.
      - eexists. split; [reflexivity|]. split; reflexivity. }
    destruct Hok as (w' & E & Hs & Hr). cbn [fst snd] in *.
    split.
    + split; [|discriminate]. intros Hraise. rewrite E in Hraise. discriminate.
    + intros _. exists w'. auto.
  - split; [split; reflexivity|]. intros Hne. contradiction.
Qed.

(** ** text_input_box.py, passtext_input_box.py *)

(** The string consists of asterisks only. *)
Fixpoint all_stars (s : string) : bool :=
  match s with
  | EmptyString => true
  | String c s' => (Ascii.eqb c "*"%char) && all_stars s'
  end.

Lemma all_stars_append_star (s : string) :
  all_stars s = true -> all_stars (s +:+ "*") = true.
Proof.
  induction s as [|c s IH]; [reflexivity|].
  intros H. change (String c s +:+ "*") with (String c (s +:+ "*")).
  cbn [all_stars] in *. apply andb_prop in H as [Hc Hs].
  rewrite Hc, (IH Hs). reflexivity.
Qed.

Lemma all_stars_drop_last (s : string) :
  all_stars s = true -> all_stars (drop_last s) = true.
Proof.
  induction s as [|c s IH]; [reflexivity|].
  intros H. cbn [all_stars] in H. apply andb_prop in H as [Hc Hs].
  destruct s as [|d s']; [reflexivity|].
  change (drop_last (String c (String d s'))) with (String c (drop_last (String d s'))).
  cbn [all_stars]. rewrite Hc, (IH Hs). reflexivity.
Qed.

(** The box after a sequence of events. *)
Definition PassTextInputBox_handle_events (b : PassTextInputBox) (es : list Event)
  : PassTextInputBox :=
  fold_left (fun b e => fst (PassTextInputBox_handle_event b e)) es b.

Lemma PassTextInputBox_handle_event_masked (b : PassTextInputBox) (e : Event) :
  all_stars (pb_masked_text b) = true ->
  all_stars (pb_masked_text (fst (PassTextInputBox_handle_event b e))) = true
  /\ pb_rect (fst (PassTextInputBox_handle_event b e)) = pb_rect b.
Proof.
  intros Hm. unfold PassTextInputBox_handle_event.
  destruct e; try (split; [exact Hm|reflexivity]).
  destruct (pb_active b); [|split; [exact Hm|reflexivity]].
  destruct key; cbn; split; try reflexivity;
    try (apply all_stars_append_star; exact Hm).
  apply all_stars_drop_last. exact Hm.
Qed.

(** X14: whatever is clicked and typed, the text the password box
    displays consists of asterisks only, and so it does after a reset; the
    events never move the box. *)
Theorem password_box_shows_only_asterisks (x y w h : Z) (es : list Event) :
  let b := PassTextInputBox_handle_events (PassTextInputBox_init x y w h) es in
  all_stars (pb_masked_text b) = true
  /\ pb_masked_text (PassTextInputBox_reset b) = ""
  /\ pb_text (PassTextInputBox_reset b) = ""
  /\ pb_rect b = mkRect x y w h.
Proof.
  cbv zeta. unfold PassTextInputBox_handle_events.
  assert (Hgen : forall b,
             all_stars (pb_masked_text b) = true ->
             all_stars (pb_masked_text
                          (fold_left (fun b e => fst (PassTextInputBox_handle_event b e))
                                     es b)) = true
             /\ pb_rect (fold_left (fun b e => fst (PassTextInputBox_handle_event b e))
                                   es b) = pb_rect b).
  { induction es as [|e es IH]; intros b Hb; cbn [fold_left]; [tauto|].
    destruct (PassTextInputBox_handle_event_masked b e Hb) as [Hm Hr].
    destruct (IH _ Hm) as [IH1 IH2]. split; [exact IH1|congruence]. }
  destruct (Hgen (PassTextInputBox_init x y w h) eq_refl) as [H1 H2].
  split; [exact H1|]. split; [reflexivity|]. split; [reflexivity|exact H2].
Qed.

Lemma drop_last_append_char (s : string) (c : ascii) :
  drop_last (s +:+ String c "") = s.
Proof.
  induction s as [|d s IH]; [reflexivity|].
  change (String d s +:+ String c "") with (String d (s +:+ String c "")).
  destruct (s +:+ String c "") as [|e t] eqn:E.
  - destruct s; discriminate.
  - change (drop_last (String d (String e t))) with (String d (drop_last (String e t))).
    rewrite IH. reflexivity.
Qed.

(** X15: typing a character and pressing Backspace gives back the box as
    it was, for the username box and for the password box (clear text and
    mask), whether the box is active or not. *)
Theorem type_then_backspace (key : Key) (c : ascii)
    (tb : TextInputBox) (pb : PassTextInputBox) :
  key <> K_RETURN -> key <> K_BACKSPACE ->
  let typed := KEYDOWN key (String c "") in
  let erase := KEYDOWN K_BACKSPACE "" in
  fst (TextInputBox_handle_event (fst (TextInputBox_handle_event tb typed)) erase) = tb
  /\ fst (PassTextInputBox_handle_event
            (fst (PassTextInputBox_handle_event pb typed)) erase) = pb.
Proof.
  intros Hr Hb. cbv zeta. unfold TextInputBox_handle_event, PassTextInputBox_handle_event.
  split.
  - destruct tb as [r t [|]]; [|reflexivity].
    destruct key; try contradiction; cbn; rewrite drop_last_append_char; reflexivity.
  - destruct pb as [r t m [|]]; [|reflexivity].
    destruct key; try contradiction; cbn; rewrite !drop_last_append_char; reflexivity.
Qed.

Lemma type_then_backspace_witness :
  let tb := mkTextInputBox (mkRect 300 250 200 50) "an" true in
  let pb := mkPassTextInputBox (mkRect 300 350 200 50) "se" "**" true in
  let typed := KEYDOWN K_OTHER (String "n"%char "") in
  let erase := KEYDOWN K_BACKSPACE "" in
  fst (TextInputBox_handle_event (fst (TextInputBox_handle_event tb typed)) erase) = tb
  /\ fst (PassTextInputBox_handle_event
            (fst (PassTextInputBox_handle_event pb typed)) erase) = pb.
Proof.
  apply (type_then_backspace K_OTHER "n"%char
           (mkTextInputBox (mkRect 300 250 200 50) "an" true)
           (mkPassTextInputBox (mkRect 300 350 200 50) "se" "**" true));
    discriminate.
Defined.

(** ** breakout_game.py: the grid *)

(** The place of the brick in row [row] and column [col]. *)
Definition grid_rect (row col : Z) : Rect := mkRect (col * 80 + 10) (row * 30 + 10) 70 20.

Definition grid_rects (rows cols : Z) : list Rect :=
  flat_map (fun row => map (grid_rect row) (range cols)) (range rows).

Lemma create_brick_fresh (row col : Z) (g : Rng) :
  let b := fst (create_brick row col g) in
  brick_rect b = grid_rect row col
  /\ frame_counter b = 0 /\ flicker_offset b = 0
  /\ max_flicker_offset b = 2 /\ flicker_direction b = 1.
Proof.
  unfold create_brick. destruct (random_random g) as [u g1].
  destruct (qlt u (1 # 5)); [|repeat split].
  destruct (random_choice special_brick_types g1). repeat split.
Qed.

Lemma create_row_layout (row : Z) (cols : list Z) (g : Rng) :
  map brick_rect (fst (create_row row cols g)) = map (grid_rect row) cols
  /\ Forall flicker_ok (fst (create_row row cols g)).
Proof.
  revert g. induction cols as [|col cols IH]; intros g; cbn; [split; [reflexivity|constructor]|].
  destruct (create_brick_fresh row col g) as (Hr & H1 & H2 & H3 & H4).
  destruct (create_brick row col g) as [b g1]. cbn [fst] in *.
  destruct (IH g1) as [IH1 IH2]. destruct (create_row row cols g1) as [bs g2].
  cbn [fst] in *. cbn. rewrite Hr, IH1. split; [reflexivity|].
  constructor; [|exact IH2].
  unfold flicker_ok. rewrite H2, H3, H4. lia.
Qed.

Lemma create_rows_layout (rows cols : list Z) (g : Rng) :
  map brick_rect (fst (create_rows rows cols g))
  = flat_map (fun row => map (grid_rect row) cols) rows
  /\ Forall flicker_ok (fst (create_rows rows cols g)).
Proof.
  revert g. induction rows as [|row rows IH]; intros g; cbn; [split; [reflexivity|constructor]|].
  destruct (create_row_layout row cols g) as [Hr Hf].
  destruct (create_row row cols g) as [bs g1]. cbn [fst] in *.
  destruct (IH g1) as [IH1 IH2]. destruct (create_rows rows cols g1) as [bss g2].
  cbn [fst] in *. rewrite map_app, Hr, IH1. split; [reflexivity|].
  apply Forall_app. split; assumption.
Qed.

Lemma create_row_at_rest (row : Z) (cols : list Z) (g : Rng) :
  Forall (fun b => frame_counter b = 0 /\ flicker_offset b = 0)
         (fst (create_row row cols g)).
Proof.
  revert g. induction cols as [|col cols IH]; intros g; cbn; [constructor|].
  destruct (create_brick_fresh row col g) as (_ & H1 & H2 & _).
  destruct (create_brick row col g) as [b g1]. cbn [fst] in *.
  specialize (IH g1). destruct (create_row row cols g1) as [bs g2]. cbn [fst] in *.
  constructor; [tauto|exact IH].
Qed.

Lemma create_bricks_rects (rows cols : Z) (g : Rng) :
  map brick_rect (fst (create_bricks rows cols g)) = grid_rects rows cols.
Proof. apply create_rows_layout. Qed.

(** X16: the layout of the grid does not depend on the random source:
    [create_bricks] puts one 70 x 20 brick at (col * 80 + 10,
    row * 30 + 10) for every row and column, row by row, whatever is drawn
    for the power-ups, and each brick starts with its animation at rest. *)
Theorem create_bricks_layout (rows cols : Z) (g : Rng) :
  map brick_rect (fst (create_bricks rows cols g)) = grid_rects rows cols
  /\ Forall (fun b => frame_counter b = 0 /\ flicker_offset b = 0) (fst (create_bricks rows cols g))
  /\ forall g', map brick_rect (fst (create_bricks rows cols g'))
                = map brick_rect (fst (create_bricks rows cols g)).
Proof.
  unfold create_bricks, grid_rects.
  split; [apply create_rows_layout|]. split.
  - generalize (range rows) as rs. generalize (range cols) as cs. intros cs rs. revert g.
    induction rs as [|row rs IH]; intros g; cbn; [constructor|].
    pose proof (create_row_at_rest row cs g) as Hrow.
    destruct (create_row row cs g) as [bs g1]. cbn [fst] in *.
    specialize (IH g1). destruct (create_rows rs cs g1) as [bss g2]. cbn [fst] in *.
    apply Forall_app. split; assumption.
  - intros g'.
    destruct (create_rows_layout (range rows) (range cols) g) as [-> _].
    destruct (create_rows_layout (range rows) (range cols) g') as [-> _]. reflexivity.
Qed.

Lemma grid_rect_disjoint (row1 col1 row2 col2 : Z) :
  (row1, col1) <> (row2, col2) ->
  colliderect (grid_rect row1 col1) (grid_rect row2 col2) = false.
Proof.
  intros Hne. unfold colliderect, grid_rect. cbn.
  assert (Hc : col1 < col2 \/ col2 < col1 \/ row1 < row2 \/ row2 < row1).
  { destruct (Z.eq_dec row1 row2) as [->|]; [|lia].
    destruct (Z.eq_dec col1 col2) as [->|]; [|lia]. contradiction. }
  apply andb_false_iff.
  destruct Hc as [H|[H|[H|H]]].
  - left. apply andb_false_iff. right. rewrite Z.gtb_ltb. apply Z.ltb_ge. lia.
  - left. apply andb_false_iff. left. apply andb_false_iff. left. apply Z.ltb_ge. lia.
  - right. rewrite Z.gtb_ltb. apply Z.ltb_ge. lia.
  - left. apply andb_false_iff. left. apply andb_false_iff. right. apply Z.ltb_ge. lia.
Qed.

Lemma in_grid_rects (rows cols : Z) (r : Rect) :
  In r (grid_rects rows cols) <->
  exists row col, 0 <= row < rows /\ 0 <= col < cols /\ r = grid_rect row col.
Proof.
  unfold grid_rects. rewrite in_flat_map. split.
  - intros (row & Hrow & Hin). apply in_map_iff in Hin as (col & <- & Hcol).
    exists row, col. split; [apply range_bounds; exact Hrow|].
    split; [apply range_bounds; exact Hcol|reflexivity].
  - intros (row & col & Hrow & Hcol & ->).
    assert (Hin : forall n x, 0 <= x < n -> In x (range n)).
    { intros n x Hx. unfold range. apply in_map_iff. exists (Z.to_nat x).
      split; [lia|]. apply in_seq. lia. }
    exists row. split; [apply Hin; exact Hrow|].
    apply in_map_iff. exists col. split; [reflexivity|apply Hin; exact Hcol].
Qed.

(** X17: a grid of at most ten columns lies within the 800 pixel wide
    screen, rows top down from y = 10 with the last one ending at
    [rows * 30]; two bricks of the grid at different places never overlap,
    and no brick overlaps the paddle's row. *)
Theorem create_bricks_on_screen (rows cols : Z) (g : Rng) :
  cols <= 10 ->
  let bs := fst (create_bricks rows cols g) in
  Forall (fun b => 0 <= left (brick_rect b) /\ right (brick_rect b) <= 800
                   /\ 10 <= top (brick_rect b) /\ bottom (brick_rect b) <= rows * 30)
         bs
  /\ (forall b1 b2, In b1 bs -> In b2 bs -> brick_rect b1 <> brick_rect b2 ->
                    colliderect (brick_rect b1) (brick_rect b2) = false)
  /\ (rows <= 19 ->
      forall b pad, In b bs -> paddle_row pad ->
                    colliderect (brick_rect b) (paddle_rect pad) = false).
Proof.
  intros Hcols. cbv zeta.
  pose proof (create_bricks_rects rows cols g) as Hl.
  assert (Hin : forall b, In b (fst (create_bricks rows cols g)) ->
                          exists row col, 0 <= row < rows /\ 0 <= col < cols
                                          /\ brick_rect b = grid_rect row col).
  { intros b Hb. apply in_grid_rects. rewrite <- Hl. apply in_map. exact Hb. }
  split; [|split].
  - apply List.Forall_forall. intros b Hb.
    destruct (Hin b Hb) as (row & col & Hrow & Hcol & ->).
    unfold left, right, top, bottom, grid_rect. cbn. lia.
  - intros b1 b2 H1 H2 Hne.
    destruct (Hin b1 H1) as (r1 & c1 & _ & _ & E1).
    destruct (Hin b2 H2) as (r2 & c2 & _ & _ & E2).
    rewrite E1, E2 in *. apply grid_rect_disjoint. intros E. injection E as -> ->.
    contradiction.
  - intros Hrows b pad Hb [Hy Hh].
    destruct (Hin b Hb) as (row & col & Hrow & Hcol & ->).
    unfold colliderect, grid_rect. cbn. rewrite Hy, Hh.
    destruct (_ || _); [reflexivity|].
    apply andb_false_iff. right. rewrite Z.gtb_ltb. apply Z.ltb_ge. lia.
Qed.

Lemma create_bricks_on_screen_witness :
  let bs := fst (create_bricks 5 10 [3; 1; 777]) in
  Forall (fun b => 0 <= left (brick_rect b) /\ right (brick_rect b) <= 800
                   /\ 10 <= top (brick_rect b) /\ bottom (brick_rect b) <= 5 * 30)
         bs
  /\ (forall b1 b2, In b1 bs -> In b2 bs -> brick_rect b1 <> brick_rect b2 ->
                    colliderect (brick_rect b1) (brick_rect b2) = false)
  /\ (5 <= 19 ->
      forall b pad, In b bs -> paddle_row pad ->
                    colliderect (brick_rect b) (paddle_rect pad) = false).
Proof.
  apply (create_bricks_on_screen 5 10 [3; 1; 777]). lia.
Defined.

(** X18: a restart lays out the same 50 places as a new game, but none of
    its bricks carries a power-up, whatever the game was before. *)
Theorem reset_game_grid (s : BreakoutGame) (loaded : Users) (g : Rng) :
  map brick_rect (bricks (reset_game s))
  = map brick_rect (bricks (self (BreakoutGame_init loaded g)))
  /\ Forall (fun b => power_up_type b = None) (bricks (reset_game s))
  /\ stage_bricks (reset_game s) = 50
  /\ forall brick w, In brick (bricks (reset_game s)) ->
                     power_ups (self (hit_brick brick w)) = power_ups (self w).
Proof.
  assert (Hplain : map brick_rect plain_grid = grid_rects 5 10) by reflexivity.
  assert (Hnone : Forall (fun b => power_up_type b = None) plain_grid)
    by (vm_compute; repeat constructor).
  split; [|split; [|split]].
  - unfold BreakoutGame_init.
    pose proof (create_bricks_rects 5 10 g) as Hl.
    destruct (create_bricks 5 10 g) as [bs g1]. destruct (make_stars 100 g1) as [st g2].
    cbn [fst] in Hl. cbn. rewrite Hl. exact Hplain.
  - exact Hnone.
  - reflexivity.
  - intros brick w Hin. rewrite List.Forall_forall in Hnone.
    cbn in Hin. specialize (Hnone brick Hin).
    unfold hit_brick. rewrite Hnone. destruct_lets. reflexivity.
Qed.

(** ** breakout_game.py: power-ups and levels *)

(** A velocity component slowed once and then once more: the direction is
    kept and every slowing makes a moving component strictly smaller in
    magnitude, while a component at rest stays at rest. *)
Definition slowed_again (v v1 v2 : Q) : Prop :=
  ((0 < v -> 0 < v2 /\ v2 < v1 /\ v1 < v)
   /\ (v < 0 -> v < v1 /\ v1 < v2 /\ v2 < 0)
   /\ (v == 0 -> v1 == 0 /\ v2 == 0))%Q.

Lemma slowed_again_qmul (v : Q) :
  slowed_again v (qmul v (7#10)) (qmul (qmul v (7#10)) (7#10)).
Proof.
  pose proof (qmul_correct v (7#10)) as H1.
  pose proof (qmul_correct (qmul v (7#10)) (7#10)) as H2.
  unfold slowed_again. repeat split; intros; lra.
Qed.

(** X19: collecting [increase_paddle_size] twice does not enlarge the
    paddle twice (the width is computed from the default width both
    times), while [slow_ball] compounds: the second activation slows the
    already slowed ball once more, so that on each axis a moving ball keeps
    its direction and is strictly slower after the first activation and
    strictly slower again after the second, its position untouched;
    [extra_life] adds one life and touches neither paddle nor ball; each
    activation records its type and restarts the timer. *)
Theorem activate_power_up_stacking (s : BreakoutGame) (t1 t2 : Z) :
  paddle (activate_power_up increase_paddle_size t2
            (activate_power_up increase_paddle_size t1 s))
  = paddle (activate_power_up increase_paddle_size t1 s)
  /\ (let b1 := ball (activate_power_up slow_ball t1 s) in
      let b2 := ball (activate_power_up slow_ball t2 (activate_power_up slow_ball t1 s)) in
      slowed_again (ball_dx (ball s)) (ball_dx b1) (ball_dx b2)
      /\ slowed_again (ball_dy (ball s)) (ball_dy b1) (ball_dy b2)
      /\ ball_rect b2 = ball_rect (ball s)
      /\ trail b2 = trail (ball s))
  /\ (let s' := activate_power_up extra_life t1 s in
      lives s' = lives s + 1 /\ paddle s' = paddle s /\ ball s' = ball s)
  /\ forall t, active_power_up (activate_power_up t t2 (activate_power_up t t1 s)) = Some t
               /\ power_up_start_time (activate_power_up t t2 (activate_power_up t t1 s))
                  = t2.
Proof.
  split; [reflexivity|]. split.
  - cbn. split; [apply slowed_again_qmul|]. split; [apply slowed_again_qmul|].
    split; reflexivity.
  - split; [repeat split|]. intros []; split; reflexivity.
Qed.

(** X20: an enlarged paddle is kept for 5000 ms and is the old paddle
    again afterwards: up to and including 5000 ms after the activation
    the expiry test changes nothing, and any later test restores the
    default width, leaves the paddle where it is, and clears the record
    of the active power-up. *)
Theorem paddle_effect_lasts_5000ms (s : BreakoutGame) (t0 now : Z) :
  rw (paddle_rect (paddle s)) = paddle_width_default s ->
  let s1 := activate_power_up increase_paddle_size t0 s in
  (now - t0 <= 5000 -> step_expiry now s1 = s1)
  /\ (5000 < now - t0 ->
      paddle (step_expiry now s1) = paddle s
      /\ active_power_up (step_expiry now s1) = None
      /\ ball (step_expiry now s1) = ball s
      /\ lives (step_expiry now s1) = lives s).
Proof.
  intros Hw. cbv zeta. unfold step_expiry. cbn [active_power_up activate_power_up
    set_power_up_start_time set_active_power_up power_up_start_time].
  unfold POWER_UP_DURATION. split.
  - intros Hle. destruct (now - t0 >? 5000) eqn:E; [lia|reflexivity].
  - intros Hgt. destruct (now - t0 >? 5000) eqn:E; [|lia].
    unfold reset_power_ups. cbn. rewrite <- Hw.
    destruct (paddle s) as [[x y w h]]. repeat split.
Qed.

Lemma paddle_effect_lasts_5000ms_witness :
  let s1 := activate_power_up increase_paddle_size 1000 game0 in
  (6000 - 1000 <= 5000 -> step_expiry 6000 s1 = s1)
  /\ (5000 < 6000 - 1000 ->
      paddle (step_expiry 6000 s1) = paddle game0
      /\ active_power_up (step_expiry 6000 s1) = None
      /\ ball (step_expiry 6000 s1) = ball game0
      /\ lives (step_expiry 6000 s1) = lives game0).
Proof.
  apply (paddle_effect_lasts_5000ms game0 1000 6000). reflexivity.
Defined.

(** X21: whenever the stored vertical default is negative, as it is after
    every level-up, the expiry of [slow_ball] sends a ball that moves down
    upwards and a ball that moves up downwards, at the default speed. *)
Theorem slow_ball_expiry_negative_default (s : BreakoutGame) :
  active_power_up s = Some slow_ball ->
  (default_ball_dy s < 0)%Q -> ~ ball_dy (ball s) == 0 ->
  let s' := reset_power_ups s in
  ((0 < ball_dy (ball s))%Q <-> (ball_dy (ball s') < 0)%Q)
  /\ ((ball_dy (ball s) < 0)%Q <-> (0 < ball_dy (ball s'))%Q)
  /\ Qabs (ball_dy (ball s')) == Qabs (default_ball_dy s).
Proof.
  intros Ha Hd Hy.
  destruct (reset_power_ups_slow_ball s Ha) as (_ & _ & Ey). cbv zeta in *.
  destruct (qgt (ball_dy (ball s)) 0) eqn:E.
  - apply qgt_spec in E. rewrite Ey. repeat split; intros; try lra; reflexivity.
  - assert (Hneg : (ball_dy (ball s) < 0)%Q).
    { destruct (Qlt_le_dec (ball_dy (ball s)) 0) as [Hl|Hl]; [exact Hl|].
      destruct (Qle_lt_or_eq _ _ Hl) as [Hlt|Heq].
      - apply qgt_spec in Hlt. congruence.
      - exfalso. apply Hy. symmetry. exact Heq. }
    rewrite Ey. repeat split; intros; try lra; apply Qabs_opp.
Qed.

Lemma slow_ball_expiry_negative_default_witness :
  let s := activate_power_up slow_ball 0 (self world_level2) in
  let s' := reset_power_ups s in
  ((0 < ball_dy (ball s))%Q <-> (ball_dy (ball s') < 0)%Q)
  /\ ((ball_dy (ball s) < 0)%Q <-> (0 < ball_dy (ball s'))%Q)
  /\ Qabs (ball_dy (ball s')) == Qabs (default_ball_dy s).
Proof.
  apply (slow_ball_expiry_negative_default
           (activate_power_up slow_ball 0 (self world_level2))).
  - reflexivity.
  - vm_compute. reflexivity.
  - vm_compute. discriminate.
Defined.

(** The world after [n] level-ups in a row. *)
Definition level_ups (n : nat) (w : World) : World := Nat.iter n level_up w.

(** X22: level-ups do not add up in speed and stop adding rows at ten:
    after [n >= 1] level-ups the level is [n] higher, the grid has
    min(row_range + n, 10) rows of ten bricks, stage_bricks counts them,
    and ball and default speed are (5.5, -5.5) whatever the level. *)
Theorem level_ups_cap_rows_and_speed (n : nat) (w : World) :
  0 <= row_range (self w) -> (1 <= n)%nat ->
  let s' := self (level_ups n w) in
  level s' = level (self w) + Z.of_nat n
  /\ row_range s' = Z.min (row_range (self w) + Z.of_nat n) 10
  /\ len (bricks s') = row_range s' * 10
  /\ stage_bricks s' = len (bricks s')
  /\ (ball_dx (ball s'), ball_dy (ball s')) = (11 # 2, - (11 # 2))%Q
  /\ (default_ball_dx s', default_ball_dy s') = (11 # 2, - (11 # 2))%Q
  /\ game_state s' = GAME_RUNNING.
Proof.
  intros Hr Hn. unfold level_ups. destruct n as [|n]; [lia|]. clear Hn.
  induction n as [|n IH].
  - change (Nat.iter 1 level_up w) with (level_up w).
    destruct (level_up_spec w Hr) as (L1 & L2 & L3 & L4 & L5 & L6 & _ & _ & L9).
    cbv zeta in *. rewrite L1, L2. repeat split; try assumption; lia.
  - rewrite Nat.iter_succ. cbv zeta in IH.
    destruct IH as (I1 & I2 & _).
    set (w1 := Nat.iter (S n) level_up w) in *.
    assert (Hr1 : 0 <= row_range (self w1)) by lia.
    destruct (level_up_spec w1 Hr1) as (L1 & L2 & L3 & L4 & L5 & L6 & _ & _ & L9).
    cbv zeta in *. rewrite L1, L2, I1, I2. repeat split; try assumption; lia.
Qed.

Lemma level_ups_cap_rows_and_speed_witness :
  let w := BreakoutGame_init users_ann [] in
  let s' := self (level_ups 7 w) in
  level s' = level (self w) + Z.of_nat 7
  /\ row_range s' = Z.min (row_range (self w) + Z.of_nat 7) 10
  /\ len (bricks s') = row_range s' * 10
  /\ stage_bricks s' = len (bricks s')
  /\ (ball_dx (ball s'), ball_dy (ball s')) = (11 # 2, - (11 # 2))%Q
  /\ (default_ball_dx s', default_ball_dy s') = (11 # 2, - (11 # 2))%Q
  /\ game_state s' = GAME_RUNNING.
Proof.
  apply (level_ups_cap_rows_and_speed 7 (BreakoutGame_init users_ann [])).
  - vm_compute. discriminate.
  - lia.
Defined.

(** ** breakout_game.py: events and states *)

(** What [handle_main_menu] can do to the session: nothing, or log in the
    user whose trimmed name and password the gateway accepts. *)
Lemma handle_main_menu_cases `{Hashlib} (e : Event) (w : World) :
  let w' := handle_main_menu e w in
  let name := strip (tb_text (username_input (self w))) in
  let pw := strip (pb_text (password_input (self w))) in
  (game_state (self w') = game_state (self w)
   /\ logged_in (self w') = logged_in (self w)
   /\ current_user (self w') = current_user (self w))
  \/ (exists pos, e = MOUSEBUTTONDOWN pos
      /\ game_state (self w') = POST_LOGIN_MENU
      /\ logged_in (self w') = true
      /\ current_user (self w') = Some name
      /\ truthy name && truthy pw = true
      /\ auth_login_user name pw (users w) = true
      /\ users w' = users w
      /\ current_high_score (self w') = fst (auth_get_high_score (Some name) (users w))).
Proof.
  cbv zeta. unfold handle_main_menu.
  destruct (TextInputBox_handle_event (username_input (self w)) e) as [ub out1] eqn:E1.
  destruct (PassTextInputBox_handle_event (password_input (self w)) e) as [pb out2] eqn:E2.
  destruct (Button_handle_event (login_button (self w)) e) as [lb clicked] eqn:E3.
  destruct clicked.
  - assert (Hpos : exists pos, e = MOUSEBUTTONDOWN pos).
    { destruct e; cbn in E3; try discriminate. eauto. }
    destruct Hpos as [pos ->]. cbn in E1, E2.
    injection E1 as <- <-. injection E2 as <- <-.
    unfold login_user. cbn [self print users set_login_button set_password_input
      set_username_input username_input password_input tb_text pb_text rng stdout].
    destruct (truthy _ && truthy _) eqn:Ht; [|left; repeat split].
    destruct (auth_login_user _ _ (users w)) eqn:Hl; [|left; repeat split].
    right. exists pos. cbn [current_user set_current_user set_logged_in].
    destruct (auth_get_high_score _ (users w)) as [hs out] eqn:Hg.
    cbn. repeat split; try assumption.
  - match goal with
    | |- context [Button_handle_event ?b e] =>
        destruct (Button_handle_event b e) as [rb rclicked]
    end.
    destruct rclicked; [|left; repeat split].
    unfold register_user.
    match goal with |- context [truthy ?a && truthy ?b] => destruct (truthy a && truthy b) end;
      [|left; repeat split].
    match goal with
    | |- context [auth_register_user ?a ?b ?c] =>
        destruct (auth_register_user a b c) as [users' out]
    end.
    left. repeat split.
Qed.

Lemma handle_keys_state (e : Event) (w : World) :
  game_state (self (handle_keys e w)) = next_state e (game_state (self w)).
Proof.
  rewrite handle_keys_gates.
  rewrite (gate_state GAME_OVER POST_LOGIN_MENU) by reflexivity.
  rewrite (gate_state PAUSED GAME_RUNNING) by reflexivity.
  rewrite (gate_state GAME_RUNNING PAUSED) by reflexivity.
  rewrite (gate_state POST_LOGIN_MENU GAME_RUNNING) by reflexivity.
  destruct (game_state (self w)); destruct e as [| | |[]| | |]; reflexivity.
Qed.

(** The edges of the state diagram. *)
Definition allowed_transition (a b : GameState) : Prop :=
  a = b
  \/ In (a, b) [(MAIN_MENU, POST_LOGIN_MENU); (POST_LOGIN_MENU, GAME_RUNNING);
                (GAME_RUNNING, PAUSED); (PAUSED, GAME_RUNNING);
                (GAME_OVER, POST_LOGIN_MENU)].

Lemma next_state_allowed (e : Event) (st : GameState) :
  allowed_transition st (next_state e st).
Proof.
  unfold allowed_transition, next_state.
  destruct st; try (left; reflexivity);
    match goal with |- context [is_key ?k e] => destruct (is_key k e) end;
    try (left; reflexivity); right; cbn; tauto.
Qed.

(** X23: one event moves the game along at most one edge of the state
    diagram (main menu to post-login menu, post-login menu to running,
    running to paused and back, game over to post-login menu); past the
    main menu the next state is a function of the key alone, and only
    QUIT raises, [SystemExit]. *)
Theorem handle_event_state_machine `{Hashlib} (e : Event) (w : World) :
  match handle_event e w with
  | Raise x => e = QUIT /\ x = SystemExit
  | Ok w' =>
      allowed_transition (game_state (self w)) (game_state (self w'))
      /\ (game_state (self w) <> MAIN_MENU ->
          game_state (self w') = next_state e (game_state (self w)))
  end.
Proof.
  destruct (quit_or_not e) as [->|Hq]; [split; reflexivity|].
  rewrite (handle_event_unfold e w Hq).
  assert (Hf : game_state (self (focus_event e w)) = game_state (self w))
    by (destruct e; reflexivity).
  rewrite handle_keys_state.
  destruct (decide (game_state (self (focus_event e w)) = MAIN_MENU)) as [Hm|Hm].
  - rewrite Hf in Hm. split; [|intros Hn; contradiction].
    destruct (handle_main_menu_cases e (focus_event e w)) as [(Hs & _)|(pos & -> & Hs & _)];
      cbv zeta in *; rewrite Hs.
    + rewrite Hf, Hm. left. reflexivity.
    + rewrite Hm. right. cbn. tauto.
  - rewrite Hf. split; [apply next_state_allowed|reflexivity].
Qed.

(** The main menu with " ann " and her password typed in, the gateway
    holding her record under the digest of [plain_digest]. *)
Definition world_login : World :=
  with_self (fun s => set_password_input
                        (mkPassTextInputBox (pb_rect (password_input s))
                                            "hunter2" "*******" false)
                        (set_username_input
                           (mkTextInputBox (tb_rect (username_input s)) " ann " false) s))
            (BreakoutGame_init {[ "ann" := mkUser "sha256:hunter2" 120 ]} []).

(** X24: the main menu is left only by a login the gateway accepts: if an
    event takes the game out of the main menu, it is a click, the game is
    in the post-login menu, and the current user is the trimmed name in
    the username box, which the gateway accepted with the trimmed
    password; the dictionary is unchanged and the high score shown is the
    stored one. *)
Theorem main_menu_left_only_by_login `{Hashlib} (e : Event) (w w' : World) :
  game_state (self w) = MAIN_MENU ->
  handle_event e w = Ok w' -> game_state (self w') <> MAIN_MENU ->
  let name := strip (tb_text (username_input (self w))) in
  let pw := strip (pb_text (password_input (self w))) in
  (exists pos, e = MOUSEBUTTONDOWN pos)
  /\ game_state (self w') = POST_LOGIN_MENU
  /\ logged_in (self w') = true
  /\ current_user (self w') = Some name
  /\ name <> "" /\ pw <> ""
  /\ auth_login_user name pw (users w) = true
  /\ users w' = users w
  /\ current_high_score (self w') = fst (auth_get_high_score (Some name) (users w)).
Proof.
  intros Hs He Hn. cbv zeta.
  destruct (quit_or_not e) as [->|Hq]; [discriminate|].
  rewrite (handle_event_unfold e w Hq) in He. injection He as <-.
  assert (Hf : game_state (self (focus_event e w)) = MAIN_MENU)
    by (destruct e; exact Hs).
  assert (Hsame : username_input (self (focus_event e w)) = username_input (self w)
                  /\ password_input (self (focus_event e w)) = password_input (self w)
                  /\ users (focus_event e w) = users w)
    by (destruct e; repeat split).
  destruct Hsame as (Hu & Hp & Hus).
  destruct (decide _) as [_|Hm]; [|contradiction].
  rewrite handle_keys_state in Hn.
  destruct (handle_main_menu_cases e (focus_event e w))
    as [(Hs' & _)|(pos & -> & Hs' & Hl & Hc & Ht & Ha & Hu' & Hh)]; cbv zeta in *.
  - exfalso. apply Hn. rewrite Hs', Hf. reflexivity.
  - set (w2 := handle_main_menu (MOUSEBUTTONDOWN pos) (focus_event (MOUSEBUTTONDOWN pos) w)) in *.
    assert (Hk : handle_keys (MOUSEBUTTONDOWN pos) w2 = w2).
    { rewrite handle_keys_gates. unfold gate. cbn [is_key].
      repeat match goal with
             | |- context [decide ?P] => destruct (decide P)
             end; reflexivity. }
    rewrite Hk. rewrite Hu, Hp, Hus in *.
    apply andb_prop in Ht as [Ht1 Ht2].
    split; [eauto|]. repeat split; try assumption.
    + intros E. rewrite E in Ht1. discriminate.
    + intros E. rewrite E in Ht2. discriminate.
Qed.

Lemma main_menu_left_only_by_login_witness :
  let H := plain_digest in
  let w := world_login in
  let e := MOUSEBUTTONDOWN (350, 470) in
  let w' := login_user w in
  let name := strip (tb_text (username_input (self w))) in
  let pw := strip (pb_text (password_input (self w))) in
  (exists pos, e = MOUSEBUTTONDOWN pos)
  /\ game_state (self w') = POST_LOGIN_MENU
  /\ logged_in (self w') = true
  /\ current_user (self w') = Some name
  /\ name <> "" /\ pw <> ""
  /\ auth_login_user name pw (users w) = true
  /\ users w' = users w
  /\ current_high_score (self w') = fst (auth_get_high_score (Some name) (users w)).
Proof.
  intros H w e w'.
  apply (main_menu_left_only_by_login e w w').
  - reflexivity.
  - vm_compute. reflexivity.
  - vm_compute. discriminate.
Defined.

(** The no-break space U+00A0 and the next-line control U+0085. *)
Definition nbsp : string := String (ascii_of_N 160) "".
Definition nel : string := String (ascii_of_N 133) "".

(** [str.strip] trims them as it trims a blank. *)
Example strip_latin1_spaces :
  strip (nbsp +:+ " ann" +:+ nel +:+ nbsp) = "ann"
  /\ strip (nbsp +:+ nel) = ""
  /\ strip ("a" +:+ nbsp +:+ "b") = "a" +:+ nbsp +:+ "b".
Proof. repeat split. Qed.

(** A name followed by a no-break space logs in under the name alone, and
    a username of one no-break space is empty input: the message is
    printed and both boxes keep their text. *)
Example login_with_no_break_space :
  let H := plain_digest in
  let typed (name : string) :=
    with_self (fun s => set_username_input
                          (mkTextInputBox (tb_rect (username_input s)) name false) s)
              world_login in
  (current_user (self (login_user (typed ("ann" +:+ nbsp)))) = Some "ann"
   /\ game_state (self (login_user (typed ("ann" +:+ nbsp)))) = POST_LOGIN_MENU)
  /\ (stdout (login_user (typed nbsp)) = [msg_empty]
      /\ game_state (self (login_user (typed nbsp))) = MAIN_MENU
      /\ tb_text (username_input (self (login_user (typed nbsp)))) = nbsp
      /\ pb_text (password_input (self (login_user (typed nbsp)))) = "hunter2").
Proof. vm_compute. repeat split. Qed.

(** X25: pausing and resuming is a round trip: in the running state the
    key P followed by Enter gives back the very same world. *)
Theorem pause_then_resume `{Hashlib} (u1 u2 : string) (w : World) :
  game_state (self w) = GAME_RUNNING ->
  handle_events [KEYDOWN K_p u1; KEYDOWN K_RETURN u2] w = Ok w
  /\ exists wp, handle_event (KEYDOWN K_p u1) w = Ok wp
                /\ game_state (self wp) = PAUSED.
Proof.
  intros Hs. destruct w as [s us g o]. destruct s. cbn in Hs. subst.
  split; [reflexivity|]. eexists. split; reflexivity.
Qed.

Lemma pause_then_resume_witness :
  let H := plain_digest in
  handle_events [KEYDOWN K_p "p"; KEYDOWN K_RETURN ""] world_running = Ok world_running
  /\ exists wp, handle_event (KEYDOWN K_p "p") world_running = Ok wp
                /\ game_state (self wp) = PAUSED.
Proof.
  intros H. apply (pause_then_resume "p" "" world_running). reflexivity.
Defined.

(** X26: while the game is paused, over or in the post-login menu, an
    iteration of the main loop without events changes nothing at all,
    focused or not: no update runs and drawing these screens has no
    effect on the state. *)
Theorem idle_screens_are_frozen `{Hashlib} (keys : Keys) (now : Z) (w : World) :
  In (game_state (self w)) [PAUSED; GAME_OVER; POST_LOGIN_MENU] ->
  run_iteration [] keys now w = Ok w.
Proof.
  intros Hs. unfold run_iteration. cbn [handle_events mbind result_bind mret result_ret].
  assert (Hd : draw_game w = w).
  { unfold draw_game. cbn in Hs. destruct (game_state (self w)); try reflexivity;
      exfalso; intuition discriminate. }
  destruct (focused (self w)).
  - destruct (decide _) as [Hr|_]; [|cbn; rewrite Hd; reflexivity].
    exfalso. rewrite Hr in Hs. cbn in Hs. intuition discriminate.
  - cbn. rewrite Hd. reflexivity.
Qed.

Lemma idle_screens_are_frozen_witness :
  let H := plain_digest in
  let w := with_self (set_game_state PAUSED) world_two_hits in
  run_iteration [] (mkKeys true false) 123 w = Ok w.
Proof.
  intros H w. apply (idle_screens_are_frozen (mkKeys true false) 123 w).
  left. reflexivity.
Defined.

(** ** breakout_game.py: the main loop as a whole *)

Lemma handle_events_quit `{Hashlib} (events : list Event) (w : World) :
  In QUIT events -> handle_events events w = Raise SystemExit.
Proof.
  revert w. induction events as [|e es IH]; intros w Hin; [contradiction|].
  cbn [handle_events]. destruct (quit_or_not e) as [->|Hq]; [reflexivity|].
  rewrite (handle_event_unfold e w Hq). cbn [mbind result_bind].
  apply IH. destruct Hin as [E|Hin]; [congruence|exact Hin].
Qed.

Lemma handle_events_no_quit `{Hashlib} (events : list Event) (w : World) :
  ~ In QUIT events -> exists w', handle_events events w = Ok w'.
Proof.
  revert w. induction events as [|e es IH]; intros w Hin; [eexists; reflexivity|].
  cbn [handle_events].
  destruct (quit_or_not e) as [->|Hq]; [exfalso; apply Hin; left; reflexivity|].
  rewrite (handle_event_unfold e w Hq). cbn [mbind result_bind].
  apply IH. intros H'. apply Hin. right. exact H'.
Qed.

(** X27: the main loop raises nothing but the exit: from any state of the
    loop, an iteration whose events contain QUIT raises [SystemExit], and
    any other iteration returns, whatever the keys and the clock, in a
    state of the loop again. *)
Theorem main_loop_raises_only_on_quit `{Hashlib}
    (events : list Event) (keys : Keys) (now : Z) (w : World) :
  reachable w ->
  (In QUIT events -> run_iteration events keys now w = Raise SystemExit)
  /\ (~ In QUIT events ->
      exists w', run_iteration events keys now w = Ok w' /\ reachable w').
Proof.
  intros Hr. split.
  - intros Hq. unfold run_iteration. rewrite (handle_events_quit events w Hq). reflexivity.
  - intros Hq.
    assert (Hok : exists w', run_iteration events keys now w = Ok w').
    { unfold run_iteration.
      destruct (handle_events_no_quit events w Hq) as [w1 E1]. rewrite E1.
      cbn [mbind result_bind].
      pose proof (handle_events_playable events w w1 (reachable_playable w Hr) E1) as Hp1.
      destruct (focused (self w1)); [|eexists; reflexivity].
      destruct (decide (game_state (self w1) = GAME_RUNNING)) as [Hs|]; [|eexists; reflexivity].
      destruct (update_game_effect keys now w1 Hs Hp1) as (w2 & _ & _ & -> & _).
      eexists. reflexivity. }
    destruct Hok as [w' E]. exists w'. split; [exact E|].
    exact (reachable_iteration events keys now w w' Hr E).
Qed.

Lemma main_loop_raises_only_on_quit_witness :
  let H := plain_digest in
  let w := BreakoutGame_init users_ann [1; 2; 3] in
  let events := [MOUSEMOTION (350, 470); KEYDOWN K_p "p"] in
  (In QUIT events -> run_iteration events no_keys 16 w = Raise SystemExit)
  /\ (~ In QUIT events ->
      exists w', run_iteration events no_keys 16 w = Ok w' /\ reachable w').
Proof.
  intros H w events.
  apply (main_loop_raises_only_on_quit events no_keys 16 w).
  apply reachable_init.
Defined.

Lemma activate_power_up_keeps (t : PowerUpType) (now : Z) (s : BreakoutGame) :
  particles (activate_power_up t now s) = particles s
  /\ fragments (activate_power_up t now s) = fragments s
  /\ lives s <= lives (activate_power_up t now s).
Proof. destruct t; cbn; repeat split; lia. Qed.

Lemma power_ups_pass_keeps (l : list PowerUp) (now : Z) (s : BreakoutGame)
    (kept : list PowerUp) (s' : BreakoutGame) :
  power_ups_pass l now s = Ok (kept, s') ->
  particles s' = particles s /\ fragments s' = fragments s
  /\ lives s <= lives s'
  /\ Forall (fun p => top (pu_rect p) < 600) kept
  /\ (length kept <= length l)%nat.
Proof.
  revert s kept s'. induction l as [|p rest IH]; intros s kept s' E.
  - injection E as <- <-. repeat split; try lia. constructor.
  - rewrite power_ups_pass_cons in E. cbv zeta in E.
    set (p' := PowerUp_move p) in *.
    set (s1 := if colliderect (pu_rect p') (paddle_rect (paddle s))
               then activate_power_up (pu_type p') now s else s) in *.
    assert (Hs1 : particles s1 = particles s /\ fragments s1 = fragments s
                  /\ lives s <= lives s1).
    { subst s1. destruct (colliderect _ _); [apply activate_power_up_keeps|].
      repeat split; lia. }
    destruct Hs1 as (A1 & A2 & A3).
    destruct (top (pu_rect p') >=? 600) eqn:Htop.
    + destruct (colliderect _ _); [discriminate|].
      destruct (IH _ _ _ E) as (B1 & B2 & B3 & B4 & B5).
      repeat split; try congruence; try lia; try assumption. cbn. lia.
    + destruct (colliderect (pu_rect p') (paddle_rect (paddle s))).
      * destruct (IH _ _ _ E) as (B1 & B2 & B3 & B4 & B5).
        repeat split; try congruence; try lia; try assumption. cbn. lia.
      * destruct (power_ups_pass rest now s1) as [[kept0 s0]|] eqn:E0; [|discriminate].
        cbn in E. injection E as <- <-.
        destruct (IH _ _ _ E0) as (B1 & B2 & B3 & B4 & B5).
        repeat split; try congruence; try lia.
        -- constructor; [|exact B4]. lia.
        -- cbn. lia.
Qed.

Lemma update_high_score_self (w w' : World) :
  update_high_score w = Ok w' -> self w' = self w /\ rng w' = rng w.
Proof.
  unfold update_high_score.
  destruct (auth_get_high_score _ _) as [[hs|] out]; [|discriminate].
  destruct (score (self w) >? hs).
  - destruct (auth_update_high_score _ _ _) as [users' out'].
    intros E. injection E as <-. split; reflexivity.
  - intros E. injection E as <-. split; reflexivity.
Qed.

Lemma step_game_over_keeps (w w' : World) :
  step_game_over w = Ok w' ->
  particles (self w') = particles (self w) /\ fragments (self w') = fragments (self w)
  /\ lives (self w') = lives (self w) /\ power_ups (self w') = power_ups (self w).
Proof.
  unfold step_game_over. destruct (_ && _).
  - destruct (update_high_score w) as [w1|] eqn:E1; [|discriminate].
    apply update_high_score_self in E1 as [E1 _].
    cbn [mbind result_bind]. destruct (auth_get_high_score _ _) as [hs out].
    intros E. injection E as <-. cbn. rewrite E1. repeat split.
  - intros E. injection E as <-. repeat split.
Qed.

Lemma step_expiry_keeps (now : Z) (s : BreakoutGame) :
  particles (step_expiry now s) = particles s
  /\ fragments (step_expiry now s) = fragments s.
Proof.
  unfold step_expiry, reset_power_ups.
  destruct (active_power_up s) as [[]|]; [| | |split; reflexivity];
    destruct (_ >? _); split; reflexivity.
Qed.

Lemma tick_suffix_keeps (now : Z) (w w' : World) :
  tick_suffix now w = Ok w' ->
  particles (self w') = particles (self w) /\ fragments (self w') = fragments (self w)
  /\ Forall (fun p => top (pu_rect p) < 600) (power_ups (self w'))
  /\ (length (power_ups (self w')) <= length (power_ups (self w)))%nat
  /\ lives (step_life (self w)) <= lives (self w').
Proof.
  unfold tick_suffix. intros E.
  destruct (step_game_over (with_self step_life w)) as [w7|] eqn:E7; [|discriminate].
  cbn [mbind result_bind] in E.
  destruct (step_game_over_keeps _ _ E7) as (A1 & A2 & A3 & A4).
  unfold step_power_ups in E.
  destruct (power_ups_pass (power_ups (self w7)) now (self w7)) as [[kept s8]|] eqn:E8;
    [|discriminate].
  cbn in E. injection E as <-. cbn [self].
  destruct (power_ups_pass_keeps _ _ _ _ _ E8) as (B1 & B2 & B3 & B4 & B5).
  destruct (step_expiry_keeps now (set_power_ups kept s8)) as [C1 C2].
  destruct (step_expiry_frame now (set_power_ups kept s8)) as (_ & _ & C3 & C4 & _).
  cbv zeta in *. rewrite C1, C2, C3, C4. cbn in *.
  assert (Hp : particles (step_life (self w)) = particles (self w)
               /\ fragments (step_life (self w)) = fragments (self w)
               /\ power_ups (step_life (self w)) = power_ups (self w)).
  { unfold step_life. destruct (_ && _); repeat split. }
  destruct Hp as (D1 & D2 & D3).
  repeat split; try congruence; try assumption; try lia.
Qed.

Lemma step_effects_purged (s : BreakoutGame) :
  Forall (fun p => particle_expired p = false) (particles (step_effects s))
  /\ Forall (fun f => fragment_expired f = false) (fragments (step_effects s)).
Proof.
  unfold step_effects. cbn. split; apply List.Forall_forall; intros x Hx;
    apply filter_In in Hx as [_ Hx]; apply negb_true_iff in Hx; exact Hx.
Qed.

Lemma level_up_clears_effects (w : World) :
  particles (self (level_up w)) = [] /\ fragments (self (level_up w)) = [].
Proof.
  unfold level_up. cbn -[create_bricks Z.add].
  destruct (row_range (self w) + 1 >? 10); cbn -[create_bricks Z.add];
    destruct (create_bricks _ _ _); split; reflexivity.
Qed.

Lemma tick_prefix_purged (keys : Keys) (w : World) :
  let s5 := self (step_level (tick_scored keys w)) in
  Forall (fun p => particle_expired p = false) (particles s5)
  /\ Forall (fun f => fragment_expired f = false) (fragments s5).
Proof.
  cbv zeta. unfold step_level. destruct (_ =? 0).
  - destruct (level_up_clears_effects (tick_scored keys w)) as [-> ->].
    split; constructor.
  - unfold tick_scored, with_self. cbn [self]. unfold step_score.
    destruct (_ <? _); [unfold scoring; cbn [particles fragments set_stage_bricks set_score]|];
      apply step_effects_purged.
Qed.

(** X28: a running tick leaves nothing spent behind: at its end no
    particle with lifetime or size at or below 0 and no fragment with a
    side at 0 is in the game's lists, and every power-up still falling is
    above the bottom edge of the screen. *)
Theorem tick_purges_spent_entities (keys : Keys) (now : Z) (w : World) :
  game_state (self w) = GAME_RUNNING -> playable w ->
  exists w',
    update_game keys now w = Ok w'
    /\ Forall (fun p => p_lifetime p > 0 /\ (0 < p_size p)%Q) (particles (self w'))
    /\ Forall (fun f => (0 < f_width f)%Q /\ (0 < f_height f)%Q) (fragments (self w'))
    /\ Forall (fun p => top (pu_rect p) < 600) (power_ups (self w')).
Proof.
  intros Hs Hp.
  destruct (update_game_effect keys now w Hs Hp) as (w' & _ & _ & E & _).
  exists w'. split; [exact E|].
  rewrite (update_game_running keys now w Hs) in E.
  destruct (tick_suffix_keeps now _ w' E) as (A1 & A2 & A3 & _ & _).
  destruct (tick_prefix_purged keys w) as [B1 B2]. cbv zeta in *.
  rewrite A1, A2. split; [|split; [|exact A3]].
  - eapply Forall_impl; [|exact B1]. intros p Hx. cbv beta in Hx.
    unfold particle_expired in Hx. apply orb_false_iff in Hx as [H1 H2].
    apply Z.leb_gt in H1. split; [lia|].
    apply Qnot_le_lt. intros Hle. apply qle_spec in Hle. congruence.
  - eapply Forall_impl; [|exact B2]. intros f Hx. cbv beta in Hx.
    unfold fragment_expired in Hx. apply orb_false_iff in Hx as [H1 H2].
    split; apply Qnot_le_lt; intros Hle; apply qle_spec in Hle; congruence.
Qed.

Lemma tick_purges_spent_entities_witness :
  exists w',
    update_game no_keys 0 world_two_hits = Ok w'
    /\ Forall (fun p => p_lifetime p > 0 /\ (0 < p_size p)%Q) (particles (self w'))
    /\ Forall (fun f => (0 < f_width f)%Q /\ (0 < f_height f)%Q) (fragments (self w'))
    /\ Forall (fun p => top (pu_rect p) < 600) (power_ups (self w')).
Proof.
  apply (tick_purges_spent_entities no_keys 0 world_two_hits).
  - reflexivity.
  - exact world_two_hits_playable.
Defined.

Lemma step_life_lives (s : BreakoutGame) :
  1 <= lives s -> 1 <= lives (step_life s) /\ lives s - 1 <= lives (step_life s).
Proof.
  intros Hl. unfold step_life. destruct (_ >=? _); cbn [andb]; [|lia].
  destruct (lives s >? 1) eqn:E; cbn; lia.
Qed.

(** X29: the lives never reach 0.  A running tick that starts with at
    least one life ends with at least one, having taken at most one; it
    ends either running or over, and over only if it started on the last
    life with the moved ball at the bottom of the screen. *)
Theorem tick_keeps_a_life (keys : Keys) (now : Z) (w : World) :
  game_state (self w) = GAME_RUNNING -> playable w -> 1 <= lives (self w) ->
  exists w',
    update_game keys now w = Ok w'
    /\ 1 <= lives (self w') /\ lives (self w) - 1 <= lives (self w')
    /\ (game_state (self w') = GAME_RUNNING \/ game_state (self w') = GAME_OVER)
    /\ (game_state (self w') = GAME_OVER ->
        lives (self w) = 1 /\ 600 <= bottom (moved_ball_rect (self w))).
Proof.
  intros Hs Hp Hl.
  destruct (update_game_effect keys now w Hs Hp)
    as (w' & _ & _ & E & _ & _ & _ & _ & _ & _ & Hg & _).
  exists w'. split; [exact E|].
  rewrite (update_game_running keys now w Hs) in E.
  destruct (tick_suffix_keeps now _ w' E) as (_ & _ & _ & _ & A).
  destruct (tick_scored_effect keys w) as (_ & _ & _ & _ & _ & Hr4 & _ & _ & Hv4 & _).
  assert (Hrows : 5 <= row_range (self (tick_scored keys w)) <= 10)
    by (cbv zeta in Hr4; rewrite Hr4; apply (ok_rows w Hp)).
  destruct (step_level_effect _ Hrows) as (_ & _ & Hv5 & _). cbv zeta in *.
  assert (Hl5 : lives (self (step_level (tick_scored keys w))) = lives (self w))
    by congruence.
  destruct (step_life_lives (self (step_level (tick_scored keys w)))) as [B1 B2]; [lia|].
  split; [lia|]. split; [lia|].
  unfold run_ends in Hg. destruct (survivors (self w)).
  - split; [left; exact Hg|]. intros Ho. congruence.
  - destruct ((bottom (moved_ball_rect (self w)) >=? 600) && (lives (self w) =? 1)) eqn:Hc.
    + split; [right; exact Hg|]. intros _. apply andb_prop in Hc as [H1 H2]. lia.
    + split; [left; exact Hg|]. intros Ho. congruence.
Qed.

Lemma tick_keeps_a_life_witness :
  exists w',
    update_game no_keys 0 world_last_life = Ok w'
    /\ 1 <= lives (self w') /\ lives (self world_last_life) - 1 <= lives (self w')
    /\ (game_state (self w') = GAME_RUNNING \/ game_state (self w') = GAME_OVER)
    /\ (game_state (self w') = GAME_OVER ->
        lives (self world_last_life) = 1
        /\ 600 <= bottom (moved_ball_rect (self world_last_life))).
Proof.
  apply (tick_keeps_a_life no_keys 0 world_last_life).
  - reflexivity.
  - exact world_last_life_playable.
  - vm_compute. discriminate.
Defined.

(** ** breakout_game.py: filled-in credentials *)

(** The session as the player sees it. *)
Definition session (s : BreakoutGame) :=
  (game_state s, logged_in s, current_user s, current_high_score s,
   score s, level s, lives s).

(** X30: with both fields filled in, Register hands the trimmed name and
    password to the gateway (which stores them or turns a taken name
    down), empties both boxes and never logs anybody in; Login with
    credentials the gateway rejects empties both boxes, prints that the
    username or password is incorrect and changes nothing else. *)
Theorem filled_in_credentials `{Hashlib} (w : World) :
  let name := strip (tb_text (username_input (self w))) in
  let pw := strip (pb_text (password_input (self w))) in
  truthy name && truthy pw = true ->
  (let w' := register_user w in
   (users w', stdout w')
   = (fst (auth_register_user name pw (users w)),
      stdout w ++ snd (auth_register_user name pw (users w)))
   /\ username_input (self w') = TextInputBox_reset (username_input (self w))
   /\ password_input (self w') = PassTextInputBox_reset (password_input (self w))
   /\ session (self w') = session (self w) /\ arena (self w') = arena (self w))
  /\ (auth_login_user name pw (users w) = false ->
      let w' := login_user w in
      (users w', stdout w') = (users w, stdout w ++ ["Incorrect username or password."])
      /\ username_input (self w') = TextInputBox_reset (username_input (self w))
      /\ password_input (self w') = PassTextInputBox_reset (password_input (self w))
      /\ session (self w') = session (self w) /\ arena (self w') = arena (self w)).
Proof.
  cbv zeta. intros Ht. split.
  - unfold register_user. rewrite Ht.
    destruct (auth_register_user _ _ (users w)) as [users' out]. repeat split.
  - intros Hl. unfold login_user. rewrite Ht, Hl. repeat split.
Qed.

(** " ann " and a wrong password typed into the main menu. *)
Definition world_wrong_password : World :=
  with_self (fun s => set_password_input
                        (mkPassTextInputBox (pb_rect (password_input s))
                                            "letmein" "*******" false) s)
            world_login.

Lemma filled_in_credentials_witness :
  let H := plain_digest in
  let w := world_wrong_password in
  let name := strip (tb_text (username_input (self w))) in
  let pw := strip (pb_text (password_input (self w))) in
  (let w' := register_user w in
   (users w', stdout w')
   = (fst (auth_register_user name pw (users w)),
      stdout w ++ snd (auth_register_user name pw (users w)))
   /\ username_input (self w') = TextInputBox_reset (username_input (self w))
   /\ password_input (self w') = PassTextInputBox_reset (password_input (self w))
   /\ session (self w') = session (self w) /\ arena (self w') = arena (self w))
  /\ (auth_login_user name pw (users w) = false ->
      let w' := login_user w in
      (users w', stdout w') = (users w, stdout w ++ ["Incorrect username or password."])
      /\ username_input (self w') = TextInputBox_reset (username_input (self w))
      /\ password_input (self w') = PassTextInputBox_reset (password_input (self w))
      /\ session (self w') = session (self w) /\ arena (self w') = arena (self w)).
Proof.
  intros H w. apply (filled_in_credentials w). reflexivity.
Defined.
